(** * The Shaka provider of the vidstack player: model and properties

    A shallow embedding of [providers/shaka/shaka.ts] (the controller),
    [providers/shaka/provider.ts] (the provider) and the library loader,
    followed by the properties that the specification states about them.

    Modelling conventions.
    - JavaScript numbers that the code handles (track ids, pixel sizes, bit
      rates, list positions) are integers, so they are [Z] or [nat]; [NaN]
      and fractions are outside the model.
    - [null] and [undefined] are both [None]; an optional field [f?: T | null]
      is an [option T], a required field is a [T].
    - [a || b] is written with [Js.or_else]/[Js.or_opt]: the left operand is
      kept when it is truthy (present, non-zero, non-empty).
    - A template literal over a number is stdpp's [pretty].
    - Calls to the Shaka library and to the host player are recorded, in
      program order, in a trace of [Action]s.  An awaited call is recorded
      where it is made.  Where the caller of an [async] function does not
      await it, the code after the function's first [await] is kept apart
      from the code before it, and is placed after everything that the
      caller still does in the same turn.
    - Logging (under [__DEV__]) is not recorded.
    - The host's lists fire ['change'] synchronously: the adapter's own
      listeners on a list run inside the call that changes the selection,
      and what they do is part of the trace of that call. *)

From Stdlib Require Import ZArith Lia.
From stdpp Require Import base option list strings pretty sorting.

(** ** JavaScript primitives used by the code *)

Module Js.

Definition truthy_num (n : Z) : bool := negb (n =? 0)%Z.

Definition truthy_str (s : string) : bool := negb (String.eqb s "").

Definition truthy_opt {A} (f : A → bool) (x : option A) : bool :=
  match x with Some a => f a | None => false end.

(** [x || d] where [x] may be absent and [d] is a plain value. *)
Definition or_else {A} (f : A → bool) (x : option A) (d : A) : A :=
  match x with
  | Some a => if f a then a else d
  | None => d
  end.

(** [x || y] where both may be absent. *)
Definition or_opt {A} (f : A → bool) (x y : option A) : option A :=
  match x with
  | Some a => if f a then Some a else y
  | None => y
  end.

(** [`${x}`] for a nullable number; the code only builds it from a number
    that is present. *)
Definition template_num (x : option Z) : string :=
  match x with Some n => pretty n | None => "undefined" end.

(** [Map<string, V>]: entries in insertion order; [set] on a key that is
    present replaces the value in place, otherwise appends. *)
Section Map.
Context {V : Type}.

Definition Map := list (string * V).

Fixpoint get (k : string) (m : Map) : option V :=
  match m with
  | [] => None
  | (k', v) :: m' => if decide (k = k') then Some v else get k m'
  end.

Definition has (k : string) (m : Map) : bool :=
  match get k m with Some _ => true | None => false end.

Fixpoint set (k : string) (v : V) (m : Map) : Map :=
  match m with
  | [] => [(k, v)]
  | (k', v') :: m' =>
      if decide (k = k') then (k, v) :: m' else (k', v') :: set k v m'
  end.

Definition values (m : Map) : list V := m.*2.
End Map.
Arguments Map V : clear implicits.

(** [Array.prototype.sort(cmp)]: a stable sort; [a] stays before [b]
    unless [cmp a b > 0]. *)
Section Sort.
Context {A : Type} (cmp : A → A → Z).

Fixpoint insert (x : A) (l : list A) : list A :=
  match l with
  | [] => [x]
  | y :: l' => if (cmp x y <=? 0)%Z then x :: y :: l' else y :: insert x l'
  end.

Fixpoint sort (l : list A) : list A :=
  match l with
  | [] => []
  | x :: l' => insert x (sort l')
  end.
End Sort.

(** [Array.prototype.find]. *)
Fixpoint find {A} (p : A → bool) (l : list A) : option A :=
  match l with
  | [] => None
  | x :: l' => if p x then Some x else find p l'
  end.

End Js.

(** ** Records of the Shaka library ([types.ts]) *)

Module ShakaVariantTrack.
Record t := mk {
  id : Z;
  active : bool;
  type : string;
  bandwidth : Z;
  language : string;
  label : option string;
  width : option Z;
  height : option Z;
  codecs : option string;
  videoCodec : option string;
}.
End ShakaVariantTrack.

Module ShakaTextTrack.
Record t := mk {
  id : Z;
  active : bool;
  language : string;
  label : option string;
  kind : option string;
  primary : option bool;
}.
End ShakaTextTrack.

Module ShakaLanguageRole.
Record t := mk {
  language : string;
  role : string;
  label : option string;
}.
End ShakaLanguageRole.

Module ShakaError.
Record t := mk {
  severity : Z;
  category : Z;
  code : Z;
  message : option string;
}.
End ShakaError.

(** A Shaka event: its [type] and the extra fields that the handlers read. *)
Module ShakaEvent.
Record t := mk {
  type : string;
  buffering : option bool;
  newTrack : option ShakaVariantTrack.t;
  detail : option ShakaError.t;
}.
End ShakaEvent.

(** ** Records handed to the host player *)

Module VideoQuality.
Record t := mk {
  id : string;
  width : Z;
  height : Z;
  bitrate : Z;
  codec : string;
  index : nat;
}.
End VideoQuality.

Global Instance VideoQuality_eq_dec : EqDecision VideoQuality.t.
Proof. solve_decision. Defined.

Module AudioTrack.
Record t := mk {
  id : string;
  label : string;
  language : string;
  kind : string;
}.
End AudioTrack.

Module TextTrack.
Record t := mk {
  id : string;
  label : string;
  language : string;
  kind : string;
  default : bool;
  readyState : Z;
}.
End TextTrack.

(** ** Opaque JavaScript objects

    Functions and objects that the adapter only passes around are named by a
    number: filters, configuration objects, [onInstance] callbacks, the
    player constructor, dynamic-import loaders. *)

Definition ShakaRequestFilter := nat.
Definition ShakaResponseFilter := nat.
Definition ShakaInstanceCallback := nat.
Definition ShakaConstructor := nat.
Definition ShakaConstructorLoader := nat.
Definition ShakaNetworkingEngine := nat.

(** A value caught by a [catch] clause. *)
Module Thrown.
Record t := mk {
  isError : bool;        (* [error instanceof Error] *)
  message : string;
  ident : nat;
}.
End Thrown.

Module ShakaNamespace.
Record t := mk {
  Player : option ShakaConstructor;   (* [None]: not a function *)
  polyfill : bool;                    (* [polyfill.installAll] present *)
}.
End ShakaNamespace.

Inductive ShakaLibrary :=
  | LibUrl (url : string)
  | LibNamespace (Player : ShakaConstructor) (polyfill : bool)
  | LibLoader (loader : ShakaConstructorLoader)
  | LibUndefined.

Module ShakaProviderConfig.
Record t := mk {
  config : option nat;
  requestFilter : option ShakaRequestFilter;
  responseFilter : option ShakaResponseFilter;
}.
Definition empty : t := mk None None None.
End ShakaProviderConfig.

Inductive SrcValue :=
  | SrcString (s : string)
  | SrcObject (o : nat).

Module Src.
Record t := mk {
  src : SrcValue;
  type : option string;
}.
End Src.

(** The argument of [instance.configure]. *)
Inductive Configuration :=
  | UserConfig (o : nat)
  | Abr (enabled : bool).

(** The private methods that the controller binds and registers. *)
Inductive Handler :=
  | H_dispatchShakaEvent
  | H_onError
  | H_onAdaptation
  | H_onTracksChanged
  | H_onLoaded
  | H_onBuffering
  | H_onUserQualityChange
  | H_onUserAudioChange
  | H_liveSync
  | H_liveSyncPosition.

Inductive ListTarget := Qualities | AudioTracks.

Global Instance ListTarget_eq_dec : EqDecision ListTarget.
Proof. solve_decision. Defined.

Inductive Detail :=
  | NoDetail
  | NullDetail
  | EventDetail (e : ShakaEvent.t)
  | InstanceDetail (ctor : ShakaConstructor)
  | CtorDetail (ctor : ShakaConstructor)
  | ErrorDetail (e : Thrown.t).

Module DOMEvent.
Record t := mk {
  type : string;
  detail : Detail;
}.
End DOMEvent.

(** The [error] member of a media error notification. *)
Inductive ErrorCause :=
  | NoCause
  | ShakaCause (e : ShakaError.t)
  | ThrownCause (e : Thrown.t).

Module MediaError.
Record t := mk {
  message : string;
  code : Z;
  error : ErrorCause;
}.
End MediaError.

Inductive Payload :=
  | NoPayload
  | ErrorPayload (e : MediaError.t)
  | StreamTypePayload (type : string)
  | DurationPayload (d : Z)
  | ProviderPayload.

(** ** Observable actions

    One constructor per call that leaves the adapter: into the Shaka
    library, into the host player, or into the browser. *)

Inductive Action :=
  (* the browser and the library loader *)
  | LoadScript (url : string)
  | CallLoader (loader : ShakaConstructorLoader)
  | InstallPolyfills
  (* the Shaka player instance *)
  | Construct (ctor : ShakaConstructor)
  | AddEventListener (type : string) (h : Handler)
  | Configure (c : Configuration)
  | GetNetworkingEngine
  | RegisterRequestFilter (engine : ShakaNetworkingEngine) (f : ShakaRequestFilter)
  | RegisterResponseFilter (engine : ShakaNetworkingEngine) (f : ShakaResponseFilter)
  | GetVariantTracks
  | GetAudioLanguagesAndRoles
  | GetTextTracks
  | IsLive
  | SeekRange
  | SelectVariantTrack (track : ShakaVariantTrack.t) (clearBuffer : bool)
  | SelectAudioLanguage (language role : string)
  | SelectTextTrack (track : ShakaTextTrack.t)
  | SetTextTrackVisibility (visible : bool)
  | Load (uri : string)
  | Destroy
  (* [await call] *)
  | Await (call : Action)
  (* the host player *)
  | InvokeCallback (cb : ShakaInstanceCallback) (instance : ShakaConstructor)
  | PlayerDispatch (event : DOMEvent.t)
  | VideoDispatch (type : string) (trigger : DOMEvent.t)
  | Notify (type : string) (payload : Payload) (trigger : option DOMEvent.t)
  | QualitiesSetAuto (auto : bool) (trigger : DOMEvent.t)
  | QualitiesAdd (q : VideoQuality.t) (trigger : DOMEvent.t)
  | QualitiesSelect (q : VideoQuality.t) (trigger : DOMEvent.t)
  | QualitiesSetEnableAuto
  | AudioTracksAdd (t : AudioTrack.t) (trigger : DOMEvent.t)
  | TextTracksAdd (t : TextTrack.t) (source : ShakaTextTrack.t) (trigger : DOMEvent.t)
  | ListenEvent (target : ListTarget) (type : string) (h : Handler)
  | SetLiveSyncPosition (position : Z)
  | SetCurrentTime (time : Z)
  | CreateEffect (h : Handler)
  | StopEffect
  | RafStart (h : Handler)
  | RafStop
  (* the base video provider *)
  | SuperSetup
  | RemoveSource
  | SetPreload (preload : string)
  | AppendSource (src : Src.t) (type : string)
  | SetCurrentSrc (src : Src.t).

Definition Trace := list Action.

(** ** The host player

    The media context's quality list, and the host utilities that the
    adapter calls, are outside this package; the adapter is modelled over
    any implementation of them. *)

Class Host (L : Type) := {
  (* maverick.js/std *)
  camelToKebabCase : string → string;
  (* utils/language *)
  getLangName : string → option string;
  (* utils/error *)
  coerceToError : Thrown.t → Thrown.t;
  (* ctx.qualities *)
  toArray : L → list VideoQuality.t;
  length_of : L → nat;
  auto : L → bool;
  selected : L → option VideoQuality.t;
  switch : L → string;
  list_add : VideoQuality.t → L → L;
  list_select : VideoQuality.t → L → L;
  (* whether selecting the quality changes the selection, so that the list
     fires ['change'] *)
  select_changes : VideoQuality.t → L → bool;
  list_setAuto : bool → L → L;
}.

(** What the environment answers when it is asked: the Shaka instance, the
    browser and the host's state. *)
Module Env.
Record t := mk {
  (* the Shaka instance *)
  getVariantTracks : list ShakaVariantTrack.t;
  getAudioLanguagesAndRoles : list ShakaLanguageRole.t;
  getTextTracks : list ShakaTextTrack.t;
  getNetworkingEngine : option ShakaNetworkingEngine;
  isLive : bool;
  seekRange : Z * Z;                     (* start, end *)
  load : option Thrown.t;                (* [Some e]: the promise rejects with [e] *)
  (* the browser *)
  loadScript : option Thrown.t;
  window_shaka : option ShakaNamespace.t;
  loader : Thrown.t + option ShakaNamespace.t;   (* [(await loader())?.default] *)
  MediaSource_defined : bool;
  IS_CHROME : bool;
  DEV : bool;                            (* the build constant [__DEV__] *)
  currentTime : Z;
  (* the host's state *)
  canPlay : bool;
  live : bool;
  source : option Src.t;
  audio_selected : bool;
  audio_selectedIndex : Z;
}.
End Env.

(** ** State of the adapter *)

Module ShakaPlayer.
Record t := mk {
  ctor : ShakaConstructor;
  listeners : list (string * Handler);
}.
End ShakaPlayer.

(** The handle returned by [effect]; [raf] tells whether the effect's last
    run started an animation-frame loop, which its disposal stops. *)
Module EffectHandle.
Record t := mk { raf : bool }.
End EffectHandle.

Module State.
Record t {L : Type} := mk {
  (* ShakaController *)
  instance : option ShakaPlayer.t;
  callbacks : list ShakaInstanceCallback;
  stopLiveSync : option EffectHandle.t;
  config : ShakaProviderConfig.t;
  (* ShakaProvider *)
  ctor : option ShakaConstructor;
  library : ShakaLibrary;
  currentSrc : option Src.t;
  (* the media context *)
  qualities : L;
  hostListeners : list (ListTarget * string * Handler);
  (* the player that [#instance] referred to before [destroy] cleared it;
     the object lives on, with the listeners that [setup] attached *)
  dropped : option ShakaPlayer.t;
}.
Arguments t L : clear implicits.
Arguments mk {L}.

Section Setters.
Context {L : Type}.
Definition with_instance (i : option ShakaPlayer.t) (s : t L) : t L :=
  mk i (callbacks s) (stopLiveSync s) (config s) (ctor s) (library s)
     (currentSrc s) (qualities s) (hostListeners s) (dropped s).
Definition with_callbacks (c : list ShakaInstanceCallback) (s : t L) : t L :=
  mk (instance s) c (stopLiveSync s) (config s) (ctor s) (library s)
     (currentSrc s) (qualities s) (hostListeners s) (dropped s).
Definition with_stopLiveSync (h : option EffectHandle.t) (s : t L) : t L :=
  mk (instance s) (callbacks s) h (config s) (ctor s) (library s)
     (currentSrc s) (qualities s) (hostListeners s) (dropped s).
Definition with_ctor (c : option ShakaConstructor) (s : t L) : t L :=
  mk (instance s) (callbacks s) (stopLiveSync s) (config s) c (library s)
     (currentSrc s) (qualities s) (hostListeners s) (dropped s).
Definition with_currentSrc (c : option Src.t) (s : t L) : t L :=
  mk (instance s) (callbacks s) (stopLiveSync s) (config s) (ctor s) (library s)
     c (qualities s) (hostListeners s) (dropped s).
Definition with_qualities (q : L) (s : t L) : t L :=
  mk (instance s) (callbacks s) (stopLiveSync s) (config s) (ctor s) (library s)
     (currentSrc s) q (hostListeners s) (dropped s).
Definition with_hostListeners (l : list (ListTarget * string * Handler)) (s : t L) : t L :=
  mk (instance s) (callbacks s) (stopLiveSync s) (config s) (ctor s) (library s)
     (currentSrc s) (qualities s) l (dropped s).
Definition with_dropped (p : option ShakaPlayer.t) (s : t L) : t L :=
  mk (instance s) (callbacks s) (stopLiveSync s) (config s) (ctor s) (library s)
     (currentSrc s) (qualities s) (hostListeners s) p.
End Setters.
End State.

(** [Set<T>] in insertion order. *)
Definition set_add (x : nat) (l : list nat) : list nat :=
  if decide (x ∈ l) then l else l ++ [x].

Definition set_delete (x : nat) (l : list nat) : list nat :=
  filter (λ y, y ≠ x) l.

(** ** The controller ([shaka.ts]) *)

Module ShakaController.
Section Controller.
Context {L : Type} `{!Host L}.

Abbreviation St := (State.t L).

Definition toDOMEventType (type : string) : string :=
  "shaka-" +:+ camelToKebabCase type.

Definition createDOMEvent (type : string) (data : Detail) : DOMEvent.t :=
  DOMEvent.mk (toDOMEventType type) data.

Definition events : list string :=
  [ "buffering"; "loading"; "loaded"; "unloading"; "adaptation";
    "trackschanged"; "variantchanged"; "textchanged"; "texttrackvisibility";
    "streaming"; "manifestparsed" ].

(** *** Live synchronisation *)

(** [#liveSync]: the trace of one run, and whether it returns a cleanup
    (the loop's [stop]). *)
Definition liveSync (e : Env.t) : Trace * bool :=
  if negb (Env.live e) then ([], false)
  else ([RafStart H_liveSyncPosition], true).

(** The effect over [#liveSync] runs again when [$state.live] changes, and
    the cleanup that its last run returned (the loop's [stop]) is called
    first.  An effect that was disposed of, or never created, does not
    run. *)
Definition liveSync_rerun (e : Env.t) (s : St) : St * Trace :=
  match State.stopLiveSync s with
  | None => (s, [])
  | Some handle =>
      let '(tlive, raf) := liveSync e in
      (State.with_stopLiveSync (Some (EffectHandle.mk raf)) s,
       (if EffectHandle.raf handle then [RafStop] else []) ++ tlive)
  end.

(** [#liveSyncPosition]; an integer is never [NaN], so the position is
    always the one that is stored. *)
Definition liveSyncPosition (e : Env.t) (s : St) : Trace :=
  match State.instance s with
  | None => []
  | Some _ =>
      let seekRange := Env.seekRange e in
      let position := (seekRange.2 - Env.currentTime e)%Z in
      [SeekRange; SetLiveSyncPosition position]
  end.

(** [q.height === t.height]. *)
Definition same_height (h : option Z) (q : VideoQuality.t) : bool :=
  match h with
  | Some n => (VideoQuality.height q =? n)%Z
  | None => false
  end.

(** *** Quality and audio selection by the user *)

Definition enableAutoQuality (s : St) : Trace :=
  match State.instance s with
  | None => []
  | Some _ => [Configure (Abr true)]
  end.

Definition onUserQualityChange (e : Env.t) (s : St) : Trace :=
  let qualities := State.qualities s in
  match State.instance s, auto qualities, selected qualities with
  | Some _, false, Some selectedQuality =>
      let variantTracks := Env.getVariantTracks e in
      let matchingTrack :=
        Js.find (λ track, same_height (ShakaVariantTrack.height track) selectedQuality)
          variantTracks in
      [Configure (Abr false); GetVariantTracks]
        ++ match matchingTrack with
           | Some track => [SelectVariantTrack track (String.eqb (switch qualities) "current")]
           | None => []
           end
        ++ (if Env.IS_CHROME e then [SetCurrentTime (Env.currentTime e)] else [])
  | _, _, _ => []
  end.

Definition onUserAudioChange (e : Env.t) (s : St) : Trace :=
  match State.instance s with
  | None => []
  | Some _ =>
      if Env.audio_selected e then
        let audioLanguagesAndRoles := Env.getAudioLanguagesAndRoles e in
        let index := Env.audio_selectedIndex e in
        [GetAudioLanguagesAndRoles]
          ++ (if (0 <=? index)%Z && (index <? Z.of_nat (length audioLanguagesAndRoles))%Z
              then match audioLanguagesAndRoles !! Z.to_nat index with
                   | Some langRole =>
                       [SelectAudioLanguage (ShakaLanguageRole.language langRole)
                          (ShakaLanguageRole.role langRole)]
                   | None => []
                   end
              else [])
      else []
  end.

(** *** Events of the host's lists

    [setup] attaches the adapter's two handlers to the host's quality and
    audio lists.  A list fires ['change'] from within the call that changes
    its selection, so its listeners run before that call returns. *)

Definition run_listener (h : Handler) (e : Env.t) (s : St) : Trace :=
  match h with
  | H_onUserQualityChange => onUserQualityChange e s
  | H_onUserAudioChange => onUserAudioChange e s
  | _ => []
  end.

Definition fire_change (target : ListTarget) (e : Env.t) (s : St) : Trace :=
  concat
    ((λ p : ListTarget * string * Handler, run_listener p.2 e s)
       <$> filter (λ p : ListTarget * string * Handler, p.1.1 = target ∧ p.1.2 = "change")
             (State.hostListeners s)).

(** [qualities[ListSymbol.select](quality, true, trigger)]. *)
Definition select_quality (quality : VideoQuality.t) (trigger : DOMEvent.t)
    (e : Env.t) (s : St) : St * Trace :=
  let qualities := State.qualities s in
  let s' := State.with_qualities (list_select quality qualities) s in
  (s',
   [QualitiesSelect quality trigger]
     ++ (if select_changes quality qualities then fire_change Qualities e s' else [])).

(** *** Quality, audio and text tracks *)

(** The condition [track.height && track.width]. *)
Definition has_resolution (track : ShakaVariantTrack.t) : bool :=
  Js.truthy_opt Js.truthy_num (ShakaVariantTrack.height track)
  && Js.truthy_opt Js.truthy_num (ShakaVariantTrack.width track).

Definition group_by_resolution
    (uniqueQualities : Js.Map ShakaVariantTrack.t) (track : ShakaVariantTrack.t)
    : Js.Map ShakaVariantTrack.t :=
  if has_resolution track then
    let key := Js.template_num (ShakaVariantTrack.height track) in
    if negb (Js.has key uniqueQualities)
       || match Js.get key uniqueQualities with
          | Some t' => (ShakaVariantTrack.bandwidth t' <? ShakaVariantTrack.bandwidth track)%Z
          | None => false
          end
    then Js.set key track uniqueQualities
    else uniqueQualities
  else uniqueQualities.

Definition uniqueQualities (variantTracks : list ShakaVariantTrack.t)
    : Js.Map ShakaVariantTrack.t :=
  foldl group_by_resolution [] variantTracks.

Definition by_height_descending (a b : ShakaVariantTrack.t) : Z :=
  (Js.or_else Js.truthy_num (ShakaVariantTrack.height b) 0
   - Js.or_else Js.truthy_num (ShakaVariantTrack.height a) 0)%Z.

Definition sortedQualities (variantTracks : list ShakaVariantTrack.t)
    : list ShakaVariantTrack.t :=
  Js.sort by_height_descending (Js.values (uniqueQualities variantTracks)).

Definition quality_of (i : nat) (track : ShakaVariantTrack.t) : VideoQuality.t :=
  {| VideoQuality.id := "shaka-quality-" +:+ pretty (ShakaVariantTrack.id track);
     VideoQuality.width := Js.or_else Js.truthy_num (ShakaVariantTrack.width track) 0%Z;
     VideoQuality.height := Js.or_else Js.truthy_num (ShakaVariantTrack.height track) 0%Z;
     VideoQuality.bitrate :=
       Js.or_else Js.truthy_num (Some (ShakaVariantTrack.bandwidth track)) 0%Z;
     VideoQuality.codec :=
       Js.or_else Js.truthy_str
         (Js.or_opt Js.truthy_str (ShakaVariantTrack.videoCodec track)
                                  (ShakaVariantTrack.codecs track)) "";
     VideoQuality.index := i |}.

Definition updateQualityTracks (trigger : DOMEvent.t) (e : Env.t) (s : St) : St * Trace :=
  match State.instance s with
  | None => (s, [])
  | Some _ =>
      let variantTracks := Env.getVariantTracks e in
      let added := imap quality_of (sortedQualities variantTracks) in
      let qualities := foldl (λ l q, list_add q l) (State.qualities s) added in
      let activeQuality :=
        match Js.find ShakaVariantTrack.active variantTracks with
        | Some activeTrack =>
            Js.find (same_height (ShakaVariantTrack.height activeTrack)) (toArray qualities)
        | None => None
        end in
      match activeQuality with
      | Some q =>
          let '(s', t) := select_quality q trigger e (State.with_qualities qualities s) in
          (s', [GetVariantTracks] ++ ((λ q, QualitiesAdd q trigger) <$> added) ++ t)
      | None =>
          (State.with_qualities qualities s,
           [GetVariantTracks] ++ ((λ q, QualitiesAdd q trigger) <$> added))
      end
  end.

Definition audio_of (index : nat) (langRole : ShakaLanguageRole.t) : AudioTrack.t :=
  {| AudioTrack.id := "shaka-audio-" +:+ pretty index;
     AudioTrack.label :=
       Js.or_else Js.truthy_str
         (Js.or_opt Js.truthy_str
            (Js.or_opt Js.truthy_str (ShakaLanguageRole.label langRole)
               (getLangName (ShakaLanguageRole.language langRole)))
            (Some (ShakaLanguageRole.language langRole))) "";
     AudioTrack.language :=
       Js.or_else Js.truthy_str (Some (ShakaLanguageRole.language langRole)) "";
     AudioTrack.kind :=
       Js.or_else Js.truthy_str (Some (ShakaLanguageRole.role langRole)) "main" |}.

Definition updateAudioTracks (trigger : DOMEvent.t) (e : Env.t) (s : St) : Trace :=
  match State.instance s with
  | None => []
  | Some _ =>
      [GetAudioLanguagesAndRoles]
        ++ imap (λ index langRole, AudioTracksAdd (audio_of index langRole) trigger)
             (Env.getAudioLanguagesAndRoles e)
  end.

Definition text_of (shakaTrack : ShakaTextTrack.t) : TextTrack.t :=
  {| TextTrack.id := "shaka-text-" +:+ pretty (ShakaTextTrack.id shakaTrack);
     TextTrack.label :=
       Js.or_else Js.truthy_str
         (Js.or_opt Js.truthy_str
            (Js.or_opt Js.truthy_str (ShakaTextTrack.label shakaTrack)
               (getLangName (ShakaTextTrack.language shakaTrack)))
            (Some (ShakaTextTrack.language shakaTrack))) "";
     TextTrack.language :=
       Js.or_else Js.truthy_str (Some (ShakaTextTrack.language shakaTrack)) "";
     TextTrack.kind :=
       Js.or_else Js.truthy_str (ShakaTextTrack.kind shakaTrack) "subtitles";
     TextTrack.default := Js.or_else (λ b, b) (ShakaTextTrack.primary shakaTrack) false;
     TextTrack.readyState := 2%Z |}.

Definition updateTextTracks (trigger : DOMEvent.t) (e : Env.t) (s : St) : Trace :=
  match State.instance s with
  | None => []
  | Some _ =>
      [GetTextTracks]
        ++ ((λ shakaTrack, TextTracksAdd (text_of shakaTrack) shakaTrack trigger)
              <$> Env.getTextTracks e)
  end.

(** The [onModeChange] closure installed on the text track made from
    [shakaTrack], run when the host sets the track's mode to [mode]. *)
Definition onModeChange (shakaTrack : ShakaTextTrack.t) (mode : string)
    (e : Env.t) (s : St) : Trace :=
  match State.instance s with
  | None => []
  | Some _ =>
      if String.eqb mode "showing" then
        [GetTextTracks]
          ++ match Js.find (λ t, (ShakaTextTrack.id t =? ShakaTextTrack.id shakaTrack)%Z)
                     (Env.getTextTracks e) with
             | Some targetTrack => [SelectTextTrack targetTrack; SetTextTrackVisibility true]
             | None => []
             end
      else [SetTextTrackVisibility false]
  end.

(** *** Handlers of Shaka events *)

(** [#dispatchShakaEvent]; the media context's [player] is never null. *)
Definition dispatchShakaEvent (event : ShakaEvent.t) : Trace :=
  [PlayerDispatch (createDOMEvent (ShakaEvent.type event) (EventDetail event))].

Definition onBuffering (event : ShakaEvent.t) : Trace :=
  let trigger := createDOMEvent "buffering" (EventDetail event) in
  if Js.truthy_opt (λ b, b) (ShakaEvent.buffering event)
  then [Notify "waiting" NoPayload (Some trigger)]
  else [].

Definition onLoaded (e : Env.t) (s : St) : St * Trace :=
  match State.instance s with
  | None => (s, [])
  | Some _ =>
      if Env.canPlay e then (s, [])
      else
        let trigger := createDOMEvent "loaded" NullDetail in
        let isLive := Env.isLive e in
        let t1 :=
          [IsLive;
           Notify "stream-type-change"
             (StreamTypePayload (if isLive then "live" else "on-demand")) (Some trigger)] in
        let t2 :=
          if isLive then
            let seekRange := Env.seekRange e in
            let duration := (seekRange.2 - seekRange.1)%Z in
            [SeekRange]
              ++ (if (0 <? duration)%Z
                  then [Notify "duration-change" (DurationPayload duration) (Some trigger)]
                  else [])
          else [] in
        let s1 := State.with_qualities (list_setAuto true (State.qualities s)) s in
        let '(s2, t3) := updateQualityTracks trigger e s1 in
        (s2,
         t1 ++ t2 ++ [QualitiesSetAuto true trigger] ++ t3
           ++ updateAudioTracks trigger e s2
           ++ updateTextTracks trigger e s2
           ++ [VideoDispatch "canplay" trigger])
  end.

Definition onTracksChanged (event : ShakaEvent.t) (e : Env.t) (s : St) : St * Trace :=
  let trigger := createDOMEvent "trackschanged" (EventDetail event) in
  if decide (length_of (State.qualities s) = 0)
  then updateQualityTracks trigger e s
  else (s, []).

Definition onAdaptation (event : ShakaEvent.t) (e : Env.t) (s : St) : St * Trace :=
  match ShakaEvent.newTrack event with
  | None => (s, [])
  | Some newTrack =>
      if negb (String.eqb (ShakaVariantTrack.type newTrack) "variant") then (s, [])
      else
        match Js.find (same_height (ShakaVariantTrack.height newTrack))
                (toArray (State.qualities s)) with
        | Some quality =>
            let trigger := createDOMEvent "adaptation" (EventDetail event) in
            select_quality quality trigger e s
        | None => (s, [])
        end
  end.

Definition onFatalError (error : ShakaError.t) : Trace :=
  [Notify "error"
     (ErrorPayload
        {| MediaError.message :=
             Js.or_else Js.truthy_str (ShakaError.message error)
               ("Shaka error code: " +:+ pretty (ShakaError.code error));
           MediaError.code := 1;
           MediaError.error := ShakaCause error |})
     None].

Definition onError (event : ShakaEvent.t) : Trace :=
  match ShakaEvent.detail event with
  | None => []
  | Some error => onFatalError error
  end.

(** *** Network filters and instance callbacks *)

Definition registerRequestFilter (filter : ShakaRequestFilter) (e : Env.t) (s : St)
    : St * Trace :=
  match State.instance s with
  | None => (s, [])
  | Some _ =>
      (s, [GetNetworkingEngine]
            ++ match Env.getNetworkingEngine e with
               | Some networkingEngine => [RegisterRequestFilter networkingEngine filter]
               | None => []
               end)
  end.

Definition registerResponseFilter (filter : ShakaResponseFilter) (e : Env.t) (s : St)
    : St * Trace :=
  match State.instance s with
  | None => (s, [])
  | Some _ =>
      (s, [GetNetworkingEngine]
            ++ match Env.getNetworkingEngine e with
               | Some networkingEngine => [RegisterResponseFilter networkingEngine filter]
               | None => []
               end)
  end.

(** [onInstance] adds the callback; the function it returns is [dispose]. *)
Definition onInstance (callback : ShakaInstanceCallback) (s : St) : St :=
  State.with_callbacks (set_add callback (State.callbacks s)) s.

Definition dispose (callback : ShakaInstanceCallback) (s : St) : St :=
  State.with_callbacks (set_delete callback (State.callbacks s)) s.

(** *** Set-up, loading and destruction *)

Definition setup (ctor : ShakaConstructor) (e : Env.t) (s : St) : St * Trace :=
  let forwarding := (λ event, (event, H_dispatchShakaEvent)) <$> events in
  let failure := [("error", H_onError)] in
  let tracking :=
    [ ("adaptation", H_onAdaptation); ("trackschanged", H_onTracksChanged);
      ("loaded", H_onLoaded); ("buffering", H_onBuffering) ] in
  let listen := λ p : string * Handler, AddEventListener p.1 p.2 in
  let cfg := State.config s in
  let '(tlive, raf) := liveSync e in
  let instance := ShakaPlayer.mk ctor (forwarding ++ failure ++ tracking) in
  let host :=
    [ (Qualities, "change", H_onUserQualityChange);
      (AudioTracks, "change", H_onUserAudioChange) ] in
  (State.with_stopLiveSync (Some (EffectHandle.mk raf))
     (State.with_hostListeners (State.hostListeners s ++ host)
        (State.with_instance (Some instance) s)),
   [Construct ctor]
     ++ (listen <$> forwarding)
     ++ (listen <$> failure)
     ++ ((λ callback, InvokeCallback callback ctor) <$> State.callbacks s)
     ++ [PlayerDispatch (DOMEvent.mk "shaka-instance" (InstanceDetail ctor))]
     ++ match ShakaProviderConfig.config cfg with
        | Some c => [Configure (UserConfig c)]
        | None => []
        end
     ++ [GetNetworkingEngine]
     ++ match Env.getNetworkingEngine e with
        | Some networkingEngine =>
            match ShakaProviderConfig.requestFilter cfg with
            | Some f => [RegisterRequestFilter networkingEngine f]
            | None => []
            end
            ++ match ShakaProviderConfig.responseFilter cfg with
               | Some f => [RegisterResponseFilter networkingEngine f]
               | None => []
               end
        | None => []
        end
     ++ (listen <$> tracking)
     ++ [QualitiesSetEnableAuto]
     ++ ((λ p : ListTarget * string * Handler, ListenEvent p.1.1 p.1.2 p.2) <$> host)
     ++ [CreateEffect H_liveSync] ++ tlive).

(** [loadSource] up to its [await]: the call of the library's [load]. *)
Definition loadSource_call (src : Src.t) (s : St) : Trace :=
  match Src.src src, State.instance s with
  | SrcString uri, Some _ => [Await (Load uri)]
  | _, _ => []
  end.

(** [loadSource] once that call has settled. *)
Definition loadSource_settled (src : Src.t) (e : Env.t) (s : St) : Trace :=
  match Src.src src, State.instance s with
  | SrcString _, Some _ =>
      match Env.load e with
      | None => []
      | Some error =>
          [Notify "error"
             (ErrorPayload
                {| MediaError.message :=
                     if Thrown.isError error then Thrown.message error
                     else "Failed to load source";
                   MediaError.code := 1;
                   MediaError.error := ThrownCause error |})
             None]
      end
  | _, _ => []
  end.

Definition loadSource (src : Src.t) (e : Env.t) (s : St) : Trace :=
  loadSource_call src s ++ loadSource_settled src e s.

(** [destroy] up to its [await]: the call of the library's [destroy], made
    when there is an instance. *)
Definition destroy_call (s : St) : Trace :=
  match State.instance s with
  | Some _ => [Await Destroy]
  | None => []
  end.

(** [destroy] from there on (from its start, when there is no instance).
    No listener is removed from the player that is let go of. *)
Definition destroy_resume (s : St) : St * Trace :=
  let s1 :=
    match State.instance s with
    | Some player => State.with_dropped (Some player) (State.with_instance None s)
    | None => s
    end in
  let t2 :=
    match State.stopLiveSync s with
    | Some handle => [StopEffect] ++ (if EffectHandle.raf handle then [RafStop] else [])
    | None => []
    end in
  (State.with_stopLiveSync None s1, t2).

(** [destroy], run to its end. *)
Definition destroy (s : St) : St * Trace :=
  let '(s', t) := destroy_resume s in
  (s', destroy_call s ++ t).

(** Two calls of [destroy], the second made before the first has resumed. *)
Definition destroy_twice (s : St) : St * Trace :=
  let '(s1, t1) := destroy_resume s in
  let '(s2, t2) := destroy_resume s1 in
  (s2, destroy_call s ++ destroy_call s ++ t1 ++ t2).

(** *** Delivery of events to the registered handlers *)

Definition run_handler (h : Handler) (event : ShakaEvent.t) (e : Env.t) (s : St)
    : St * Trace :=
  match h with
  | H_dispatchShakaEvent => (s, dispatchShakaEvent event)
  | H_onError => (s, onError event)
  | H_onAdaptation => onAdaptation event e s
  | H_onTracksChanged => onTracksChanged event e s
  | H_onLoaded => onLoaded e s
  | H_onBuffering => (s, onBuffering event)
  | H_onUserQualityChange => (s, onUserQualityChange e s)
  | H_onUserAudioChange => (s, onUserAudioChange e s)
  | H_liveSync => liveSync_rerun e s
  | H_liveSyncPosition => (s, liveSyncPosition e s)
  end.

Fixpoint run_handlers (hs : list Handler) (event : ShakaEvent.t) (e : Env.t) (s : St)
    : St * Trace :=
  match hs with
  | [] => (s, [])
  | h :: hs' =>
      let '(s1, t1) := run_handler h event e s in
      let '(s2, t2) := run_handlers hs' event e s1 in
      (s2, t1 ++ t2)
  end.

(** The player object whose events reach the adapter: the current
    instance or, once [destroy] has cleared [#instance], the player that was
    let go of. *)
Definition player (s : St) : option ShakaPlayer.t :=
  match State.instance s with
  | Some instance => Some instance
  | None => State.dropped s
  end.

(** The player fires [event]: the listeners registered for its type run in
    registration order. *)
Definition receive (event : ShakaEvent.t) (e : Env.t) (s : St) : St * Trace :=
  match player s with
  | None => (s, [])
  | Some player =>
      let hs :=
        (filter (λ p : string * Handler, p.1 = ShakaEvent.type event)
           (ShakaPlayer.listeners player)).*2 in
      run_handlers hs event e s
  end.

(** A host list fires ['change']. *)
Definition change (target : ListTarget) (e : Env.t) (s : St) : St * Trace :=
  let hs :=
    (filter (λ p : ListTarget * string * Handler, p.1.1 = target ∧ p.1.2 = "change")
       (State.hostListeners s)).*2 in
  run_handlers hs (ShakaEvent.mk "change" None None None) e s.

End Controller.
End ShakaController.

(** ** The library loader *)

Module ShakaLibLoader.
Section Loader.
Context {L : Type} `{!Host L}.

Abbreviation St := (State.t L).

(** The loader's [callback]: what the provider does with the constructor.
    Its second trace is what the callback leaves pending when it returns. *)
Abbreviation Callback := (ShakaConstructor → Env.t → St → St * Trace * Trace).

Definition onLoadStart : Trace :=
  [PlayerDispatch (DOMEvent.mk "shaka-lib-load-start" NoDetail)].

Definition onLoaded (callback : Callback) (ctor : ShakaConstructor) (e : Env.t) (s : St)
    : St * Trace * Trace :=
  let '(s', t, later) := callback ctor e s in
  (s', [PlayerDispatch (DOMEvent.mk "shaka-lib-loaded" (CtorDetail ctor))] ++ t, later).

Definition onLoadError (err : Thrown.t) : Trace :=
  let error := coerceToError err in
  [PlayerDispatch (DOMEvent.mk "shaka-lib-load-error" (ErrorDetail error));
   Notify "error"
     (ErrorPayload
        {| MediaError.message := Thrown.message error;
           MediaError.code := 4;
           MediaError.error := ThrownCause error |})
     None].

Definition installAll (polyfill : bool) : Trace :=
  if polyfill then [InstallPolyfills] else [].

Definition invalid_window (e : Env.t) : Thrown.t :=
  Thrown.mk true
    (if Env.DEV e
     then "[vidstack] failed loading Shaka Player. Could not find a valid `shaka.Player` constructor on window"
     else "") 0.

Definition invalid_import (e : Env.t) : Thrown.t :=
  Thrown.mk true
    (if Env.DEV e
     then "[vidstack] failed importing Shaka Player. Dynamic import returned invalid object."
     else "") 0.

Definition loadShakaScript (src : ShakaLibrary) (callback : Callback) (e : Env.t) (s : St)
    : option ShakaConstructor * St * Trace * Trace :=
  match src with
  | LibUrl url =>
      let start := onLoadStart ++ [Await (LoadScript url)] in
      match Env.loadScript e with
      | Some err => (None, s, start ++ onLoadError err, [])
      | None =>
          match Env.window_shaka e with
          | Some shaka =>
              match ShakaNamespace.Player shaka with
              | Some ctor =>
                  let '(s', t, later) := onLoaded callback ctor e s in
                  (Some ctor, s',
                   start ++ installAll (ShakaNamespace.polyfill shaka) ++ t, later)
              | None => (None, s, start ++ onLoadError (invalid_window e), [])
              end
          | None => (None, s, start ++ onLoadError (invalid_window e), [])
          end
      end
  | _ => (None, s, [], [])
  end.

(** [importShaka] is called only with a library that is not a string. *)
Definition importShaka (loader : ShakaLibrary) (callback : Callback) (e : Env.t) (s : St)
    : option ShakaConstructor * St * Trace * Trace :=
  match loader with
  | LibUndefined => (None, s, [], [])
  | LibUrl _ => (None, s, [], [])
  | LibNamespace ctor polyfill =>
      let '(s', t, later) := onLoaded callback ctor e s in
      (Some ctor, s', onLoadStart ++ installAll polyfill ++ t, later)
  | LibLoader f =>
      let start := onLoadStart ++ [Await (CallLoader f)] in
      match Env.loader e with
      | inl err => (None, s, start ++ onLoadError err, [])
      | inr (Some ns) =>
          match ShakaNamespace.Player ns with
          | Some ctor =>
              let '(s', t, later) := onLoaded callback ctor e s in
              (Some ctor, s', start ++ installAll (ShakaNamespace.polyfill ns) ++ t, later)
          | None => (None, s, start ++ onLoadError (invalid_import e), [])
          end
      | inr None => (None, s, start ++ onLoadError (invalid_import e), [])
      end
  end.

Definition isString (lib : ShakaLibrary) : bool :=
  match lib with LibUrl _ => true | _ => false end.

(** [#startLoading].  What the callback left pending resumes only when the
    library's [load] settles, after the check for [MediaSource]; the state
    that is returned is the one reached when that, too, has run. *)
Definition startLoading (lib : ShakaLibrary) (callback : Callback) (e : Env.t) (s : St)
    : St * Trace :=
  let '(ctor, s1, t1, later1) := loadShakaScript lib callback e s in
  let '(ctor, s2, t2, later2) :=
    match ctor with
    | None =>
        if negb (isString lib) then importShaka lib callback e s1 else (ctor, s1, [], [])
    | Some _ => (ctor, s1, [], [])
    end in
  match ctor with
  | None => (s2, t1 ++ t2 ++ later1 ++ later2)
  | Some _ =>
      if Env.MediaSource_defined e then (s2, t1 ++ t2 ++ later1 ++ later2)
      else
        (s2, t1 ++ t2
               ++ [PlayerDispatch (DOMEvent.mk "shaka-unsupported" NoDetail);
                   Notify "error"
                     (ErrorPayload
                        {| MediaError.message :=
                             "[vidstack] Shaka Player is not supported in this environment";
                           MediaError.code := 4;
                           MediaError.error := NoCause |})
                     None]
               ++ later1 ++ later2)
  end.

End Loader.
End ShakaLibLoader.

(** ** The provider ([provider.ts]) *)

Module ShakaProvider.
Section Provider.
Context {L : Type} `{!Host L}.

Abbreviation St := (State.t L).

(** [loadSource] up to the point where it waits for the controller. *)
Definition loadSource_begin (src : Src.t) (preload : option string) (s : St) : Trace :=
  match Src.src src with
  | SrcString _ =>
      [SetPreload (Js.or_else Js.truthy_str preload "");
       AppendSource src (Js.or_else Js.truthy_str (Src.type src) "application/dash+xml")]
        ++ ShakaController.loadSource_call src s
  | SrcObject _ => [RemoveSource]
  end.

(** [loadSource] from there on, once the library's [load] has settled. *)
Definition loadSource_resume (src : Src.t) (e : Env.t) (s : St) : St * Trace :=
  match Src.src src with
  | SrcString _ =>
      (State.with_currentSrc (Some src) s,
       ShakaController.loadSource_settled src e s ++ [SetCurrentSrc src])
  | SrcObject _ => (s, [])
  end.

(** [loadSource], awaited. *)
Definition loadSource (src : Src.t) (preload : option string) (e : Env.t) (s : St)
    : St * Trace :=
  let '(s', t) := loadSource_resume src e s in
  (s', loadSource_begin src preload s ++ t).

(** The callback that [setup] hands to the library loader.  It calls
    [loadSource] without awaiting it: it returns as soon as the library's
    [load] has been called, and leaves the rest of [loadSource] pending. *)
Definition onLibrary (ctor : ShakaConstructor) (e : Env.t) (s : St) : St * Trace * Trace :=
  let '(s1, t1) := ShakaController.setup ctor e (State.with_ctor (Some ctor) s) in
  let t2 := [Notify "provider-setup" ProviderPayload None] in
  match Env.source e with
  | Some src =>
      let '(s2, later) := loadSource_resume src e s1 in
      (s2, t1 ++ t2 ++ loadSource_begin src None s1, later)
  | None => (s1, t1 ++ t2, [])
  end.

Definition setup (e : Env.t) (s : St) : St * Trace :=
  let '(s', t) := ShakaLibLoader.startLoading (State.library s) onLibrary e s in
  (s', [SuperSetup] ++ t).

Definition onInstance (callback : ShakaInstanceCallback) (s : St) : St * Trace :=
  (ShakaController.onInstance callback s,
   match State.instance s with
   | Some instance => [InvokeCallback callback (ShakaPlayer.ctor instance)]
   | None => []
   end).

Definition registerRequestFilter (filter : ShakaRequestFilter) (e : Env.t) (s : St)
    : St * Trace :=
  ShakaController.registerRequestFilter filter e s.

Definition registerResponseFilter (filter : ShakaResponseFilter) (e : Env.t) (s : St)
    : St * Trace :=
  ShakaController.registerResponseFilter filter e s.

Definition destroy (s : St) : St * Trace :=
  ShakaController.destroy s.

End Provider.
End ShakaProvider.

(** ** A host for running the model

    The simplest implementation of the host interface: the quality list is
    an array with its flags, [add] appends and [select] records the
    selection. *)

Module SimpleHost.
Record t := mk {
  items : list VideoQuality.t;
  is_auto : bool;
  current : option VideoQuality.t;
  mode : string;
}.

Definition empty : t := mk [] false None "current".

Global Instance host : Host t := {|
  camelToKebabCase := λ s, s;
  getLangName := λ _, None;
  coerceToError := λ e, e;
  toArray := items;
  length_of := λ l, length (items l);
  auto := is_auto;
  selected := current;
  switch := mode;
  list_add := λ q l, mk (items l ++ [q]) (is_auto l) (current l) (mode l);
  list_select := λ q l, mk (items l) (is_auto l) (Some q) (mode l);
  select_changes := λ q l, bool_decide (current l ≠ Some q);
  list_setAuto := λ b l, mk (items l) b (current l) (mode l);
|}.
End SimpleHost.

(** ** Sample data

    A manifest with three resolutions, one of them offered at three bit
    rates and one variant without a width; a player configured with two
    filters and two instance callbacks. *)

Module Sample.
Definition variant (id bandwidth : Z) (width height : option Z) (active : bool)
    : ShakaVariantTrack.t :=
  ShakaVariantTrack.mk id active "variant" bandwidth "en" None width height
    None (Some "avc1.64001f").

Definition tracks : list ShakaVariantTrack.t :=
  [ variant 1 100 (Some 640) (Some 360) false;
    variant 2 500 (Some 1280) (Some 720) true;
    variant 3 900 (Some 1280) (Some 720) false;
    variant 4 50 None (Some 1080) false;
    variant 5 700 (Some 1280) (Some 720) false;
    variant 6 10 (Some 1920) (Some 1080) false ]%Z.

Definition audio : list ShakaLanguageRole.t :=
  [ ShakaLanguageRole.mk "en" "" None;
    ShakaLanguageRole.mk "fr" "commentary" (Some "Commentaire") ].

Definition text : list ShakaTextTrack.t :=
  [ ShakaTextTrack.mk 7 false "en" None (Some "captions") (Some true);
    ShakaTextTrack.mk 8 false "de" None None None ]%Z.

Definition failure : Thrown.t := Thrown.mk true "manifest unavailable" 1.

Definition env_of (variantTracks : list ShakaVariantTrack.t) : Env.t :=
  {| Env.getVariantTracks := variantTracks;
     Env.getAudioLanguagesAndRoles := audio;
     Env.getTextTracks := text;
     Env.getNetworkingEngine := Some 7;
     Env.isLive := false;
     Env.seekRange := (0, 10)%Z;
     Env.load := Some failure;
     Env.loadScript := None;
     Env.window_shaka := Some (ShakaNamespace.mk (Some 3) true);
     Env.loader := inr None;
     Env.MediaSource_defined := true;
     Env.IS_CHROME := false;
     Env.DEV := false;
     Env.currentTime := 0;
     Env.canPlay := false;
     Env.live := true;
     Env.source := Some (Src.mk (SrcString "https://files.vidstack.io/dash/manifest.mpd") None);
     Env.audio_selected := false;
     Env.audio_selectedIndex := 0 |}.

Definition env : Env.t := env_of tracks.

Definition fresh : State.t SimpleHost.t :=
  {| State.instance := None;
     State.callbacks := [11; 12];
     State.stopLiveSync := None;
     State.config := ShakaProviderConfig.mk (Some 1) (Some 2) (Some 3);
     State.ctor := None;
     State.library := LibUrl "https://cdn.jsdelivr.net/npm/shaka-player";
     State.currentSrc := None;
     State.qualities := SimpleHost.empty;
     State.hostListeners := [];
     State.dropped := None |}.

(** The state once [setup] has run. *)
Definition ready : State.t SimpleHost.t :=
  Eval vm_compute in (ShakaProvider.setup env fresh).1.

Definition trigger : DOMEvent.t := DOMEvent.mk "shaka-loaded" NullDetail.
End Sample.

(** ** Projections of a trace *)

Definition added_qualities (t : Trace) : list VideoQuality.t :=
  omap (λ a, match a with QualitiesAdd q _ => Some q | _ => None end) t.

Definition added_audio (t : Trace) : list AudioTrack.t :=
  omap (λ a, match a with AudioTracksAdd x _ => Some x | _ => None end) t.

Definition added_text (t : Trace) : list TextTrack.t :=
  omap (λ a, match a with TextTracksAdd x _ _ => Some x | _ => None end) t.

Definition player_dispatches (t : Trace) : list DOMEvent.t :=
  omap (λ a, match a with PlayerDispatch ev => Some ev | _ => None end) t.

(** The calls into the Shaka instance. *)
Definition is_library_call (a : Action) : bool :=
  match a with
  | Construct _ | AddEventListener _ _ | Configure _ | GetNetworkingEngine
  | RegisterRequestFilter _ _ | RegisterResponseFilter _ _ | GetVariantTracks
  | GetAudioLanguagesAndRoles | GetTextTracks | IsLive | SeekRange
  | SelectVariantTrack _ _ | SelectAudioLanguage _ _ | SelectTextTrack _
  | SetTextTrackVisibility _ | Load _ | Destroy
  | Await (Load _) | Await Destroy => true
  | _ => false
  end.

Definition library_calls (t : Trace) : Trace :=
  filter (λ a, is_library_call a = true) t.

(** [all_before P Q t]: in [t], every action satisfying [P] comes strictly
    before every action satisfying [Q]. *)
Definition all_before (P Q : Action → bool) (t : Trace) : Prop :=
  ∀ i j a b, t !! i = Some a → t !! j = Some b → P a = true → Q b = true → i < j.

(** The instance callbacks that were called, each with the instance (named
    by its constructor) it was given. *)
Definition invoked (t : Trace) : list (ShakaInstanceCallback * ShakaConstructor) :=
  omap (λ a, match a with InvokeCallback cb ctor => Some (cb, ctor) | _ => None end) t.

(** The steps of the life cycle, as predicates on actions. *)

Definition is_library_loaded (a : Action) : bool :=
  match a with
  | PlayerDispatch ev => String.eqb (DOMEvent.type ev) "shaka-lib-loaded"
  | _ => false
  end.

Definition is_construct (a : Action) : bool :=
  match a with Construct _ => true | _ => false end.

Definition is_listen (a : Action) : bool :=
  match a with AddEventListener _ _ => true | _ => false end.

(** The listeners that forward the library's events and errors to the host
    (the first group that [setup] attaches) and those that keep the host's
    tracks and state in step (the second group). *)
Definition is_forwarding (h : Handler) : bool :=
  match h with H_dispatchShakaEvent | H_onError => true | _ => false end.

Definition is_forwarding_listen (a : Action) : bool :=
  match a with AddEventListener _ h => is_forwarding h | _ => false end.

Definition is_tracking_listen (a : Action) : bool :=
  match a with AddEventListener _ h => negb (is_forwarding h) | _ => false end.

Definition is_configure (a : Action) : bool :=
  match a with Configure _ => true | _ => false end.

Definition is_register (a : Action) : bool :=
  match a with
  | RegisterRequestFilter _ _ | RegisterResponseFilter _ _ => true
  | _ => false
  end.

Definition is_load (a : Action) : bool :=
  match a with Await (Load _) | Load _ => true | _ => false end.

(** The position of an action in the life cycle; [None] for the actions
    that are not steps of it. *)
Definition phase (a : Action) : option nat :=
  if is_library_loaded a then Some 0
  else if is_construct a then Some 1
  else if is_forwarding_listen a then Some 2
  else if is_configure a then Some 3
  else if is_register a then Some 4
  else if is_tracking_listen a then Some 5
  else if is_load a then Some 6
  else None.

Definition phases (t : Trace) : list nat := omap phase t.

(** The steps of [t] follow the life cycle and lie between [lo] and [hi]. *)
Definition phases_within (lo hi : nat) (t : Trace) : Prop :=
  StronglySorted le (phases t) ∧ Forall (λ n, lo ≤ n ≤ hi) (phases t).

(** The asynchronous calls of the library and of the script loader. *)
Definition is_external_async (call : Action) : bool :=
  match call with
  | LoadScript _ | CallLoader _ | Load _ | Destroy => true
  | _ => false
  end.

Definition starts_loop (a : Action) : bool :=
  match a with RafStart _ => true | _ => false end.

Definition is_loop_action (a : Action) : bool :=
  match a with RafStart _ | RafStop => true | _ => false end.

(** [one_loop running t]: from a state in which a loop is [running] or not,
    the trace [t] never starts a loop while one is running and never stops
    one when none is. *)
Fixpoint one_loop (running : bool) (t : Trace) : bool :=
  match t with
  | [] => true
  | RafStart _ :: t' => negb running && one_loop true t'
  | RafStop :: t' => running && one_loop false t'
  | _ :: t' => one_loop running t'
  end.

(** Whether a loop is running after [t]. *)
Fixpoint running_after (running : bool) (t : Trace) : bool :=
  match t with
  | [] => running
  | RafStart _ :: t' => running_after true t'
  | RafStop :: t' => running_after false t'
  | _ :: t' => running_after running t'
  end.

(** The host's [$state.live] changes, once for each environment of [es] in
    turn: the effect over [#liveSync] runs again each time. *)
Fixpoint live_changes {L : Type} `{!Host L} (es : list Env.t) (s : State.t L)
    : State.t L * Trace :=
  match es with
  | [] => (s, [])
  | e :: es' =>
      let '(s1, t1) := ShakaController.liveSync_rerun e s in
      let '(s2, t2) := live_changes es' s1 in
      (s2, t1 ++ t2)
  end.

(** The notifications and selections in a trace. *)
Definition notifications (t : Trace) : list (string * Payload) :=
  omap (λ a, match a with Notify type payload _ => Some (type, payload) | _ => None end) t.

Definition selected_qualities (t : Trace) : list VideoQuality.t :=
  omap (λ a, match a with QualitiesSelect q _ => Some q | _ => None end) t.

(** What the adapter's listeners on the host's lists do: they call the
    library, and on Chrome they set the current time again. *)
Definition is_user_action (a : Action) : bool :=
  match a with
  | Configure (Abr _) | GetVariantTracks | SelectVariantTrack _ _ | SetCurrentTime _
  | GetAudioLanguagesAndRoles | SelectAudioLanguage _ _ => true
  | _ => false
  end.

(** The actions of [#updateQualityTracks] and of a selection: reading the
    variant tracks, adding or selecting a quality, and what the listeners on
    the list do when the selection changes. *)
Definition is_quality_update (a : Action) : bool :=
  match a with
  | GetVariantTracks | QualitiesAdd _ _ | QualitiesSelect _ _ => true
  | _ => is_user_action a
  end.

(** The actions by which the track lists of the host are filled: reading the
    tracks from the library, adding an entry, selecting a quality, and what
    the listeners on the list do when the selection changes. *)
Definition is_list_update (a : Action) : bool :=
  match a with
  | GetVariantTracks | GetAudioLanguagesAndRoles | GetTextTracks
  | QualitiesAdd _ _ | QualitiesSelect _ _ | AudioTracksAdd _ _
  | TextTracksAdd _ _ _ => true
  | _ => is_user_action a
  end.

(** The constructor that the loader obtains from a library, if any: from a
    script that loads and leaves a valid [shaka.Player] on [window], from a
    namespace given directly, or from a dynamic import that resolves to a
    valid namespace. *)
Definition resolved_constructor (lib : ShakaLibrary) (e : Env.t)
    : option ShakaConstructor :=
  match lib with
  | LibUrl _ =>
      match Env.loadScript e, Env.window_shaka e with
      | None, Some shaka => ShakaNamespace.Player shaka
      | _, _ => None
      end
  | LibNamespace ctor _ => Some ctor
  | LibLoader _ =>
      match Env.loader e with
      | inr (Some ns) => ShakaNamespace.Player ns
      | _ => None
      end
  | LibUndefined => None
  end.

(** What the host is told when the environment lacks [MediaSource]. *)
Definition unsupported : Trace :=
  [PlayerDispatch (DOMEvent.mk "shaka-unsupported" NoDetail);
   Notify "error"
     (ErrorPayload
        (MediaError.mk "[vidstack] Shaka Player is not supported in this environment"
           4 NoCause))
     None].

(** What a user does with instance callbacks over time: [onInstance] with a
    callback, or a call of the function that [onInstance] returned for it. *)
Inductive CallbackOp :=
  | Subscribe (callback : ShakaInstanceCallback)
  | Unsubscribe (callback : ShakaInstanceCallback).

Definition callback_of (op : CallbackOp) : ShakaInstanceCallback :=
  match op with Subscribe callback | Unsubscribe callback => callback end.

Definition apply_op {L : Type} `{!Host L} (s : State.t L) (op : CallbackOp) : State.t L :=
  match op with
  | Subscribe callback => ShakaController.onInstance callback s
  | Unsubscribe callback => ShakaController.dispose callback s
  end.

Definition apply_ops {L : Type} `{!Host L} (s : State.t L) (ops : list CallbackOp)
    : State.t L :=
  foldl apply_op s ops.

(** Whether the last thing done with a callback was to subscribe it. *)
Definition subscribed (ops : list CallbackOp) (callback : ShakaInstanceCallback) : bool :=
  match last (filter (λ op, callback_of op = callback) ops) with
  | Some (Subscribe _) => true
  | _ => false
  end.

(** The installation of the library's polyfills, and whether the namespace
    that the loader obtains (see [resolved_constructor]) brings any. *)
Definition is_install (a : Action) : bool :=
  match a with InstallPolyfills => true | _ => false end.

Definition resolved_polyfill (lib : ShakaLibrary) (e : Env.t) : bool :=
  match lib with
  | LibUrl _ =>
      match Env.loadScript e, Env.window_shaka e with
      | None, Some shaka => ShakaNamespace.polyfill shaka
      | _, _ => false
      end
  | LibNamespace _ polyfill => polyfill
  | LibLoader _ =>
      match Env.loader e with
      | inr (Some ns) => ShakaNamespace.polyfill ns
      | _ => false
      end
  | LibUndefined => false
  end.

(** Finds the life-cycle step of an action that satisfies a step predicate. *)
Ltac phase_of_step :=
  let a := fresh "a" in
  let Ha := fresh "Ha" in
  intros a Ha; destruct a; cbn in Ha; try discriminate Ha;
  try match goal with h : Handler |- _ => destruct h end;
  try match goal with call : Action |- _ => destruct call end;
  cbn in Ha; try discriminate Ha;
  unfold phase; cbn; rewrite ?Ha;
  eexists; (split; [reflexivity | lia]).

(** ** Facts about the JavaScript primitives *)

Section MapFacts.
Context {V : Type}.
Implicit Types (m : Js.Map V) (k : string) (v : V).

Lemma get_Some_elem m k v : Js.get k m = Some v → (k, v) ∈ m.
Proof.
  induction m as [|[k' v'] m IH]; simpl; [done|].
  destruct (decide (k = k')) as [->|Hne].
  - intros [= ->]. left.
  - intros Hg. right. auto.
Qed.

Lemma get_None_keys m k : Js.get k m = None ↔ k ∉ m.*1.
Proof.
  induction m as [|[k' v'] m IH]; simpl.
  - split; [intros _; apply not_elem_of_nil | done].
  - rewrite not_elem_of_cons. destruct (decide (k = k')) as [->|Hne].
    + split; [done | intros [? _]; done].
    + rewrite IH. tauto.
Qed.

Lemma elem_get m k v : NoDup m.*1 → (k, v) ∈ m → Js.get k m = Some v.
Proof.
  induction m as [|[k' v'] m IH]; simpl; intros Hnd Hin.
  - by apply elem_of_nil in Hin.
  - apply NoDup_cons in Hnd as [Hk' Hnd].
    apply elem_of_cons in Hin as [[= -> ->]|Hin].
    + by rewrite decide_True.
    + destruct (decide (k = k')) as [->|Hne]; [|by apply IH].
      exfalso. apply Hk'. apply list_elem_of_fmap. by exists (k', v).
Qed.

Lemma has_keys m k : Js.has k m = true ↔ k ∈ m.*1.
Proof.
  unfold Js.has. destruct (Js.get k m) as [v|] eqn:Hg.
  - split; [intros _ | done]. apply get_Some_elem in Hg.
    apply list_elem_of_fmap. by exists (k, v).
  - apply get_None_keys in Hg. split; [done | tauto].
Qed.

Lemma set_keys m k v :
  (Js.set k v m).*1 = if decide (k ∈ m.*1) then m.*1 else m.*1 ++ [k].
Proof.
  induction m as [|[k' v'] m IH].
  - destruct (decide (k ∈ ([] : Js.Map V).*1)) as [Hin|_]; [|done].
    by apply elem_of_nil in Hin.
  - cbn [Js.set]. destruct (decide (k = k')) as [->|Hne].
    + rewrite decide_True; [done | rewrite fmap_cons; left].
    + rewrite !fmap_cons, IH. cbn [fst].
      destruct (decide (k ∈ m.*1)) as [Hin|Hnin].
      * rewrite decide_True; [done | by right].
      * rewrite decide_False; [done|]. rewrite not_elem_of_cons. tauto.
Qed.

Lemma set_NoDup m k v : NoDup m.*1 → NoDup (Js.set k v m).*1.
Proof.
  intros Hnd. rewrite set_keys. destruct (decide (k ∈ m.*1)); [done|].
  apply NoDup_app. split_and!; [done | | apply NoDup_singleton].
  intros x Hx Hx'. apply list_elem_of_singleton in Hx' as ->. done.
Qed.

Lemma elem_set m k v k' v' :
  NoDup m.*1 →
  (k', v') ∈ Js.set k v m ↔ (k' = k ∧ v' = v) ∨ (k' ≠ k ∧ (k', v') ∈ m).
Proof.
  induction m as [|[k0 v0] m IH]; simpl; intros Hnd.
  - rewrite list_elem_of_singleton. split.
    + intros [= -> ->]. by left.
    + intros [[-> ->]|[_ Hin]]; [done | by apply elem_of_nil in Hin].
  - apply NoDup_cons in Hnd as [Hk0 Hnd].
    destruct (decide (k = k0)) as [->|Hne].
    + rewrite !elem_of_cons. split.
      * intros [[= -> ->]|Hin]; [by left|]. right. split; [|by right].
        intros ->. apply Hk0. apply list_elem_of_fmap. by exists (k0, v').
      * intros [[-> ->]|[Hne [[= -> ->]|Hin]]]; [by left | done | by right].
    + rewrite !elem_of_cons, IH by done. split.
      * intros [[= -> ->]|[[-> ->]|[Hne' Hin]]].
        -- right. split; [congruence | by left].
        -- by left.
        -- right. split; [done | by right].
      * intros [[-> ->]|[Hne' [[= -> ->]|Hin]]].
        -- right. by left.
        -- by left.
        -- right. right. done.
Qed.
End MapFacts.

Section SortFacts.
Context {A : Type} (cmp : A → A → Z).
Hypothesis cmp_total : ∀ a b, (cmp a b <= 0)%Z ∨ (cmp b a <= 0)%Z.
Hypothesis cmp_trans : ∀ a b c, (cmp a b <= 0)%Z → (cmp b c <= 0)%Z → (cmp a c <= 0)%Z.

Lemma insert_perm x l : Js.insert cmp x l ≡ₚ x :: l.
Proof.
  induction l as [|y l IH]; simpl; [done|].
  destruct (cmp x y <=? 0)%Z; [done|].
  rewrite IH. apply Permutation_swap.
Qed.

Lemma sort_perm l : Js.sort cmp l ≡ₚ l.
Proof.
  induction l as [|x l IH]; simpl; [done|].
  by rewrite insert_perm, IH.
Qed.

Lemma insert_sorted x l :
  StronglySorted (λ a b, (cmp a b <= 0)%Z) l →
  StronglySorted (λ a b, (cmp a b <= 0)%Z) (Js.insert cmp x l).
Proof.
  induction l as [|y l IH]; simpl; intros Hs.
  - repeat constructor.
  - apply StronglySorted_cons in Hs as [Hy Hs].
    destruct (cmp x y <=? 0)%Z eqn:Hc.
    + apply Z.leb_le in Hc. apply StronglySorted_cons. split.
      * constructor; [done|]. eapply Forall_impl; [exact Hy|].
        intros z Hz. by eapply cmp_trans.
      * by apply StronglySorted_cons.
    + apply Z.leb_gt in Hc. apply StronglySorted_cons. split; [|by apply IH].
      rewrite insert_perm. constructor; [|done].
      destruct (cmp_total x y); [lia | done].
Qed.

Lemma sort_sorted l : StronglySorted (λ a b, (cmp a b <= 0)%Z) (Js.sort cmp l).
Proof.
  induction l as [|x l IH]; simpl; [constructor | by apply insert_sorted].
Qed.
End SortFacts.

Lemma find_Some_elem {A} (p : A → bool) l x :
  Js.find p l = Some x → x ∈ l ∧ p x = true.
Proof.
  induction l as [|y l IH]; simpl; [done|].
  destruct (p y) eqn:Hp.
  - intros [= ->]. split; [left | done].
  - intros Hf. destruct (IH Hf). split; [by right | done].
Qed.

Lemma find_first {A} (p : A → bool) l1 x l2 :
  p x = true → (∀ y, y ∈ l1 → p y = false) → Js.find p (l1 ++ x :: l2) = Some x.
Proof.
  intros Hx. induction l1 as [|y l1 IH]; simpl; intros Hl1.
  - by rewrite Hx.
  - rewrite (Hl1 y) by left. apply IH. intros z Hz. apply Hl1. by right.
Qed.

Lemma find_None {A} (p : A → bool) l :
  (∀ y, y ∈ l → p y = false) → Js.find p l = None.
Proof.
  induction l as [|y l IH]; simpl; intros Hl; [done|].
  rewrite (Hl y) by left. apply IH. intros z Hz. apply Hl. by right.
Qed.

(** ** The quality projection *)

Section QualityFacts.
Import ShakaController.
Implicit Types (t : ShakaVariantTrack.t) (l : list ShakaVariantTrack.t)
               (m : Js.Map ShakaVariantTrack.t).

Local Abbreviation key_of t := (Js.template_num (ShakaVariantTrack.height t)).
Local Abbreviation height_of t :=
  (Js.or_else Js.truthy_num (ShakaVariantTrack.height t) 0%Z).
Local Abbreviation bandwidth := ShakaVariantTrack.bandwidth.

Lemma has_resolution_height t :
  has_resolution t = true →
  ∃ h, ShakaVariantTrack.height t = Some h ∧ h ≠ 0%Z
       ∧ height_of t = h ∧ key_of t = pretty h.
Proof.
  unfold has_resolution. intros [Hh _]%andb_prop.
  destruct (ShakaVariantTrack.height t) as [h|]; simpl in *; [|done].
  unfold Js.truthy_num in *. exists h.
  destruct (Z.eqb_spec h 0); simpl in *; done.
Qed.

Lemma has_resolution_width t :
  has_resolution t = true →
  ∃ w, ShakaVariantTrack.width t = Some w ∧ w ≠ 0%Z
       ∧ Js.or_else Js.truthy_num (ShakaVariantTrack.width t) 0%Z = w.
Proof.
  unfold has_resolution. intros [_ Hw]%andb_prop.
  destruct (ShakaVariantTrack.width t) as [w|]; simpl in *; [|done].
  unfold Js.truthy_num in *. exists w.
  destruct (Z.eqb_spec w 0); simpl in *; done.
Qed.

(** The guard [track.height && track.width], on the fields. *)
Lemma has_resolution_fields t :
  has_resolution t = true
  ↔ (∃ h, ShakaVariantTrack.height t = Some h ∧ h ≠ 0%Z)
    ∧ (∃ w, ShakaVariantTrack.width t = Some w ∧ w ≠ 0%Z).
Proof.
  split.
  - intros Hres. split.
    + destruct (has_resolution_height t Hres) as (h & ? & ? & _). eauto.
    + destruct (has_resolution_width t Hres) as (w & ? & ? & _). eauto.
  - intros [(h & Hh & Hh0) (w & Hw & Hw0)]. unfold has_resolution.
    rewrite Hh, Hw. cbn. unfold Js.truthy_num.
    by destruct (Z.eqb_spec h 0), (Z.eqb_spec w 0).
Qed.

Lemma key_of_height t t' :
  has_resolution t = true → has_resolution t' = true →
  key_of t = key_of t' ↔ ShakaVariantTrack.height t = ShakaVariantTrack.height t'.
Proof.
  intros (h & Hh & _ & _ & Hk)%has_resolution_height
         (h' & Hh' & _ & _ & Hk')%has_resolution_height.
  rewrite Hk, Hk', Hh, Hh'. split; [|congruence].
  intros Heq. f_equal. by apply (inj pretty).
Qed.

(** What the grouping loop maintains: after the tracks [l], the map [m]
    holds one entry per key, each entry is a track of [l] of greatest
    bandwidth among those with its key, and every track of [l] with a
    resolution has its key in the map. *)
Local Abbreviation grouped l m :=
  (NoDup m.*1
   ∧ (∀ k t, (k, t) ∈ m →
        t ∈ l ∧ has_resolution t = true ∧ k = key_of t
        ∧ ∀ t', t' ∈ l → has_resolution t' = true → key_of t' = k →
                (bandwidth t' <= bandwidth t)%Z)
   ∧ (∀ t, t ∈ l → has_resolution t = true → key_of t ∈ m.*1)).

Lemma set_keys_mono m k t k' : k' ∈ m.*1 → k' ∈ (Js.set k t m).*1.
Proof.
  rewrite set_keys. destruct (decide (k ∈ m.*1)); [done|].
  intros ?. apply elem_of_app. by left.
Qed.

Lemma set_keys_new m k t : k ∈ (Js.set k t m).*1.
Proof.
  rewrite set_keys. destruct (decide (k ∈ m.*1)); [done|].
  apply elem_of_app. right. left.
Qed.

Lemma group_by_resolution_grouped l m t :
  grouped l m → grouped (l ++ [t]) (group_by_resolution m t).
Proof.
  intros (Hnd & Hsound & Hcomplete). unfold group_by_resolution.
  destruct (has_resolution t) eqn:Hres.
  - destruct (Js.get (key_of t) m) as [t0|] eqn:Hget.
    + assert (Js.has (key_of t) m = true) as ->
        by (unfold Js.has; by rewrite Hget).
      simpl. destruct (Z.ltb_spec (bandwidth t0) (bandwidth t)) as [Hlt|Hge].
      * destruct (Hsound _ _ (get_Some_elem _ _ _ Hget)) as (_ & _ & _ & Hmax0).
        split_and!.
        -- by apply set_NoDup.
        -- intros k t1 Hin. apply elem_set in Hin; [|done].
           destruct Hin as [[-> ->]|[Hne Hin]].
           ++ split_and!; [apply elem_of_app; right; left | done | done |].
              intros t' [Hin'| ->%list_elem_of_singleton]%elem_of_app Hres' Hk';
                [|lia].
              specialize (Hmax0 t' Hin' Hres' Hk'). lia.
           ++ destruct (Hsound _ _ Hin) as (Hin1 & Hres1 & Hk1 & Hmax1).
              split_and!; [apply elem_of_app; by left | done | done |].
              intros t' [Hin'| ->%list_elem_of_singleton]%elem_of_app Hres' Hk';
                [by apply Hmax1 | congruence].
        -- intros t' [Hin'| ->%list_elem_of_singleton]%elem_of_app Hres'.
           ++ apply set_keys_mono. by apply Hcomplete.
           ++ apply set_keys_new.
      * split_and!; [done | |].
        -- intros k t1 Hin.
           destruct (Hsound _ _ Hin) as (Hin1 & Hres1 & Hk1 & Hmax1).
           split_and!; [apply elem_of_app; by left | done | done |].
           intros t' [Hin'| ->%list_elem_of_singleton]%elem_of_app Hres' Hk';
             [by apply Hmax1|].
           subst k. rewrite <- Hk' in Hin.
           apply (elem_get _ _ _ Hnd) in Hin. rewrite Hget in Hin.
           injection Hin as ->. lia.
        -- intros t' [Hin'| ->%list_elem_of_singleton]%elem_of_app Hres';
             [by apply Hcomplete|].
           apply get_Some_elem in Hget. apply list_elem_of_fmap.
           by exists (key_of t, t0).
    + assert (Js.has (key_of t) m = false) as ->
        by (unfold Js.has; by rewrite Hget).
      simpl. apply get_None_keys in Hget. split_and!.
      * by apply set_NoDup.
      * intros k t1 Hin. apply elem_set in Hin; [|done].
           destruct Hin as [[-> ->]|[Hne Hin]].
        -- split_and!; [apply elem_of_app; right; left | done | done |].
           intros t' [Hin'| ->%list_elem_of_singleton]%elem_of_app Hres' Hk';
             [|lia].
           exfalso. apply Hget. rewrite <- Hk'. by apply Hcomplete.
        -- destruct (Hsound _ _ Hin) as (Hin1 & Hres1 & Hk1 & Hmax1).
           split_and!; [apply elem_of_app; by left | done | done |].
           intros t' [Hin'| ->%list_elem_of_singleton]%elem_of_app Hres' Hk';
             [by apply Hmax1 | congruence].
      * intros t' [Hin'| ->%list_elem_of_singleton]%elem_of_app Hres'.
        -- apply set_keys_mono. by apply Hcomplete.
        -- apply set_keys_new.
  - split_and!; [done | |].
    + intros k t1 Hin.
      destruct (Hsound _ _ Hin) as (Hin1 & Hres1 & Hk1 & Hmax1).
      split_and!; [apply elem_of_app; by left | done | done |].
      intros t' [Hin'| ->%list_elem_of_singleton]%elem_of_app Hres' Hk';
        [by apply Hmax1 | congruence].
    + intros t' [Hin'| ->%list_elem_of_singleton]%elem_of_app Hres';
        [by apply Hcomplete | congruence].
Qed.

Lemma uniqueQualities_grouped l : grouped l (uniqueQualities l).
Proof.
  induction l as [|t l IH] using rev_ind.
  - split_and!; [constructor | |].
    + intros k t Hin. by apply elem_of_nil in Hin.
    + intros t Hin. by apply elem_of_nil in Hin.
  - unfold uniqueQualities. rewrite foldl_app. simpl.
    by apply group_by_resolution_grouped.
Qed.
End QualityFacts.

(** ** Facts about lists and traces *)

Lemma omap_fmap_Some {A B C} (f : B → option C) (g : A → B) (h : A → C)
    (l : list A) :
  (∀ x, f (g x) = Some (h x)) → omap f (g <$> l) = h <$> l.
Proof.
  intros Hfg. induction l as [|x l IH]; [done|].
  csimpl. rewrite Hfg. by f_equal.
Qed.

Lemma omap_None {A B} (f : A → option B) (l : list A) :
  (∀ x, x ∈ l → f x = None) → omap f l = [].
Proof.
  induction l as [|x l IH]; intros Hl; [done|].
  csimpl. rewrite (Hl x) by left. apply IH. intros y Hy. apply Hl. by right.
Qed.

Lemma StronglySorted_imap {A B} (R1 : relation A) (R2 : relation B)
    (f : nat → A → B) l :
  (∀ i j x y, R1 x y → R2 (f i x) (f j y)) →
  StronglySorted R1 l → StronglySorted R2 (imap f l).
Proof.
  intros Hf Hs. revert f Hf.
  induction Hs as [|x l Hs IH Hx]; intros f Hf; simpl; constructor.
  - apply IH. intros i j. apply Hf.
  - apply Forall_forall. intros y (i & z & -> & Hz)%elem_of_lookup_imap_1.
    apply Hf. rewrite Forall_forall in Hx. apply Hx.
    by eapply list_elem_of_lookup_2.
Qed.

Lemma StronglySorted_mono {A} (R1 R2 : relation A) l :
  (∀ x y, R1 x y → R2 x y) → StronglySorted R1 l → StronglySorted R2 l.
Proof.
  intros HR. induction 1 as [|x l Hs IH Hx]; constructor; [done|].
  eapply Forall_impl; [exact Hx | apply HR].
Qed.

Lemma StronglySorted_strict {A} (f : A → Z) l :
  StronglySorted (λ a b, (f b <= f a)%Z) l →
  NoDup (f <$> l) →
  StronglySorted (λ a b, (f b < f a)%Z) l.
Proof.
  induction 1 as [|x l Hs IH Hx]; intros Hnd; constructor.
  - apply IH. by apply NoDup_cons in Hnd as [_ ?].
  - rewrite fmap_cons in Hnd. apply NoDup_cons in Hnd as [Hnin _].
    rewrite Forall_forall in Hx |- *. intros y Hy.
    specialize (Hx y Hy).
    assert (f y ≠ f x); [|lia].
    intros Heq. apply Hnin. rewrite <- Heq. apply list_elem_of_fmap. by exists y.
Qed.

Lemma keys_of_values {V} (m : Js.Map V) (f : V → string) :
  (∀ p, p ∈ m → p.1 = f p.2) → m.*1 = f <$> m.*2.
Proof.
  induction m as [|p m IH]; intros Hall; [done|].
  rewrite !fmap_cons. f_equal.
  - apply Hall. left.
  - apply IH. intros q Hq. apply Hall. by right.
Qed.

(** ** What the listeners on the host's lists do *)

Section HostEvents.
Import ShakaController.
Context {L : Type} `{!Host L}.
Implicit Types (e : Env.t) (s : State.t L).

Lemma onUserQualityChange_actions e s :
  Forall (λ a, is_user_action a = true) (onUserQualityChange e s).
Proof.
  unfold onUserQualityChange. cbv zeta.
  destruct (State.instance s); [|constructor].
  destruct (auto (State.qualities s)); [constructor|].
  destruct (selected (State.qualities s)); [|constructor].
  case_match; destruct (Env.IS_CHROME e); by repeat constructor.
Qed.

Lemma onUserAudioChange_actions e s :
  Forall (λ a, is_user_action a = true) (onUserAudioChange e s).
Proof.
  unfold onUserAudioChange. cbv zeta.
  destruct (State.instance s); [|constructor].
  destruct (Env.audio_selected e); [|constructor].
  repeat case_match; by repeat constructor.
Qed.

Lemma fire_change_actions target e s :
  Forall (λ a, is_user_action a = true) (fire_change target e s).
Proof.
  unfold fire_change.
  induction (filter _ (State.hostListeners s)) as [|[[tg type] h] l IH]; [constructor|].
  rewrite fmap_cons. cbn [concat]. apply Forall_app. split; [|done].
  destruct h; try constructor.
  - apply onUserQualityChange_actions.
  - apply onUserAudioChange_actions.
Qed.

Lemma omap_user_actions {B} (f : Action → option B) (t : Trace) :
  (∀ a, is_user_action a = true → f a = None) →
  Forall (λ a, is_user_action a = true) t → omap f t = [].
Proof.
  intros Hf Ht. apply omap_None. intros a Ha.
  rewrite Forall_forall in Ht. by apply Hf, Ht.
Qed.

(** The trace of a selection: the call, followed by what the listeners on the
    quality list do. *)
Lemma select_quality_trace q trigger e s :
  ∃ t, (select_quality q trigger e s).2 = QualitiesSelect q trigger :: t
       ∧ Forall (λ a, is_user_action a = true) t
       ∧ (select_changes q (State.qualities s) = false → t = []).
Proof.
  unfold select_quality. cbn [snd].
  destruct (select_changes q (State.qualities s)).
  - eexists. split_and!; [reflexivity | apply fire_change_actions | done].
  - exists []. by split_and!.
Qed.

Lemma select_quality_state q trigger e s :
  (select_quality q trigger e s).1
  = State.with_qualities (list_select q (State.qualities s)) s.
Proof. done. Qed.

Lemma added_qualities_user (t : Trace) :
  Forall (λ a, is_user_action a = true) t → added_qualities t = [].
Proof. apply omap_user_actions. by intros []. Qed.

Lemma selected_qualities_user (t : Trace) :
  Forall (λ a, is_user_action a = true) t → selected_qualities t = [].
Proof. apply omap_user_actions. by intros []. Qed.

Lemma library_calls_app (t1 t2 : Trace) :
  library_calls (t1 ++ t2) = library_calls t1 ++ library_calls t2.
Proof. apply filter_app. Qed.

Lemma user_action_quality a : is_user_action a = true → is_quality_update a = true.
Proof. by destruct a. Qed.

Lemma quality_update_update a : is_quality_update a = true → is_list_update a = true.
Proof. by destruct a. Qed.

Lemma select_quality_actions q trigger e s :
  Forall (λ a, is_quality_update a = true) (select_quality q trigger e s).2.
Proof.
  destruct (select_quality_trace q trigger e s) as (t & -> & Ht & _).
  constructor; [done|]. eapply Forall_impl; [exact Ht|]. apply user_action_quality.
Qed.

Lemma select_quality_updates q trigger e s :
  Forall (λ a, is_list_update a = true) (select_quality q trigger e s).2.
Proof.
  eapply Forall_impl; [apply select_quality_actions|]. apply quality_update_update.
Qed.

Lemma updateQualityTracks_actions trigger e s :
  Forall (λ a, is_quality_update a = true) (updateQualityTracks trigger e s).2.
Proof.
  unfold updateQualityTracks. destruct (State.instance s); [|constructor].
  cbv zeta. case_match.
  - match goal with
    | |- context [select_quality ?q ?tr ?e ?s] =>
        pose proof (select_quality_actions q tr e s) as Hsel;
        destruct (select_quality q tr e s) as [s' t']
    end.
    cbn [snd] in *. rewrite !Forall_app, Forall_fmap. split_and!.
    + by repeat constructor.
    + by apply Forall_true.
    + done.
  - cbn [snd]. rewrite Forall_app, Forall_fmap. split.
    + by repeat constructor.
    + by apply Forall_true.
Qed.

Lemma omap_quality_updates {B} (f : Action → option B) (t : Trace) :
  (∀ a, is_quality_update a = true → f a = None) →
  Forall (λ a, is_quality_update a = true) t → omap f t = [].
Proof.
  intros Hf Ht. apply omap_None. rewrite Forall_forall in Ht. auto.
Qed.

Lemma updateQualityTracks_updates trigger e s :
  Forall (λ a, is_list_update a = true) (updateQualityTracks trigger e s).2.
Proof.
  eapply Forall_impl; [apply updateQualityTracks_actions|]. apply quality_update_update.
Qed.

Lemma updateAudioTracks_updates trigger e s :
  Forall (λ a, is_list_update a = true) (updateAudioTracks trigger e s).
Proof.
  unfold updateAudioTracks. case_match; [|constructor].
  apply Forall_app. split; [by repeat constructor|].
  apply Forall_forall. by intros a (i & x & -> & _)%elem_of_lookup_imap_1.
Qed.

Lemma updateTextTracks_updates trigger e s :
  Forall (λ a, is_list_update a = true) (updateTextTracks trigger e s).
Proof.
  unfold updateTextTracks. case_match; [|constructor].
  apply Forall_app. split; [by repeat constructor|].
  rewrite Forall_fmap. by apply Forall_true.
Qed.

Lemma omap_updates {B} (f : Action → option B) (t : Trace) :
  (∀ a, is_list_update a = true → f a = None) →
  Forall (λ a, is_list_update a = true) t → omap f t = [].
Proof.
  intros Hf Ht. apply omap_None. rewrite Forall_forall in Ht. auto.
Qed.

Lemma notifications_updates (t : Trace) :
  Forall (λ a, is_list_update a = true) t → notifications t = [].
Proof.
  apply omap_updates. intros [] Hupd; first [done | simpl in Hupd; discriminate Hupd].
Qed.

Lemma player_dispatches_updates (t : Trace) :
  Forall (λ a, is_list_update a = true) t → player_dispatches t = [].
Proof.
  apply omap_updates. intros [] Hupd; first [done | simpl in Hupd; discriminate Hupd].
Qed.
End HostEvents.

Section QualityProjection.
Import ShakaController.
Context {L : Type} `{!Host L}.
Implicit Types (t : ShakaVariantTrack.t) (l : list ShakaVariantTrack.t).

Local Abbreviation height_of t :=
  (Js.or_else Js.truthy_num (ShakaVariantTrack.height t) 0%Z).

Lemma sortedQualities_elem l t :
  t ∈ sortedQualities l ↔ ∃ k, (k, t) ∈ uniqueQualities l.
Proof.
  unfold sortedQualities, Js.values. rewrite sort_perm, list_elem_of_fmap.
  split.
  - intros ([k t'] & -> & Hin). by exists k.
  - intros (k & Hin). by exists (k, t).
Qed.

Lemma sortedQualities_sound l t :
  t ∈ sortedQualities l →
  t ∈ l ∧ has_resolution t = true
  ∧ ∀ t', t' ∈ l → has_resolution t' = true →
          ShakaVariantTrack.height t' = ShakaVariantTrack.height t →
          (ShakaVariantTrack.bandwidth t' <= ShakaVariantTrack.bandwidth t)%Z.
Proof.
  intros (k & Hin)%sortedQualities_elem.
  destruct (uniqueQualities_grouped l) as (_ & Hsound & _).
  destruct (Hsound _ _ Hin) as (Hl & Hres & -> & Hmax).
  split_and!; [done | done |].
  intros t' Hin' Hres' Hh. apply Hmax; [done | done |]. by apply key_of_height.
Qed.

Lemma sortedQualities_complete l t :
  t ∈ l → has_resolution t = true →
  ∃ t', t' ∈ sortedQualities l
        ∧ ShakaVariantTrack.height t' = ShakaVariantTrack.height t.
Proof.
  intros Hin Hres.
  destruct (uniqueQualities_grouped l) as (_ & Hsound & Hcomplete).
  specialize (Hcomplete t Hin Hres).
  apply list_elem_of_fmap in Hcomplete as ([k t'] & Hk & Hin'). simpl in Hk.
  exists t'. split; [apply sortedQualities_elem; by exists k|].
  destruct (Hsound _ _ Hin') as (_ & Hres' & Hk' & _).
  apply key_of_height; [done | done | congruence].
Qed.

Lemma sortedQualities_NoDup l : NoDup ((λ t, height_of t) <$> sortedQualities l).
Proof.
  unfold sortedQualities, Js.values. rewrite sort_perm.
  destruct (uniqueQualities_grouped l) as (Hnd & Hsound & _).
  assert ((uniqueQualities l).*1
          = pretty <$> ((λ t, height_of t) <$> (uniqueQualities l).*2)) as Hkeys.
  { rewrite <- list_fmap_compose. apply keys_of_values.
    intros [k t] Hin. destruct (Hsound _ _ Hin) as (_ & Hres & -> & _).
    apply has_resolution_height in Hres as (h & _ & _ & Hh & Hk).
    simpl. by rewrite Hh, Hk. }
  rewrite Hkeys in Hnd.
  by apply NoDup_fmap_1 in Hnd.
Qed.

Lemma sortedQualities_sorted l :
  StronglySorted (λ a b, (height_of b < height_of a)%Z) (sortedQualities l).
Proof.
  apply (StronglySorted_strict (λ t, height_of t)); [|apply sortedQualities_NoDup].
  unfold sortedQualities.
  eapply StronglySorted_mono; [|apply (sort_sorted by_height_descending)].
  - unfold by_height_descending. intros a b. simpl. lia.
  - unfold by_height_descending. intros a b. lia.
  - unfold by_height_descending. intros a b c. lia.
Qed.

Lemma added_qualities_update trigger e (s : State.t L) :
  is_Some (State.instance s) →
  added_qualities (updateQualityTracks trigger e s).2
  = imap quality_of (sortedQualities (Env.getVariantTracks e)).
Proof.
  intros [i Hi]. unfold updateQualityTracks. rewrite Hi.
  set (added := imap quality_of _).
  assert (added_qualities ((λ q, QualitiesAdd q trigger) <$> added) = added) as Hadd.
  { unfold added_qualities. rewrite (omap_fmap_Some _ _ (λ q, q)) by done.
    apply list_fmap_id. }
  case_match.
  - destruct (select_quality_trace t trigger e
                (State.with_qualities
                   (foldl (λ acc q, list_add q acc) (State.qualities s) added) s))
      as (tchange & Htrace & Hchange & _).
    destruct (select_quality _ _ _ _) as [s' tsel]. cbn [snd] in *. subst tsel.
    unfold added_qualities in *. rewrite !omap_app, Hadd. cbn [omap list_omap].
    fold (added_qualities tchange). by rewrite added_qualities_user, app_nil_r.
  - cbn [snd]. unfold added_qualities in *. rewrite omap_app. by rewrite Hadd.
Qed.
End QualityProjection.

(** ** Properties of the quality list *)

(** C1. For every list of variant tracks that the Shaka instance returns,
    the qualities that [#updateQualityTracks] adds to the host's list hold
    exactly one entry per distinct height found among the tracks that have
    both a height and a width (present and not zero): every such height has
    its entry, and every entry has such a height; each entry is made from a
    track of that height with a width, and carries its bandwidth, which is
    the highest among the tracks of that height with a width; the entries
    are in strictly descending order of height; and the [index] of each
    entry is its position in that order. *)
Theorem updateQualityTracks_projection {L : Type} `{!Host L}
    (trigger : DOMEvent.t) (e : Env.t) (s : State.t L) :
  is_Some (State.instance s) →
  let tracks := Env.getVariantTracks e in
  let qs := added_qualities (ShakaController.updateQualityTracks trigger e s).2 in
  let counted (t : ShakaVariantTrack.t) (h : Z) :=
    ShakaVariantTrack.height t = Some h ∧ h ≠ 0%Z
    ∧ ∃ w, ShakaVariantTrack.width t = Some w ∧ w ≠ 0%Z in
  (∀ h, h ∈ VideoQuality.height <$> qs ↔ ∃ t, t ∈ tracks ∧ counted t h)
  ∧ NoDup (VideoQuality.height <$> qs)
  ∧ (∀ q, q ∈ qs →
       ∃ t, t ∈ tracks ∧ counted t (VideoQuality.height q)
            ∧ q = ShakaController.quality_of (VideoQuality.index q) t
            ∧ VideoQuality.bitrate q = ShakaVariantTrack.bandwidth t
            ∧ ∀ t', t' ∈ tracks → counted t' (VideoQuality.height q) →
                    (ShakaVariantTrack.bandwidth t' <= ShakaVariantTrack.bandwidth t)%Z)
  ∧ StronglySorted (λ a b, (VideoQuality.height b < VideoQuality.height a)%Z) qs
  ∧ (∀ i q, qs !! i = Some q → VideoQuality.index q = i).
Proof.
  intros Hinst tracks qs counted. subst qs.
  rewrite added_qualities_update by done. fold tracks.
  assert (∀ t h, counted t h
                 ↔ ShakaController.has_resolution t = true
                   ∧ ShakaVariantTrack.height t = Some h) as Hcounted.
  { intros t h. subst counted. cbv beta. rewrite has_resolution_fields. split.
    - intros (Hh & Hh0 & Hw). split_and!; [by exists h | done | done].
    - intros [[(h' & Hh' & Hh0) Hw] Hh]. split_and!; [done | congruence | done]. }
  assert (VideoQuality.height <$> imap ShakaController.quality_of
                                    (ShakaController.sortedQualities tracks)
          = (λ t, Js.or_else Js.truthy_num (ShakaVariantTrack.height t) 0%Z)
              <$> ShakaController.sortedQualities tracks) as Hheights.
  { rewrite fmap_imap. rewrite <- imap_const. by apply imap_ext. }
  split_and!.
  - intros h. rewrite Hheights, list_elem_of_fmap. split.
    + intros (t & -> & Hin).
      destruct (sortedQualities_sound _ _ Hin) as (Hl & Hres & _).
      exists t. split; [done|]. apply Hcounted. split; [done|].
      apply has_resolution_height in Hres as (h & Hh & _ & Hh' & _).
      by rewrite Hh', Hh.
    + intros (t & Hin & [Hres Hh]%Hcounted).
      destruct (sortedQualities_complete _ _ Hin Hres) as (t' & Hin' & Hh').
      exists t'. split; [|done].
      destruct (sortedQualities_sound _ _ Hin') as (_ & Hres' & _).
      apply has_resolution_height in Hres' as (h' & Hh1 & _ & Hh2 & _).
      rewrite Hh2. congruence.
  - rewrite Hheights. apply sortedQualities_NoDup.
  - intros q (i & t & -> & Hlook)%elem_of_lookup_imap_1.
    apply list_elem_of_lookup_2 in Hlook.
    destruct (sortedQualities_sound _ _ Hlook) as (Hl & Hres & Hmax).
    assert (ShakaVariantTrack.height t
            = Some (VideoQuality.height (ShakaController.quality_of i t))) as Hh.
    { apply has_resolution_height in Hres as (h & Hh & _ & Hh' & _).
      cbn [ShakaController.quality_of VideoQuality.height]. by rewrite Hh', Hh. }
    exists t. split_and!; [done | by apply Hcounted | done | |].
    + cbn [ShakaController.quality_of VideoQuality.bitrate]. unfold Js.or_else, Js.truthy_num.
      by destruct (Z.eqb_spec (ShakaVariantTrack.bandwidth t) 0).
    + intros t' Hin' [Hres' Hh']%Hcounted. apply Hmax; [done | done | congruence].
  - eapply StronglySorted_imap; [|apply sortedQualities_sorted].
    intros i j x y Hxy. exact Hxy.
  - intros i q (t & Hlook & ->)%list_lookup_imap_Some. done.
Qed.

Example sample_qualities :
  added_qualities
    (ShakaController.updateQualityTracks Sample.trigger Sample.env Sample.ready).2
  = [ VideoQuality.mk "shaka-quality-6" 1920 1080 10 "avc1.64001f" 0;
      VideoQuality.mk "shaka-quality-3" 1280 720 900 "avc1.64001f" 1;
      VideoQuality.mk "shaka-quality-1" 640 360 100 "avc1.64001f" 2 ].
Proof. vm_compute. reflexivity. Qed.

(** In the sample, the heights 720 and 1080 have an entry because the
    library lists a variant with that height and a width; the entry of
    height 720 has the bandwidth 900, the highest of the three variants of
    that height. *)
Lemma updateQualityTracks_projection_witness :
  let qs := added_qualities
              (ShakaController.updateQualityTracks Sample.trigger Sample.env Sample.ready).2 in
  (720%Z ∈ VideoQuality.height <$> qs)
  ∧ (1080%Z ∈ VideoQuality.height <$> qs)
  ∧ (∀ q, q ∈ qs → VideoQuality.height q = 720%Z → (900 <= VideoQuality.bitrate q)%Z)
  ∧ StronglySorted (λ a b, (VideoQuality.height b < VideoQuality.height a)%Z) qs
  ∧ (∀ i q, qs !! i = Some q → VideoQuality.index q = i).
Proof.
  assert (is_Some (State.instance Sample.ready)) as H by (eexists; reflexivity).
  destruct (updateQualityTracks_projection Sample.trigger Sample.env Sample.ready H)
    as (Hheights & _ & Hbest & Hsorted & Hindex).
  assert (Sample.variant 3 900 (Some 1280%Z) (Some 720%Z) false ∈ Sample.tracks) as H3
    by (do 2 right; left).
  assert (Sample.variant 6 10 (Some 1920%Z) (Some 1080%Z) false ∈ Sample.tracks) as H6
    by (do 5 right; left).
  split_and!.
  - apply Hheights. eexists. split; [exact H3|].
    split_and!; [reflexivity | discriminate | by eexists].
  - apply Hheights. eexists. split; [exact H6|].
    split_and!; [reflexivity | discriminate | by eexists].
  - intros q Hq Hh. destruct (Hbest q Hq) as (t & _ & _ & _ & -> & Hmax).
    apply (Hmax (Sample.variant 3 900 (Some 1280%Z) (Some 720%Z) false) H3).
    rewrite Hh. split_and!; [reflexivity | discriminate | by eexists].
  - exact Hsorted.
  - exact Hindex.
Defined.

(** ** Identifiers and fields of the projected tracks *)


Section TrackFacts.
Import ShakaController.
Context {L : Type} `{!Host L}.

Lemma added_audio_update trigger e (s : State.t L) :
  is_Some (State.instance s) →
  added_audio (updateAudioTracks trigger e s)
  = imap audio_of (Env.getAudioLanguagesAndRoles e).
Proof.
  intros [i Hi]. unfold updateAudioTracks, added_audio. rewrite Hi. simpl.
  generalize (Env.getAudioLanguagesAndRoles e). intros l.
  generalize audio_of. induction l as [|x l IH]; intros f; [done|].
  csimpl. f_equal. apply (IH (f ∘ S)).
Qed.

Lemma added_text_update trigger e (s : State.t L) :
  is_Some (State.instance s) →
  added_text (updateTextTracks trigger e s) = text_of <$> Env.getTextTracks e.
Proof.
  intros [i Hi]. unfold updateTextTracks, added_text. rewrite Hi. simpl.
  by apply omap_fmap_Some.
Qed.

End TrackFacts.




(** C5 (as amended). The projected tracks carry the library's fields over:
    a quality has the width, height and bandwidth of the variant track it
    is made from, and as codec its [videoCodec], or its [codecs] when
    [videoCodec] is absent or empty, or the empty string when both are;
    the audio track made from a language/role pair has its language, and
    its role as kind, or ['main'] when the role is empty; the text track
    made from a Shaka text track has its language, its kind, or
    ['subtitles'] when the kind is absent or empty, and its [primary] flag
    as default, or [false] when it is absent. *)
Theorem fields_carried_over {L : Type} `{!Host L}
    (trigger : DOMEvent.t) (e : Env.t) (s : State.t L) :
  is_Some (State.instance s) →
  let absent := λ x : option string, x = None ∨ x = Some "" in
  (∀ q, q ∈ added_qualities (ShakaController.updateQualityTracks trigger e s).2 →
     ∃ t, t ∈ Env.getVariantTracks e
       ∧ ShakaVariantTrack.width t = Some (VideoQuality.width q)
       ∧ ShakaVariantTrack.height t = Some (VideoQuality.height q)
       ∧ VideoQuality.bitrate q = ShakaVariantTrack.bandwidth t
       ∧ (∀ c, ShakaVariantTrack.videoCodec t = Some c → c ≠ "" →
               VideoQuality.codec q = c)
       ∧ (absent (ShakaVariantTrack.videoCodec t) →
          ∀ c, ShakaVariantTrack.codecs t = Some c → c ≠ "" → VideoQuality.codec q = c)
       ∧ (absent (ShakaVariantTrack.videoCodec t) →
          absent (ShakaVariantTrack.codecs t) → VideoQuality.codec q = ""))
  ∧ (∀ i langRole, Env.getAudioLanguagesAndRoles e !! i = Some langRole →
       ∃ a, added_audio (ShakaController.updateAudioTracks trigger e s) !! i = Some a
         ∧ AudioTrack.language a = ShakaLanguageRole.language langRole
         ∧ (ShakaLanguageRole.role langRole ≠ "" →
            AudioTrack.kind a = ShakaLanguageRole.role langRole)
         ∧ (ShakaLanguageRole.role langRole = "" → AudioTrack.kind a = "main"))
  ∧ (∀ i shakaTrack, Env.getTextTracks e !! i = Some shakaTrack →
       ∃ x, added_text (ShakaController.updateTextTracks trigger e s) !! i = Some x
         ∧ TextTrack.language x = ShakaTextTrack.language shakaTrack
         ∧ (∀ k, ShakaTextTrack.kind shakaTrack = Some k → k ≠ "" → TextTrack.kind x = k)
         ∧ (absent (ShakaTextTrack.kind shakaTrack) → TextTrack.kind x = "subtitles")
         ∧ (∀ b, ShakaTextTrack.primary shakaTrack = Some b → TextTrack.default x = b)
         ∧ (ShakaTextTrack.primary shakaTrack = None → TextTrack.default x = false)).
Proof.
  intros Hinst absent.
  assert (∀ x d, Js.or_else Js.truthy_str (Some x) d = if decide (x = "") then d else x)
    as Hstr.
  { intros x d. unfold Js.or_else, Js.truthy_str.
    destruct (String.eqb_spec x ""); by case_decide. }
  rewrite added_qualities_update, added_audio_update, added_text_update by done.
  split_and!.
  - intros q (i & t & -> & Hlook)%elem_of_lookup_imap_1.
    apply list_elem_of_lookup_2 in Hlook.
    destruct (sortedQualities_sound _ _ Hlook) as (Hin & Hres & _).
    destruct (has_resolution_height _ Hres) as (h & Hh & _ & Hh' & _).
    destruct (has_resolution_width _ Hres) as (w & Hw & _ & Hw').
    exists t. simpl. rewrite Hh', Hw'. split_and!; [done | done | done | | | |].
    + unfold Js.truthy_num. by destruct (Z.eqb_spec (ShakaVariantTrack.bandwidth t) 0).
    + intros c -> Hc. unfold Js.or_opt.
      assert (Js.truthy_str c = true) as ->
        by (unfold Js.truthy_str; by destruct (String.eqb_spec c "")).
      rewrite Hstr. by case_decide.
    + intros Hv c -> Hc.
      assert (Js.or_opt Js.truthy_str (ShakaVariantTrack.videoCodec t) (Some c) = Some c)
        as -> by (by destruct Hv as [-> | ->]).
      rewrite Hstr. by case_decide.
    + intros Hv Hc.
      assert (absent (Js.or_opt Js.truthy_str (ShakaVariantTrack.videoCodec t)
                        (ShakaVariantTrack.codecs t))) as [-> | ->]; [|done|done].
      by destruct Hv as [-> | ->].
  - intros i langRole Hlook. exists (ShakaController.audio_of i langRole).
    split; [by rewrite list_lookup_imap, Hlook|].
    unfold ShakaController.audio_of. cbn [AudioTrack.language AudioTrack.kind].
    rewrite !Hstr. split_and!.
    + by case_decide.
    + intros Hrole. by case_decide.
    + intros Hrole. by case_decide.
  - intros i shakaTrack Hlook. exists (ShakaController.text_of shakaTrack).
    split; [by rewrite list_lookup_fmap, Hlook|].
    unfold ShakaController.text_of.
    cbn [TextTrack.language TextTrack.kind TextTrack.default].
    rewrite Hstr. split_and!.
    + by case_decide.
    + intros k Hk Hne. rewrite Hk, Hstr. by case_decide.
    + intros [Hk | Hk]; by rewrite Hk.
    + intros b Hb. rewrite Hb. by destruct b.
    + intros Hb. by rewrite Hb.
Qed.

Lemma fields_carried_over_witness :
  ∃ a, added_audio
         (ShakaController.updateAudioTracks Sample.trigger Sample.env Sample.ready) !! 1
       = Some a
    ∧ AudioTrack.language a = "fr" ∧ AudioTrack.kind a = "commentary".
Proof.
  assert (is_Some (State.instance Sample.ready)) as H by (eexists; reflexivity).
  destruct (fields_carried_over Sample.trigger Sample.env Sample.ready H)
    as (_ & Haudio & _).
  destruct (Haudio 1 (ShakaLanguageRole.mk "fr" "commentary" (Some "Commentaire"))
              eq_refl) as (a & Ha & Hlang & Hkind & _).
  exists a. split_and!; [exact Ha | exact Hlang | apply Hkind; discriminate].
Defined.

(** C5, as the specification states it, fails: a language/role pair whose
    role is present but empty does not pass its role on; the audio track
    gets the kind ['main']. *)
Lemma empty_role_replaced :
  Env.getAudioLanguagesAndRoles Sample.env !! 0 = Some (ShakaLanguageRole.mk "en" "" None)
  ∧ ∃ a, added_audio
           (ShakaController.updateAudioTracks Sample.trigger Sample.env Sample.ready) !! 0
         = Some a
      ∧ AudioTrack.kind a = "main"
      ∧ AudioTrack.kind a ≠ ShakaLanguageRole.role (ShakaLanguageRole.mk "en" "" None).
Proof.
  split; [reflexivity|]. eexists. split_and!; [vm_compute; reflexivity | done | done].
Qed.

(** ** Loading a source, awaited *)

Section Loading.
Context {L : Type} `{!Host L}.
Implicit Types (e : Env.t) (s : State.t L).

Lemma controller_loadSource_eq src e s :
  ShakaController.loadSource src e s
  = match Src.src src, State.instance s with
    | SrcString uri, Some _ =>
        [Await (Load uri)]
          ++ match Env.load e with
             | None => []
             | Some error =>
                 [Notify "error"
                    (ErrorPayload
                       {| MediaError.message :=
                            if Thrown.isError error then Thrown.message error
                            else "Failed to load source";
                          MediaError.code := 1;
                          MediaError.error := ThrownCause error |})
                    None]
             end
    | _, _ => []
    end.
Proof.
  unfold ShakaController.loadSource, ShakaController.loadSource_call,
    ShakaController.loadSource_settled.
  by destruct (Src.src src), (State.instance s).
Qed.

Lemma provider_loadSource_eq src preload e s :
  ShakaProvider.loadSource src preload e s
  = match Src.src src with
    | SrcString _ =>
        (State.with_currentSrc (Some src) s,
         [SetPreload (Js.or_else Js.truthy_str preload "");
          AppendSource src (Js.or_else Js.truthy_str (Src.type src) "application/dash+xml")]
           ++ ShakaController.loadSource src e s
           ++ [SetCurrentSrc src])
    | SrcObject _ => (s, [RemoveSource])
    end.
Proof.
  unfold ShakaProvider.loadSource, ShakaProvider.loadSource_resume,
    ShakaProvider.loadSource_begin, ShakaController.loadSource.
  destruct (Src.src src); [|by rewrite app_nil_r].
  cbn [fst snd]. by rewrite <- !app_assoc.
Qed.
End Loading.

(** ** Delivery of events after set-up *)

Section Delivery.
Import ShakaController.
Context {L : Type} `{!Host L}.
Implicit Types (e : Env.t) (s : State.t L).

(** The listeners that [setup] leaves on the instance, by event type. *)
Lemma setup_instance ctor e s :
  State.instance (setup ctor e s).1
  = Some (ShakaPlayer.mk ctor
            (((λ event, (event, H_dispatchShakaEvent)) <$> events)
               ++ [("error", H_onError)]
               ++ [ ("adaptation", H_onAdaptation); ("trackschanged", H_onTracksChanged);
                    ("loaded", H_onLoaded); ("buffering", H_onBuffering) ])).
Proof. unfold setup. by destruct (liveSync e). Qed.

Lemma setup_hostListeners ctor e s :
  State.hostListeners (setup ctor e s).1
  = State.hostListeners s
      ++ [ (Qualities, "change", H_onUserQualityChange);
           (AudioTracks, "change", H_onUserAudioChange) ].
Proof. unfold setup. by destruct (liveSync e). Qed.

Lemma run_handlers_cons h hs event e s :
  run_handlers (h :: hs) event e s
  = ((run_handlers hs event e (run_handler h event e s).1).1,
     (run_handler h event e s).2
       ++ (run_handlers hs event e (run_handler h event e s).1).2).
Proof.
  cbn [run_handlers]. destruct (run_handler h event e s) as [s1 t1].
  cbn [fst snd]. by destruct (run_handlers hs event e s1).
Qed.

Lemma receive_error ctor e0 s0 e s event :
  State.instance s = State.instance (setup ctor e0 s0).1 →
  ShakaEvent.type event = "error" →
  receive event e s = (s, onError event).
Proof.
  intros Hinst Htype. unfold receive, player. rewrite Hinst, setup_instance.
  cbn [ShakaPlayer.listeners]. rewrite Htype.
  match goal with
  | |- context [ (filter ?P ?l).*2 ] =>
      let hs := fresh "hs" in
      set (hs := (filter P l).*2); vm_compute in hs; subst hs
  end.
  rewrite run_handlers_cons. cbn [run_handlers run_handler fst snd].
  by rewrite app_nil_r.
Qed.
End Delivery.

(** ** Errors *)

(** C2. An error of the Shaka library reaches the host's error channel
    unchanged and nothing else is done about it: an ['error'] event with a
    detail produces exactly one [notify('error', ...)] whose [error] member
    is that detail, and a rejected [instance.load] produces exactly one
    [notify('error', ...)] whose [error] member is the rejection value,
    after a single call of [load]: the load is not attempted again. *)
Theorem errors_forwarded {L : Type} `{!Host L}
    (ctor : ShakaConstructor) (e0 e : Env.t) (s0 s : State.t L) :
  State.instance s = State.instance (ShakaController.setup ctor e0 s0).1 →
  (∀ event error,
     ShakaEvent.type event = "error" → ShakaEvent.detail event = Some error →
     ∃ message,
       ShakaController.receive event e s
       = (s, [Notify "error"
                (ErrorPayload (MediaError.mk message 1 (ShakaCause error))) None]))
  ∧ (∀ src uri error,
       Src.src src = SrcString uri → Env.load e = Some error →
       ∃ message,
         ShakaController.loadSource src e s
         = [Await (Load uri);
            Notify "error"
              (ErrorPayload (MediaError.mk message 1 (ThrownCause error))) None]
         ∧ library_calls (ShakaProvider.loadSource src None e s).2 = [Await (Load uri)]).
Proof.
  intros Hinst. split.
  - intros event error Htype Hdetail.
    rewrite (receive_error ctor e0 s0) by done.
    unfold ShakaController.onError, ShakaController.onFatalError. rewrite Hdetail.
    by eexists.
  - intros src uri error Hsrc Hload.
    rewrite provider_loadSource_eq, controller_loadSource_eq.
    rewrite Hsrc, Hinst, setup_instance, Hload.
    eexists. split; reflexivity.
Qed.

Lemma errors_forwarded_witness :
  ∃ message,
    ShakaController.loadSource
      (Src.mk (SrcString "https://files.vidstack.io/dash/manifest.mpd") None)
      Sample.env Sample.ready
    = [Await (Load "https://files.vidstack.io/dash/manifest.mpd");
       Notify "error"
         (ErrorPayload (MediaError.mk message 1 (ThrownCause Sample.failure))) None].
Proof.
  destruct (errors_forwarded 3 Sample.env Sample.env Sample.fresh Sample.ready eq_refl)
    as [_ Hload].
  destruct (Hload (Src.mk (SrcString "https://files.vidstack.io/dash/manifest.mpd") None)
              _ Sample.failure eq_refl eq_refl) as (message & Heq & _).
  exists message. exact Heq.
Defined.

(** ** Quality selection by the user *)

(** C7. When the host's quality list fires ['change'], the handler that
    [setup] registered runs.  If an instance exists, automatic mode is off
    and a quality is selected, it first switches ABR off and then, when
    some variant track has the height of the selected quality, selects the
    first such track, clearing the buffer exactly when the list's switch
    mode is ['current']; these are its only calls into the library.  If
    the instance is missing, automatic mode is on, or no quality is
    selected, it does nothing. *)
Theorem user_quality_change_forwarded {L : Type} `{!Host L}
    (ctor : ShakaConstructor) (e0 e : Env.t) (s0 s : State.t L) :
  State.hostListeners s0 = [] →
  State.hostListeners s = State.hostListeners (ShakaController.setup ctor e0 s0).1 →
  let t := (ShakaController.change Qualities e s).2 in
  let tracks := Env.getVariantTracks e in
  let clearBuffer := bool_decide (switch (State.qualities s) = "current") in
  (∀ quality,
     is_Some (State.instance s) → auto (State.qualities s) = false →
     selected (State.qualities s) = Some quality →
     (∀ before track after,
        tracks = before ++ track :: after →
        ShakaVariantTrack.height track = Some (VideoQuality.height quality) →
        (∀ t', t' ∈ before →
               ShakaVariantTrack.height t' ≠ Some (VideoQuality.height quality)) →
        library_calls t
        = [Configure (Abr false); GetVariantTracks; SelectVariantTrack track clearBuffer])
     ∧ ((∀ t', t' ∈ tracks →
               ShakaVariantTrack.height t' ≠ Some (VideoQuality.height quality)) →
        library_calls t = [Configure (Abr false); GetVariantTracks]))
  ∧ (State.instance s = None ∨ auto (State.qualities s) = true
     ∨ selected (State.qualities s) = None → t = []).
Proof.
  intros Hs0 Hs t tracks clearBuffer.
  assert (t = ShakaController.onUserQualityChange e s) as ->.
  { subst t. unfold ShakaController.change.
    rewrite Hs, setup_hostListeners, Hs0.
    match goal with
    | |- context [ (filter ?P ?l).*2 ] =>
        let hs := fresh "hs" in
        set (hs := (filter P l).*2); vm_compute in hs; subst hs
    end.
    rewrite run_handlers_cons. cbn [ShakaController.run_handlers
      ShakaController.run_handler fst snd].
    by rewrite app_nil_r. }
  assert (∀ h track,
            ShakaController.same_height (ShakaVariantTrack.height track) h = true
            ↔ ShakaVariantTrack.height track = Some (VideoQuality.height h)) as Hsame.
  { intros h track. unfold ShakaController.same_height.
    destruct (ShakaVariantTrack.height track) as [n|]; [|done].
    rewrite Z.eqb_eq. split; [by intros -> | by intros [= ->]]. }
  assert (String.eqb (switch (State.qualities s)) "current" = clearBuffer) as Hclear.
  { subst clearBuffer. destruct (String.eqb_spec (switch (State.qualities s)) "current").
    - by rewrite bool_decide_eq_true_2.
    - by rewrite bool_decide_eq_false_2. }
  unfold ShakaController.onUserQualityChange. split.
  - intros quality [inst Hinst] Hauto Hsel. rewrite Hinst, Hauto, Hsel. split.
    + intros before track after Htracks Hheight Hbefore.
      fold tracks. rewrite Htracks, find_first; [| by apply Hsame |].
      * rewrite Hclear. destruct (Env.IS_CHROME e); reflexivity.
      * intros y Hy. apply not_true_is_false. rewrite Hsame. by apply Hbefore.
    + intros Hnone. fold tracks. rewrite find_None.
      * destruct (Env.IS_CHROME e); reflexivity.
      * intros y Hy. apply not_true_is_false. rewrite Hsame. by apply Hnone.
  - intros [-> | [-> | ->]]; [done | | ].
    + by destruct (State.instance s).
    + destruct (State.instance s); [|done]. by destruct (auto (State.qualities s)).
Qed.

Lemma user_quality_change_forwarded_witness :
  let s := State.with_qualities
             (SimpleHost.mk [] false
                (Some (VideoQuality.mk "shaka-quality-3" 1280 720 900 "avc1.64001f" 1))
                "current")
             Sample.ready in
  library_calls (ShakaController.change Qualities Sample.env s).2
  = [Configure (Abr false); GetVariantTracks;
     SelectVariantTrack (Sample.variant 2 500 (Some 1280%Z) (Some 720%Z) true) true].
Proof.
  intros s.
  destruct (user_quality_change_forwarded 3 Sample.env Sample.env Sample.fresh s
              eq_refl eq_refl) as [Hsel _].
  destruct (Hsel (VideoQuality.mk "shaka-quality-3" 1280 720 900 "avc1.64001f" 1)
              (ex_intro _ _ eq_refl) eq_refl eq_refl) as [Hfirst _].
  apply (Hfirst [Sample.variant 1 100 (Some 640%Z) (Some 360%Z) false]
           (Sample.variant 2 500 (Some 1280%Z) (Some 720%Z) true)
           [Sample.variant 3 900 (Some 1280%Z) (Some 720%Z) false;
            Sample.variant 4 50 None (Some 1080%Z) false;
            Sample.variant 5 700 (Some 1280%Z) (Some 720%Z) false;
            Sample.variant 6 10 (Some 1920%Z) (Some 1080%Z) false]).
  - reflexivity.
  - reflexivity.
  - intros t' Ht'. apply list_elem_of_singleton in Ht' as ->. discriminate.
Defined.

(** ** Instance callbacks *)

Lemma elem_of_set_add x l : x ∈ set_add x l.
Proof.
  unfold set_add. case_decide; [done|]. apply elem_of_app. right. left.
Qed.

Lemma not_elem_of_set_delete x l : x ∉ set_delete x l.
Proof. unfold set_delete. rewrite list_elem_of_filter. tauto. Qed.

Lemma elem_of_invoked (t : Trace) callback ctor :
  InvokeCallback callback ctor ∈ t ↔ (callback, ctor) ∈ invoked t.
Proof.
  unfold invoked. rewrite list_elem_of_omap. split.
  - intros Hin. by exists (InvokeCallback callback ctor).
  - intros (a & Hin & Ha). destruct a; try done. by injection Ha as -> ->.
Qed.

Lemma setup_trace {L : Type} `{!Host L} ctor e (s : State.t L) :
  (ShakaController.setup ctor e s).2
  = [Construct ctor]
      ++ ((λ event, AddEventListener event H_dispatchShakaEvent) <$> ShakaController.events)
      ++ [AddEventListener "error" H_onError]
      ++ ((λ callback, InvokeCallback callback ctor) <$> State.callbacks s)
      ++ [PlayerDispatch (DOMEvent.mk "shaka-instance" (InstanceDetail ctor))]
      ++ match ShakaProviderConfig.config (State.config s) with
         | Some c => [Configure (UserConfig c)]
         | None => []
         end
      ++ [GetNetworkingEngine]
      ++ match Env.getNetworkingEngine e with
         | Some networkingEngine =>
             match ShakaProviderConfig.requestFilter (State.config s) with
             | Some f => [RegisterRequestFilter networkingEngine f]
             | None => []
             end
             ++ match ShakaProviderConfig.responseFilter (State.config s) with
                | Some f => [RegisterResponseFilter networkingEngine f]
                | None => []
                end
         | None => []
         end
      ++ [ AddEventListener "adaptation" H_onAdaptation;
           AddEventListener "trackschanged" H_onTracksChanged;
           AddEventListener "loaded" H_onLoaded;
           AddEventListener "buffering" H_onBuffering;
           QualitiesSetEnableAuto;
           ListenEvent Qualities "change" H_onUserQualityChange;
           ListenEvent AudioTracks "change" H_onUserAudioChange;
           CreateEffect H_liveSync ]
      ++ (if Env.live e then [RafStart H_liveSyncPosition] else []).
Proof.
  unfold ShakaController.setup, ShakaController.liveSync.
  by destruct (Env.live e).
Qed.

Lemma invoked_setup {L : Type} `{!Host L} ctor e (s : State.t L) :
  invoked (ShakaController.setup ctor e s).2 = (λ cb, (cb, ctor)) <$> State.callbacks s.
Proof.
  rewrite setup_trace. unfold invoked. rewrite !omap_app.
  rewrite (omap_fmap_Some _ _ (λ cb, (cb, ctor))) by done.
  destruct (Env.live e), (ShakaProviderConfig.config (State.config s)),
    (Env.getNetworkingEngine e), (ShakaProviderConfig.requestFilter (State.config s)),
    (ShakaProviderConfig.responseFilter (State.config s));
    cbn; by rewrite app_nil_r.
Qed.

Lemma setup_invokes {L : Type} `{!Host L} ctor e (s : State.t L) callback ctor' :
  InvokeCallback callback ctor' ∈ (ShakaController.setup ctor e s).2
  ↔ callback ∈ State.callbacks s ∧ ctor' = ctor.
Proof.
  rewrite elem_of_invoked, invoked_setup, list_elem_of_fmap. split.
  - by intros (cb & [= -> ->] & Hin).
  - intros [Hin ->]. by exists callback.
Qed.

(** C10. [ShakaProvider.onInstance] calls the callback at once when an
    instance exists (and not when none does); in both cases the callback
    joins the set that [setup] runs through for every instance it creates;
    and after the returned dispose function has run, [setup] no longer
    calls it.  Disposal is silent: it changes the set only, so a call that
    was already made stays made. *)
Theorem onInstance_registers {L : Type} `{!Host L}
    (callback : ShakaInstanceCallback) (s : State.t L) :
  (∀ instance, State.instance s = Some instance →
     (ShakaProvider.onInstance callback s).2
     = [InvokeCallback callback (ShakaPlayer.ctor instance)])
  ∧ (State.instance s = None → (ShakaProvider.onInstance callback s).2 = [])
  ∧ (∀ ctor e,
       InvokeCallback callback ctor
       ∈ (ShakaController.setup ctor e (ShakaProvider.onInstance callback s).1).2)
  ∧ (∀ (s' : State.t L) ctor ctor' e,
       InvokeCallback callback ctor'
       ∉ (ShakaController.setup ctor e (ShakaController.dispose callback s')).2)
  ∧ (∀ s' : State.t L,
       State.instance (ShakaController.dispose callback s') = State.instance s'
           ∧ ∀ other, other ≠ callback →
               (other ∈ State.callbacks (ShakaController.dispose callback s')
                ↔ other ∈ State.callbacks s')).
Proof.
  split_and!.
  - intros instance Hinst. unfold ShakaProvider.onInstance. by rewrite Hinst.
  - intros Hinst. unfold ShakaProvider.onInstance. by rewrite Hinst.
  - intros ctor e. apply setup_invokes. split; [|done]. apply elem_of_set_add.
  - intros s' ctor ctor' e [Hin _]%setup_invokes.
    by apply not_elem_of_set_delete in Hin.
  - intros s'. split; [done|]. intros other Hne.
    unfold ShakaController.dispose, set_delete. simpl.
    rewrite list_elem_of_filter. tauto.
Qed.

Lemma onInstance_registers_witness :
  (ShakaProvider.onInstance 13 Sample.ready).2 = [InvokeCallback 13 3].
Proof.
  destruct (onInstance_registers 13 Sample.ready) as [Hnow _].
  exact (Hnow (ShakaPlayer.mk 3 _) eq_refl).
Defined.

(** ** Translation of Shaka events *)

Section Translation.
Import ShakaController.
Context {L : Type} `{!Host L}.
Implicit Types (e : Env.t) (s : State.t L) (t : Trace).

Lemma player_dispatches_app t1 t2 :
  player_dispatches (t1 ++ t2) = player_dispatches t1 ++ player_dispatches t2.
Proof. apply omap_app. Qed.

Lemma player_dispatches_fmap {A} (f : A → Action) (l : list A) :
  (∀ x, player_dispatches [f x] = []) → player_dispatches (f <$> l) = [].
Proof.
  intros Hf. induction l as [|x l IH]; [done|].
  rewrite fmap_cons. change (f x :: (f <$> l)) with ([f x] ++ (f <$> l)).
  by rewrite player_dispatches_app, Hf, IH.
Qed.

Lemma player_dispatches_imap {A} (f : nat → A → Action) (l : list A) :
  (∀ i x, player_dispatches [f i x] = []) → player_dispatches (imap f l) = [].
Proof.
  revert f. induction l as [|x l IH]; intros f Hf; [done|].
  cbn [imap]. change (f 0 x :: imap (f ∘ S) l) with ([f 0 x] ++ imap (f ∘ S) l).
  rewrite player_dispatches_app, Hf, IH; [done|]. intros i y. apply Hf.
Qed.

Lemma updateQualityTracks_silent trigger e s :
  player_dispatches (updateQualityTracks trigger e s).2 = [].
Proof. apply player_dispatches_updates, updateQualityTracks_updates. Qed.

Lemma updateAudioTracks_silent trigger e s :
  player_dispatches (updateAudioTracks trigger e s) = [].
Proof.
  unfold updateAudioTracks. case_match; [|done].
  rewrite player_dispatches_app, player_dispatches_imap; done.
Qed.

Lemma updateTextTracks_silent trigger e s :
  player_dispatches (updateTextTracks trigger e s) = [].
Proof.
  unfold updateTextTracks. case_match; [|done].
  rewrite player_dispatches_app, player_dispatches_fmap; done.
Qed.

Lemma onLoaded_silent e s : player_dispatches (onLoaded e s).2 = [].
Proof.
  unfold onLoaded. destruct (State.instance s); [|done].
  destruct (Env.canPlay e); [done|].
  destruct (updateQualityTracks _ e _) as [s2 t3] eqn:Hq.
  apply (f_equal snd) in Hq. simpl in Hq. cbn [snd].
  rewrite !player_dispatches_app, <- Hq, updateQualityTracks_silent,
    updateAudioTracks_silent, updateTextTracks_silent.
  destruct (Env.isLive e); [|done].
  by destruct (0 <? (Env.seekRange e).2 - (Env.seekRange e).1)%Z.
Qed.

Lemma onTracksChanged_silent event e s :
  player_dispatches (onTracksChanged event e s).2 = [].
Proof.
  unfold onTracksChanged. case_decide; [apply updateQualityTracks_silent | done].
Qed.

Lemma onAdaptation_silent event e s :
  player_dispatches (onAdaptation event e s).2 = [].
Proof.
  unfold onAdaptation. repeat case_match; try done.
  apply player_dispatches_updates, select_quality_updates.
Qed.

Lemma onBuffering_silent event : player_dispatches (onBuffering event) = [].
Proof. unfold onBuffering. by case_match. Qed.
End Translation.

(** C6. Once [setup] has attached the listeners, receiving a Shaka event
    of one of the eleven subscribed types makes the adapter dispatch
    exactly one event on the host player; its type is ['shaka-'] followed
    by [camelToKebabCase] of the Shaka event's type and its detail is the
    Shaka event itself. *)
Theorem shaka_event_translated {L : Type} `{!Host L}
    (ctor : ShakaConstructor) (e0 e : Env.t) (s0 s : State.t L)
    (event : ShakaEvent.t) :
  State.instance s = State.instance (ShakaController.setup ctor e0 s0).1 →
  ShakaEvent.type event ∈ ShakaController.events →
  player_dispatches (ShakaController.receive event e s).2
  = [DOMEvent.mk ("shaka-" +:+ camelToKebabCase (ShakaEvent.type event))
       (EventDetail event)].
Proof.
  intros Hinst Htype. unfold ShakaController.receive, ShakaController.player.
  rewrite Hinst, setup_instance. cbn [ShakaPlayer.listeners].
  unfold ShakaController.events in Htype.
  repeat (apply elem_of_cons in Htype as [Htype|Htype]);
    [..|by apply elem_of_nil in Htype];
    rewrite Htype;
    match goal with
    | |- context [ (filter ?P ?l).*2 ] =>
        let hs := fresh "hs" in
        set (hs := (filter P l).*2); vm_compute in hs; subst hs
    end;
    rewrite ?run_handlers_cons; cbn [ShakaController.run_handlers snd fst];
    rewrite ?player_dispatches_app;
    cbn [ShakaController.run_handler snd fst];
    rewrite ?onLoaded_silent, ?onTracksChanged_silent, ?onAdaptation_silent,
      ?onBuffering_silent;
    unfold ShakaController.dispatchShakaEvent, ShakaController.createDOMEvent,
      ShakaController.toDOMEventType;
    rewrite Htype; reflexivity.
Qed.

Lemma shaka_event_translated_witness :
  player_dispatches
    (ShakaController.receive (ShakaEvent.mk "trackschanged" None None None)
       Sample.env Sample.ready).2
  = [DOMEvent.mk "shaka-trackschanged"
       (EventDetail (ShakaEvent.mk "trackschanged" None None None))].
Proof.
  assert ("trackschanged" ∈ ShakaController.events) as Hin
    by (unfold ShakaController.events; do 5 right; left).
  exact (shaka_event_translated 3 Sample.env Sample.env Sample.fresh Sample.ready
           (ShakaEvent.mk "trackschanged" None None None) eq_refl Hin).
Defined.

(** ** The order of the life cycle *)

Lemma phases_app (t1 t2 : Trace) : phases (t1 ++ t2) = phases t1 ++ phases t2.
Proof. apply omap_app. Qed.

Lemma phases_within_nil lo hi (t : Trace) : phases t = [] → phases_within lo hi t.
Proof. intros Ht. unfold phases_within. rewrite Ht. split; constructor. Qed.

Lemma phases_within_weaken lo hi lo' hi' (t : Trace) :
  lo' ≤ lo → hi ≤ hi' → phases_within lo hi t → phases_within lo' hi' t.
Proof.
  intros Hlo Hhi [Hs Hb]. split; [done|].
  eapply Forall_impl; [exact Hb|]. simpl. lia.
Qed.

Lemma phases_within_app lo mid hi (t1 t2 : Trace) :
  lo ≤ mid → mid ≤ hi →
  phases_within lo mid t1 → phases_within mid hi t2 → phases_within lo hi (t1 ++ t2).
Proof.
  intros Hlo Hhi [Hs1 Hb1] [Hs2 Hb2]. unfold phases_within. rewrite phases_app.
  split.
  - apply StronglySorted_app. split_and!; [|done|done].
    intros x1 x2 Hx1 Hx2. rewrite Forall_forall in Hb1, Hb2.
    specialize (Hb1 _ Hx1). specialize (Hb2 _ Hx2). simpl in *. lia.
  - apply Forall_app. split.
    + eapply Forall_impl; [exact Hb1|]. simpl. lia.
    + eapply Forall_impl; [exact Hb2|]. simpl. lia.
Qed.

(** In a trace whose steps follow the life cycle, the actions of an
    earlier step all come before the actions of a later one. *)
Lemma all_before_phases lo hi (t : Trace) (P Q : Action → bool) n :
  phases_within lo hi t →
  (∀ a, P a = true → ∃ p, phase a = Some p ∧ p ≤ n) →
  (∀ b, Q b = true → ∃ q, phase b = Some q ∧ n < q) →
  all_before P Q t.
Proof.
  intros [Hs _] HP HQ i j a b Hi Hj Ha Hb.
  destruct (HP a Ha) as (p & Hp & Hpn). destruct (HQ b Hb) as (q & Hq & Hnq).
  destruct (decide (i < j)) as [|Hge]; [done|]. exfalso.
  destruct (decide (i = j)) as [->|Hne].
  - rewrite Hi in Hj. injection Hj as ->. rewrite Hp in Hq. injection Hq as ->. lia.
  - assert (j < i) as Hlt by lia.
    assert (a ∈ drop (S j) t) as Hin.
    { apply (list_elem_of_lookup_2 _ (i - S j)). rewrite lookup_drop.
      by replace (S j + (i - S j)) with i by lia. }
    rewrite <- (take_drop_middle t j b Hj) in Hs.
    unfold phases in Hs. rewrite omap_app in Hs.
    apply StronglySorted_app_1_r in Hs. cbn [omap list_omap] in Hs.
    rewrite Hq in Hs. apply StronglySorted_cons in Hs as [Hall _].
    rewrite Forall_forall in Hall.
    assert (q ≤ p); [|lia]. apply Hall. apply list_elem_of_omap. by exists a.
Qed.

Section LoaderOutcome.
Context {L : Type} `{!Host L}.
Implicit Types (e : Env.t) (s : State.t L) (lib : ShakaLibrary).

(** A loading run that obtains a constructor hands it to the provider once,
    after announcing it; the check for [MediaSource] follows when the
    callback has returned, and what the callback left pending comes last. *)
Lemma startLoading_resolved lib e s ctor :
  resolved_constructor lib e = Some ctor →
  ∃ pre,
    ShakaLibLoader.startLoading lib ShakaProvider.onLibrary e s
    = ((ShakaProvider.onLibrary ctor e s).1.1,
       pre ++ [PlayerDispatch (DOMEvent.mk "shaka-lib-loaded" (CtorDetail ctor))]
         ++ (ShakaProvider.onLibrary ctor e s).1.2
         ++ (if Env.MediaSource_defined e then [] else unsupported)
         ++ (ShakaProvider.onLibrary ctor e s).2)
    ∧ library_calls pre = [] ∧ notifications pre = []
    ∧ player_dispatches pre = [DOMEvent.mk "shaka-lib-load-start" NoDetail]
    ∧ filter (λ a, is_install a = true) pre
      = ShakaLibLoader.installAll (resolved_polyfill lib e)
    ∧ phases pre = [].
Proof.
  unfold resolved_constructor, resolved_polyfill, ShakaLibLoader.startLoading,
    ShakaLibLoader.loadShakaScript, ShakaLibLoader.importShaka, ShakaLibLoader.onLoaded.
  intros Hctor.
  destruct lib as [url|ctor' polyfill|f|]; [| | |done].
  - destruct (Env.loadScript e); [done|].
    destruct (Env.window_shaka e) as [shaka|]; [|done].
    rewrite Hctor. destruct (ShakaProvider.onLibrary ctor e s) as [[s' t] later].
    exists (ShakaLibLoader.onLoadStart ++ [Await (LoadScript url)]
              ++ ShakaLibLoader.installAll (ShakaNamespace.polyfill shaka)).
    split_and!; [|by destruct (ShakaNamespace.polyfill shaka)..].
    destruct (Env.MediaSource_defined e); cbn [fst snd];
      rewrite <- ?app_assoc, ?app_nil_r; cbn [app]; by rewrite <- ?app_assoc.
  - injection Hctor as ->. cbn [negb ShakaLibLoader.isString].
    destruct (ShakaProvider.onLibrary ctor e s) as [[s' t] later].
    exists (ShakaLibLoader.onLoadStart ++ ShakaLibLoader.installAll polyfill).
    split_and!; [|by destruct polyfill..].
    destruct (Env.MediaSource_defined e); cbn [fst snd];
      rewrite <- ?app_assoc, ?app_nil_r; cbn [app]; by rewrite <- ?app_assoc.
  - cbn [negb ShakaLibLoader.isString].
    destruct (Env.loader e) as [err|[ns|]]; [done| |done].
    rewrite Hctor. destruct (ShakaProvider.onLibrary ctor e s) as [[s' t] later].
    exists (ShakaLibLoader.onLoadStart ++ [Await (CallLoader f)]
              ++ ShakaLibLoader.installAll (ShakaNamespace.polyfill ns)).
    split_and!; [|by destruct (ShakaNamespace.polyfill ns)..].
    destruct (Env.MediaSource_defined e); cbn [fst snd];
      rewrite <- ?app_assoc, ?app_nil_r; cbn [app]; by rewrite <- ?app_assoc.
Qed.

(** A loading run that obtains no constructor leaves the state alone and
    reports the failure, unless no library was given at all. *)
Lemma startLoading_unresolved lib e s :
  resolved_constructor lib e = None →
  (lib = LibUndefined ∧ ShakaLibLoader.startLoading lib ShakaProvider.onLibrary e s = (s, []))
  ∨ (∃ attempt err,
       ShakaLibLoader.startLoading lib ShakaProvider.onLibrary e s
       = (s, ShakaLibLoader.onLoadStart ++ [Await attempt] ++ ShakaLibLoader.onLoadError err)
       ∧ is_external_async attempt = true ∧ is_library_call (Await attempt) = false).
Proof.
  unfold resolved_constructor, ShakaLibLoader.startLoading,
    ShakaLibLoader.loadShakaScript, ShakaLibLoader.importShaka, ShakaLibLoader.onLoaded.
  intros Hctor.
  destruct lib as [url|ctor' polyfill|f|]; [|done| |by left].
  - right. exists (LoadScript url).
    destruct (Env.loadScript e) as [err|].
    { exists err. cbn -[app ShakaLibLoader.onLoadStart ShakaLibLoader.onLoadError].
      by rewrite !app_nil_r, <- app_assoc. }
    destruct (Env.window_shaka e) as [shaka|].
    2: { exists (ShakaLibLoader.invalid_window e).
         cbn -[app ShakaLibLoader.onLoadStart ShakaLibLoader.onLoadError].
         by rewrite !app_nil_r, <- app_assoc. }
    rewrite Hctor. exists (ShakaLibLoader.invalid_window e).
    cbn -[app ShakaLibLoader.onLoadStart ShakaLibLoader.onLoadError].
    by rewrite !app_nil_r, <- app_assoc.
  - right. exists (CallLoader f). cbn [negb ShakaLibLoader.isString].
    destruct (Env.loader e) as [err|[ns|]].
    + exists err. cbn -[app ShakaLibLoader.onLoadStart ShakaLibLoader.onLoadError].
      by rewrite !app_nil_r, <- app_assoc.
    + rewrite Hctor. exists (ShakaLibLoader.invalid_import e).
      cbn -[app ShakaLibLoader.onLoadStart ShakaLibLoader.onLoadError].
      by rewrite !app_nil_r, <- app_assoc.
    + exists (ShakaLibLoader.invalid_import e).
      cbn -[app ShakaLibLoader.onLoadStart ShakaLibLoader.onLoadError].
      by rewrite !app_nil_r, <- app_assoc.
Qed.

(** The callback: the controller's [setup], the notification, and
    [loadSource] as far as the call of the library's [load]. *)
Lemma onLibrary_trace ctor e s :
  (ShakaProvider.onLibrary ctor e s).1.2
  = (ShakaController.setup ctor e (State.with_ctor (Some ctor) s)).2
      ++ [Notify "provider-setup" ProviderPayload None]
      ++ match Env.source e with
         | Some src =>
             ShakaProvider.loadSource_begin src None
               (ShakaController.setup ctor e (State.with_ctor (Some ctor) s)).1
         | None => []
         end.
Proof.
  unfold ShakaProvider.onLibrary.
  destruct (ShakaController.setup ctor e _) as [s1 t1]. cbn [fst snd].
  by destruct (Env.source e) as [src|]; [destruct (ShakaProvider.loadSource_resume src e s1)|].
Qed.

Lemma onLibrary_later ctor e s :
  (ShakaProvider.onLibrary ctor e s).2
  = match Env.source e with
    | Some src =>
        (ShakaProvider.loadSource_resume src e
           (ShakaController.setup ctor e (State.with_ctor (Some ctor) s)).1).2
    | None => []
    end.
Proof.
  unfold ShakaProvider.onLibrary.
  destruct (ShakaController.setup ctor e _) as [s1 t1]. cbn [fst snd].
  by destruct (Env.source e) as [src|]; [destruct (ShakaProvider.loadSource_resume src e s1)|].
Qed.

Lemma onLibrary_state ctor e s :
  (ShakaProvider.onLibrary ctor e s).1.1
  = match Env.source e with
    | Some src =>
        (ShakaProvider.loadSource_resume src e
           (ShakaController.setup ctor e (State.with_ctor (Some ctor) s)).1).1
    | None => (ShakaController.setup ctor e (State.with_ctor (Some ctor) s)).1
    end.
Proof.
  unfold ShakaProvider.onLibrary.
  destruct (ShakaController.setup ctor e _) as [s1 t1]. cbn [fst snd].
  by destruct (Env.source e) as [src|]; [destruct (ShakaProvider.loadSource_resume src e s1)|].
Qed.
End LoaderOutcome.

Section LifeCycle.
Context {L : Type} `{!Host L}.
Implicit Types (e : Env.t) (s : State.t L).

Lemma phases_callbacks ctor (l : list ShakaInstanceCallback) :
  phases ((λ callback, InvokeCallback callback ctor) <$> l) = [].
Proof.
  apply omap_None. by intros a (cb & -> & _)%list_elem_of_fmap.
Qed.

Lemma setup_phases ctor e s : phases_within 1 5 (ShakaController.setup ctor e s).2.
Proof.
  unfold phases_within. rewrite setup_trace, !phases_app, phases_callbacks.
  destruct (Env.live e), (ShakaProviderConfig.config (State.config s)),
    (Env.getNetworkingEngine e), (ShakaProviderConfig.requestFilter (State.config s)),
    (ShakaProviderConfig.responseFilter (State.config s));
    vm_compute; split; repeat constructor.
Qed.

Lemma loadSource_begin_phases src preload s :
  phases_within 6 6 (ShakaProvider.loadSource_begin src preload s).
Proof.
  unfold ShakaProvider.loadSource_begin, ShakaController.loadSource_call.
  destruct (Src.src src), (State.instance s); vm_compute; split; repeat constructor.
Qed.

Lemma loadSource_resume_phases src e s :
  phases (ShakaProvider.loadSource_resume src e s).2 = [].
Proof.
  unfold ShakaProvider.loadSource_resume, ShakaController.loadSource_settled.
  by destruct (Src.src src), (State.instance s), (Env.load e).
Qed.

Lemma onLibrary_phases ctor e s :
  phases_within 1 6 (ShakaProvider.onLibrary ctor e s).1.2
  ∧ phases (ShakaProvider.onLibrary ctor e s).2 = [].
Proof.
  rewrite onLibrary_trace, onLibrary_later. split.
  - apply (phases_within_app 1 5 6); [lia | lia | apply setup_phases |].
    apply (phases_within_app 5 5 6); [lia | lia | by apply phases_within_nil |].
    destruct (Env.source e) as [src|]; [|by apply phases_within_nil].
    eapply phases_within_weaken; [| |apply loadSource_begin_phases]; lia.
  - destruct (Env.source e) as [src|]; [apply loadSource_resume_phases | done].
Qed.

Lemma startLoading_phases lib e s :
  phases_within 0 6 (ShakaLibLoader.startLoading lib ShakaProvider.onLibrary e s).2.
Proof.
  destruct (resolved_constructor lib e) as [ctor|] eqn:Hctor.
  - destruct (startLoading_resolved lib e s ctor Hctor) as (pre & -> & _ & _ & _ & _ & Hpre).
    destruct (onLibrary_phases ctor e s) as [Hsync Hlater]. cbn [snd].
    apply (phases_within_app 0 0 6); [lia | lia | by apply phases_within_nil |].
    apply (phases_within_app 0 0 6); [lia | lia | |].
    { vm_compute. split; repeat constructor. }
    apply (phases_within_app 0 6 6); [lia | lia | |].
    { eapply phases_within_weaken; [| |exact Hsync]; lia. }
    apply phases_within_nil. rewrite phases_app, Hlater.
    by destruct (Env.MediaSource_defined e).
  - destruct (startLoading_unresolved lib e s Hctor)
      as [[_ ->]|(attempt & err & -> & Hasync & Hcall)]; cbn [snd].
    + by apply phases_within_nil.
    + apply phases_within_nil. rewrite !phases_app.
      destruct attempt; try discriminate Hasync; try discriminate Hcall; done.
Qed.

Lemma provider_setup_phases e s : phases_within 0 6 (ShakaProvider.setup e s).2.
Proof.
  unfold ShakaProvider.setup.
  pose proof (startLoading_phases (State.library s) e s) as Hloading.
  destruct (ShakaLibLoader.startLoading _ _ e s) as [s' t]. cbn [snd] in *.
  apply (phases_within_app 0 0 6); [lia | lia | by apply phases_within_nil | done].
Qed.
End LifeCycle.

(** C3 (as amended). A set-up run goes through these steps in this order:
    the library is loaded; the player instance is constructed; the
    listeners that forward the library's events and errors are attached;
    the configuration is applied; the listeners that keep the host's
    tracks in step are attached; the source is loaded.  So the instance is
    constructed only after the library is loaded and before any listener or
    configuration; the configuration is applied after the forwarding
    listeners and before the track listeners; and the source is loaded
    only after library load, construction, configuration and every listener.
    When the library is a script that loads and exposes a player
    constructor, a configuration is set and the current source is a string,
    each of these steps does occur. *)
Theorem setup_life_cycle {L : Type} `{!Host L} (e : Env.t) (s : State.t L) :
  let t := (ShakaProvider.setup e s).2 in
  all_before is_library_loaded is_construct t
  ∧ all_before is_construct is_listen t
  ∧ all_before is_construct is_configure t
  ∧ all_before is_forwarding_listen is_configure t
  ∧ all_before is_configure is_tracking_listen t
  ∧ all_before is_library_loaded is_load t
  ∧ all_before is_construct is_load t
  ∧ all_before is_configure is_load t
  ∧ all_before is_listen is_load t
  ∧ (∀ url shaka ctor c uri type,
       State.library s = LibUrl url → Env.loadScript e = None →
       Env.window_shaka e = Some shaka → ShakaNamespace.Player shaka = Some ctor →
       ShakaProviderConfig.config (State.config s) = Some c →
       Env.source e = Some (Src.mk (SrcString uri) type) →
       ∃ t0 t1 t2 t3 t4,
         t = t0
             ++ [PlayerDispatch (DOMEvent.mk "shaka-lib-loaded" (CtorDetail ctor));
                 Construct ctor]
             ++ ((λ event, AddEventListener event H_dispatchShakaEvent)
                   <$> ShakaController.events)
             ++ [AddEventListener "error" H_onError]
             ++ t1
             ++ [Configure (UserConfig c)]
             ++ t2
             ++ [ AddEventListener "adaptation" H_onAdaptation;
                  AddEventListener "trackschanged" H_onTracksChanged;
                  AddEventListener "loaded" H_onLoaded;
                  AddEventListener "buffering" H_onBuffering ]
             ++ t3
             ++ [Await (Load uri)]
             ++ t4).
Proof.
  intros t. pose proof (provider_setup_phases e s) as Hphases. fold t in Hphases.
  split_and!.
  - apply (all_before_phases 0 6 t _ _ 0); [done | phase_of_step..].
  - apply (all_before_phases 0 6 t _ _ 1); [done | phase_of_step..].
  - apply (all_before_phases 0 6 t _ _ 1); [done | phase_of_step..].
  - apply (all_before_phases 0 6 t _ _ 2); [done | phase_of_step..].
  - apply (all_before_phases 0 6 t _ _ 3); [done | phase_of_step..].
  - apply (all_before_phases 0 6 t _ _ 0); [done | phase_of_step..].
  - apply (all_before_phases 0 6 t _ _ 1); [done | phase_of_step..].
  - apply (all_before_phases 0 6 t _ _ 3); [done | phase_of_step..].
  - apply (all_before_phases 0 6 t _ _ 5); [done | phase_of_step..].
  - intros url shaka ctor c uri type Hlib Hscript Hwindow Hplayer Hconfig Hsource.
    subst t. unfold ShakaProvider.setup.
    assert (resolved_constructor (State.library s) e = Some ctor) as Hctor.
    { unfold resolved_constructor. by rewrite Hlib, Hscript, Hwindow. }
    destruct (startLoading_resolved _ e s ctor Hctor) as (pre & -> & _). cbn [snd].
    rewrite onLibrary_trace, Hsource, setup_trace.
    unfold ShakaProvider.loadSource_begin, ShakaController.loadSource_call.
    cbn [Src.src]. rewrite setup_instance.
    cbn [State.config State.with_ctor State.callbacks]. rewrite Hconfig.
    exists ([SuperSetup] ++ pre),
      (((λ callback, InvokeCallback callback ctor) <$> State.callbacks s)
         ++ [PlayerDispatch (DOMEvent.mk "shaka-instance" (InstanceDetail ctor))]),
      ([GetNetworkingEngine]
         ++ match Env.getNetworkingEngine e with
            | Some networkingEngine =>
                match ShakaProviderConfig.requestFilter (State.config s) with
                | Some f => [RegisterRequestFilter networkingEngine f]
                | None => []
                end
                ++ match ShakaProviderConfig.responseFilter (State.config s) with
                   | Some f => [RegisterResponseFilter networkingEngine f]
                   | None => []
                   end
            | None => []
            end),
      ([ QualitiesSetEnableAuto;
         ListenEvent Qualities "change" H_onUserQualityChange;
         ListenEvent AudioTracks "change" H_onUserAudioChange;
         CreateEffect H_liveSync ]
         ++ (if Env.live e then [RafStart H_liveSyncPosition] else [])
         ++ [ Notify "provider-setup" ProviderPayload None;
              SetPreload "";
              AppendSource (Src.mk (SrcString uri) type)
                (Js.or_else Js.truthy_str type "application/dash+xml") ]),
      ((if Env.MediaSource_defined e then [] else unsupported)
         ++ (ShakaProvider.onLibrary ctor e s).2).
    rewrite <- !app_assoc; cbn [app Src.type]; rewrite <- ?app_assoc; reflexivity.
Qed.

Lemma setup_life_cycle_witness :
  ∃ t0 t1 t2 t3 t4,
    (ShakaProvider.setup Sample.env Sample.fresh).2
    = t0
        ++ [PlayerDispatch (DOMEvent.mk "shaka-lib-loaded" (CtorDetail 3)); Construct 3]
        ++ ((λ event, AddEventListener event H_dispatchShakaEvent)
              <$> ShakaController.events)
        ++ [AddEventListener "error" H_onError]
        ++ t1
        ++ [Configure (UserConfig 1)]
        ++ t2
        ++ [ AddEventListener "adaptation" H_onAdaptation;
             AddEventListener "trackschanged" H_onTracksChanged;
             AddEventListener "loaded" H_onLoaded;
             AddEventListener "buffering" H_onBuffering ]
        ++ t3
        ++ [Await (Load "https://files.vidstack.io/dash/manifest.mpd")]
        ++ t4.
Proof.
  exact (proj2 (proj2 (proj2 (proj2 (proj2 (proj2 (proj2 (proj2 (proj2
           (setup_life_cycle Sample.env Sample.fresh)))))))))
           "https://cdn.jsdelivr.net/npm/shaka-player" (ShakaNamespace.mk (Some 3) true)
           3 1 "https://files.vidstack.io/dash/manifest.mpd" None
           eq_refl eq_refl eq_refl eq_refl eq_refl eq_refl).
Defined.

(** C3, as the specification states it, fails: the configuration is not
    applied before the event listeners are attached.  In the sample run the
    listener for ['buffering'] is attached at position 6 of the trace and
    the configuration is applied at position 21. *)
Lemma configure_after_listeners :
  (ShakaProvider.setup Sample.env Sample.fresh).2 !! 6
  = Some (AddEventListener "buffering" H_dispatchShakaEvent)
  ∧ (ShakaProvider.setup Sample.env Sample.fresh).2 !! 21
    = Some (Configure (UserConfig 1))
  ∧ ¬ all_before is_configure is_listen (ShakaProvider.setup Sample.env Sample.fresh).2.
Proof.
  split_and!; [reflexivity | reflexivity |].
  intros Hbefore.
  specialize (Hbefore 21 6 (Configure (UserConfig 1))
                (AddEventListener "buffering" H_dispatchShakaEvent)
                eq_refl eq_refl eq_refl eq_refl).
  lia.
Qed.

(** ** Network filters *)

Lemma setup_registered {L : Type} `{!Host L} ctor e (s : State.t L) a :
  a ∈ (ShakaController.setup ctor e s).2 → is_register a = true →
  (∃ engine f, Env.getNetworkingEngine e = Some engine
     ∧ ShakaProviderConfig.requestFilter (State.config s) = Some f
     ∧ a = RegisterRequestFilter engine f)
  ∨ (∃ engine f, Env.getNetworkingEngine e = Some engine
       ∧ ShakaProviderConfig.responseFilter (State.config s) = Some f
       ∧ a = RegisterResponseFilter engine f).
Proof.
  intros Hin Hreg. rewrite setup_trace in Hin.
  repeat (apply elem_of_app in Hin as [Hin|Hin]);
    try (apply list_elem_of_fmap in Hin as (? & -> & _); discriminate Hreg);
    repeat case_match;
    repeat (apply elem_of_cons in Hin as [->|Hin]);
    try discriminate Hreg; try (by apply elem_of_nil in Hin).
  all: try (apply elem_of_app in Hin as [Hin|Hin]);
    repeat case_match;
    repeat (apply elem_of_cons in Hin as [->|Hin]);
    try discriminate Hreg; try (by apply elem_of_nil in Hin).
  all: first [ left; by eexists _, _ | right; by eexists _, _ ].
Qed.

(** C9. A filter handed to [registerRequestFilter] or
    [registerResponseFilter] while there is no instance is dropped: the
    call does nothing and keeps nothing, so no later step can register it.
    The filters of [config], in contrast, are registered with the
    instance's networking engine by [setup], and they are the only filters
    [setup] registers; every registration comes before the source is
    loaded. *)
Theorem filters_without_instance_dropped {L : Type} `{!Host L}
    (e : Env.t) (s : State.t L) :
  (State.instance s = None →
   ∀ filter,
     ShakaProvider.registerRequestFilter filter e s = (s, [])
     ∧ ShakaProvider.registerResponseFilter filter e s = (s, []))
  ∧ (∀ ctor engine,
       Env.getNetworkingEngine e = Some engine →
       (∀ f, ShakaProviderConfig.requestFilter (State.config s) = Some f →
             RegisterRequestFilter engine f ∈ (ShakaController.setup ctor e s).2)
       ∧ (∀ f, ShakaProviderConfig.responseFilter (State.config s) = Some f →
               RegisterResponseFilter engine f ∈ (ShakaController.setup ctor e s).2))
  ∧ (∀ ctor engine f,
       (RegisterRequestFilter engine f ∈ (ShakaController.setup ctor e s).2 →
        ShakaProviderConfig.requestFilter (State.config s) = Some f)
       ∧ (RegisterResponseFilter engine f ∈ (ShakaController.setup ctor e s).2 →
          ShakaProviderConfig.responseFilter (State.config s) = Some f))
  ∧ all_before is_register is_load (ShakaProvider.setup e s).2.
Proof.
  split_and!.
  - intros Hinst filter.
    unfold ShakaProvider.registerRequestFilter, ShakaProvider.registerResponseFilter,
      ShakaController.registerRequestFilter, ShakaController.registerResponseFilter.
    by rewrite Hinst.
  - intros ctor engine Hengine. split; intros f Hf; rewrite setup_trace, Hengine, Hf.
    + do 7 (apply elem_of_app; right). apply elem_of_app. left.
      apply elem_of_app. left. left.
    + do 7 (apply elem_of_app; right). apply elem_of_app. left.
      apply elem_of_app. right. left.
  - intros ctor engine f. split; intros Hin.
    + destruct (setup_registered _ _ _ _ Hin eq_refl)
        as [(engine' & f' & _ & Hf & [= -> ->])|(engine' & f' & _ & _ & [=])]. done.
    + destruct (setup_registered _ _ _ _ Hin eq_refl)
        as [(engine' & f' & _ & _ & [=])|(engine' & f' & _ & Hf & [= -> ->])]. done.
  - apply (all_before_phases 0 6 _ _ _ 4);
      [apply provider_setup_phases | phase_of_step..].
Qed.

Lemma filters_without_instance_dropped_witness :
  ShakaProvider.registerRequestFilter 9 Sample.env Sample.fresh = (Sample.fresh, [])
  ∧ RegisterRequestFilter 7 2 ∈ (ShakaController.setup 3 Sample.env Sample.fresh).2.
Proof.
  destruct (filters_without_instance_dropped Sample.env Sample.fresh)
    as (Hdropped & Hconfigured & _).
  split.
  - exact (proj1 (Hdropped eq_refl 9)).
  - exact (proj1 (Hconfigured 3 7 eq_refl) 2 eq_refl).
Defined.

(** ** Asynchrony and the live-synchronisation loop *)

Section LiveSync.
Context {L : Type} `{!Host L}.
Implicit Types (e : Env.t) (s : State.t L) (t : Trace) (r : bool).

Lemma one_loop_app r (t1 t2 : list Action) :
  one_loop r (t1 ++ t2) = one_loop r t1 && one_loop (running_after r t1) t2.
Proof.
  revert r. induction t1 as [|a t1 IH]; intros r; [done|].
  destruct a; cbn [app one_loop running_after]; rewrite ?IH; try done.
  - by rewrite andb_assoc.
  - by rewrite andb_assoc.
Qed.

Lemma running_after_app r (t1 t2 : list Action) :
  running_after r (t1 ++ t2) = running_after (running_after r t1) t2.
Proof.
  revert r. induction t1 as [|a t1 IH]; intros r; [done|].
  destruct a; cbn [app running_after]; by rewrite ?IH.
Qed.

(** A trace without loop actions leaves the loop as it is. *)
Lemma quiet_loop r (t : list Action) :
  Forall (λ a, is_loop_action a = false) t →
  one_loop r t = true ∧ running_after r t = r.
Proof.
  induction 1 as [|a t Ha _ IH]; [done|]. by destruct a.
Qed.

Lemma quiet_app r (t1 t2 : list Action) :
  Forall (λ a, is_loop_action a = false) t1 →
  one_loop r (t1 ++ t2) = one_loop r t2
  ∧ running_after r (t1 ++ t2) = running_after r t2.
Proof.
  intros [Hone Hrun]%(quiet_loop r).
  by rewrite one_loop_app, running_after_app, Hone, Hrun.
Qed.

(** [setup]: everything before the first run of the effect is quiet. *)
Lemma setup_quiet ctor e s :
  ∃ t0, (ShakaController.setup ctor e s).2 = t0 ++ (ShakaController.liveSync e).1
        ∧ Forall (λ a, is_loop_action a = false) t0.
Proof.
  rewrite setup_trace. eexists. split.
  - rewrite !app_assoc. f_equal. unfold ShakaController.liveSync.
    by destruct (Env.live e).
  - rewrite !Forall_app, !Forall_fmap. split_and!;
      try (by apply Forall_true); try (by repeat constructor).
    + by destruct (ShakaProviderConfig.config (State.config s)); repeat constructor.
    + destruct (Env.getNetworkingEngine e); [|constructor].
      by destruct (ShakaProviderConfig.requestFilter (State.config s)),
        (ShakaProviderConfig.responseFilter (State.config s)); repeat constructor.
Qed.

Lemma setup_stopLiveSync ctor e s :
  State.stopLiveSync (ShakaController.setup ctor e s).1
  = Some (EffectHandle.mk (Env.live e)).
Proof.
  unfold ShakaController.setup, ShakaController.liveSync. by destruct (Env.live e).
Qed.

Lemma setup_loop ctor e s a :
  a ∈ (ShakaController.setup ctor e s).2 → starts_loop a = true →
  Env.live e = true ∧ a = RafStart H_liveSyncPosition.
Proof.
  destruct (setup_quiet ctor e s) as (t0 & -> & Hquiet).
  intros [Hin|Hin]%elem_of_app Hloop.
  - rewrite Forall_forall in Hquiet. specialize (Hquiet a Hin). by destruct a.
  - unfold ShakaController.liveSync in Hin.
    destruct (Env.live e); cbn [fst negb] in Hin.
    + by apply list_elem_of_singleton in Hin as ->.
    + by apply elem_of_nil in Hin.
Qed.

(** One more run of the effect: the loop of the last run is stopped, and a
    new one is started if the stream is live. *)
Lemma liveSync_rerun_loop e s r :
  State.stopLiveSync s = Some (EffectHandle.mk r) →
  ShakaController.liveSync_rerun e s
  = (State.with_stopLiveSync (Some (EffectHandle.mk (Env.live e))) s,
     (if r then [RafStop] else [])
       ++ (if Env.live e then [RafStart H_liveSyncPosition] else [])).
Proof.
  intros Hhandle. unfold ShakaController.liveSync_rerun, ShakaController.liveSync.
  rewrite Hhandle. by destruct (Env.live e).
Qed.

Lemma live_changes_loop (es : list Env.t) s r :
  State.stopLiveSync s = Some (EffectHandle.mk r) →
  let live := default r (Env.live <$> last es) in
  State.stopLiveSync (live_changes es s).1 = Some (EffectHandle.mk live)
  ∧ State.instance (live_changes es s).1 = State.instance s
  ∧ one_loop r (live_changes es s).2 = true
  ∧ running_after r (live_changes es s).2 = live
  ∧ (∀ a, a ∈ (live_changes es s).2 → starts_loop a = true →
          a = RafStart H_liveSyncPosition).
Proof.
  revert s r. induction es as [|e es IH]; intros s r Hhandle live.
  - subst live. cbn. split_and!; try done. by intros a ?%elem_of_nil.
  - cbn [live_changes]. rewrite (liveSync_rerun_loop e s r Hhandle).
    specialize (IH (State.with_stopLiveSync (Some (EffectHandle.mk (Env.live e))) s)
                  (Env.live e) eq_refl).
    cbv zeta in IH. destruct (live_changes es _) as [s2 t2].
    cbn [fst snd] in *. destruct IH as (Hstop & Hinst & Hone & Hrun & Hstart).
    assert (live = default (Env.live e) (Env.live <$> last es)) as ->.
    { subst live. rewrite last_cons. by destruct (last es). }
    split_and!; [done | done | | |].
    + rewrite one_loop_app, running_after_app.
      by destruct r, (Env.live e); cbn; rewrite ?Hone.
    + rewrite running_after_app. by destruct r, (Env.live e); cbn; rewrite ?Hrun.
    + intros a [Hin|Hin]%elem_of_app Hloop; [|by apply Hstart].
      destruct r, (Env.live e); cbn in Hin;
        repeat (apply elem_of_cons in Hin as [->|Hin]);
        try done; by apply elem_of_nil in Hin.
Qed.

(** An effect that was disposed of does not run. *)
Lemma live_changes_disposed (es : list Env.t) s :
  State.stopLiveSync s = None → live_changes es s = (s, []).
Proof.
  intros Hnone. induction es as [|e es IH]; [done|].
  cbn [live_changes]. unfold ShakaController.liveSync_rerun. by rewrite Hnone, IH.
Qed.
End LiveSync.

(** C8 (as amended). The adapter runs an animation-frame loop of its own
    and keeps a cancellation handle for it.  [setup] creates a reactive
    effect over [#liveSync]; the effect runs at set-up and again whenever the
    stream's live state changes.  Each run first stops the loop that the run
    before started and then starts a loop over [#liveSyncPosition] exactly
    when the stream is live.  So no loop is started while one is running,
    none is stopped when none is running, and after any number of changes a
    loop is running exactly when the stream is live.  [setup] keeps the
    effect's disposer in [#stopLiveSync]; [destroy] calls it, which stops the
    loop if one is running, and forgets it; from then on the effect does not
    run again. *)
Theorem live_sync_loop {L : Type} `{!Host L}
    (ctor : ShakaConstructor) (e : Env.t) (es : list Env.t) (s : State.t L) :
  let s1 := (ShakaController.setup ctor e s).1 in
  let s2 := (live_changes es s1).1 in
  let t := (ShakaController.setup ctor e s).2 ++ (live_changes es s1).2 in
  let live := Env.live (default e (last es)) in
  (∀ a, a ∈ t → starts_loop a = true → a = RafStart H_liveSyncPosition)
  ∧ one_loop false t = true
  ∧ running_after false t = live
  ∧ State.stopLiveSync s2 = Some (EffectHandle.mk live)
  ∧ (ShakaProvider.destroy s2).2
    = [Await Destroy; StopEffect] ++ (if live then [RafStop] else [])
  ∧ one_loop false (t ++ (ShakaProvider.destroy s2).2) = true
  ∧ running_after false (t ++ (ShakaProvider.destroy s2).2) = false
  ∧ State.stopLiveSync (ShakaProvider.destroy s2).1 = None
  ∧ (∀ es', live_changes es' (ShakaProvider.destroy s2).1
            = ((ShakaProvider.destroy s2).1, [])).
Proof.
  intros s1 s2 t live.
  destruct (live_changes_loop es s1 (Env.live e) (setup_stopLiveSync ctor e s))
    as (Hstop & Hinst & Hone & Hrun & Hstart).
  fold s2 in Hstop, Hinst.
  assert (default (Env.live e) (Env.live <$> last es) = live) as Hlive.
  { subst live. by destruct (last es). }
  rewrite Hlive in Hstop, Hrun.
  destruct (setup_quiet ctor e s) as (t0 & Htrace & Hquiet).
  assert (one_loop false (ShakaController.setup ctor e s).2 = true
          ∧ running_after false (ShakaController.setup ctor e s).2 = Env.live e)
    as [Hone0 Hrun0].
  { rewrite Htrace. destruct (quiet_app false t0 (ShakaController.liveSync e).1 Hquiet)
      as [-> ->].
    unfold ShakaController.liveSync. by destruct (Env.live e). }
  assert (one_loop false t = true ∧ running_after false t = live) as [Hone1 Hrun1].
  { subst t. by rewrite one_loop_app, running_after_app, Hone0, Hrun0, Hone, Hrun. }
  assert ((ShakaProvider.destroy s2).2
          = [Await Destroy; StopEffect] ++ (if live then [RafStop] else [])) as Hdestroy.
  { unfold ShakaProvider.destroy, ShakaController.destroy, ShakaController.destroy_resume,
      ShakaController.destroy_call.
    cbn [snd]. rewrite Hinst, Hstop. subst s1. by rewrite setup_instance. }
  split_and!; try done.
  - intros a [Hin|Hin]%elem_of_app Hloop.
    + by apply (setup_loop ctor e s).
    + by apply Hstart.
  - rewrite one_loop_app, Hone1, Hrun1, Hdestroy. by destruct live.
  - rewrite running_after_app, Hrun1, Hdestroy. by destruct live.
  - intros es'. by apply live_changes_disposed.
Qed.

Lemma live_sync_loop_witness :
  running_after false
    ((ShakaController.setup 3
        (Env.mk Sample.tracks Sample.audio Sample.text (Some 7) false (0, 10)%Z None None
           None (inr None) true false false 0 false false None false 0)
        Sample.fresh).2
       ++ (live_changes [Sample.env]
             (ShakaController.setup 3
                (Env.mk Sample.tracks Sample.audio Sample.text (Some 7) false (0, 10)%Z
                   None None None (inr None) true false false 0 false false None false 0)
                Sample.fresh).1).2)
  = true.
Proof.
  destruct (live_sync_loop 3
              (Env.mk Sample.tracks Sample.audio Sample.text (Some 7) false (0, 10)%Z
                 None None None (inr None) true false false 0 false false None false 0)
              [Sample.env] Sample.fresh)
    as (_ & _ & Hrunning & _).
  exact Hrunning.
Defined.

(** C8, as the specification states it, fails: with a live stream the
    set-up run starts an animation-frame loop, keeps a handle to stop it,
    and [destroy] stops it through that handle. *)
Lemma live_stream_starts_loop :
  Env.live Sample.env = true
  ∧ (ShakaProvider.setup Sample.env Sample.fresh).2 !! 33
    = Some (RafStart H_liveSyncPosition)
  ∧ State.stopLiveSync (ShakaProvider.setup Sample.env Sample.fresh).1
    = Some (EffectHandle.mk true)
  ∧ (ShakaProvider.destroy (ShakaProvider.setup Sample.env Sample.fresh).1).2
    = [Await Destroy; StopEffect; RafStop].
Proof. split_and!; reflexivity. Qed.

(** * Further properties of the adapter *)

(** ** Which variant stands for a resolution *)

Section QualityChoice.
Import ShakaController.
Implicit Types (t : ShakaVariantTrack.t) (l : list ShakaVariantTrack.t).

Local Abbreviation key_of t := (Js.template_num (ShakaVariantTrack.height t)).
Local Abbreviation bandwidth := ShakaVariantTrack.bandwidth.

Lemma uniqueQualities_snoc l t :
  uniqueQualities (l ++ [t]) = group_by_resolution (uniqueQualities l) t.
Proof. unfold uniqueQualities. by rewrite foldl_app. Qed.

(** The entry kept for a key is the first track of greatest bandwidth: the
    tracks of that key before it are strictly smaller, those after it are
    not greater. *)
Lemma uniqueQualities_first l k t :
  (k, t) ∈ uniqueQualities l →
  ∃ l1 l2, l = l1 ++ t :: l2
    ∧ (∀ t', t' ∈ l1 → has_resolution t' = true → key_of t' = k →
             (bandwidth t' < bandwidth t)%Z)
    ∧ (∀ t', t' ∈ l2 → has_resolution t' = true → key_of t' = k →
             (bandwidth t' <= bandwidth t)%Z).
Proof.
  revert k t. induction l as [|x l IH] using rev_ind; intros k t Hin.
  { by apply elem_of_nil in Hin. }
  destruct (uniqueQualities_grouped l) as (Hnd & Hsound & Hcomplete).
  rewrite uniqueQualities_snoc in Hin. unfold group_by_resolution in Hin.
  assert (∀ k t, (k, t) ∈ uniqueQualities l →
            (has_resolution x = true → key_of x = k → (bandwidth x <= bandwidth t)%Z) →
            ∃ l1 l2, l ++ [x] = l1 ++ t :: l2
              ∧ (∀ t', t' ∈ l1 → has_resolution t' = true → key_of t' = k →
                       (bandwidth t' < bandwidth t)%Z)
              ∧ (∀ t', t' ∈ l2 → has_resolution t' = true → key_of t' = k →
                       (bandwidth t' <= bandwidth t)%Z)) as Hold.
  { intros k0 t0 Hin0 Hx. destruct (IH _ _ Hin0) as (l1 & l2 & -> & Hbefore & Hafter).
    exists l1, (l2 ++ [x]). split_and!; [by rewrite <- app_assoc | done |].
    intros t' [Ht'| ->%list_elem_of_singleton]%elem_of_app; [by apply Hafter | done]. }
  assert (∀ t0, (∀ t', t' ∈ l → has_resolution t' = true → key_of t' = key_of x →
                       (bandwidth t' < bandwidth x)%Z) →
            (k, t) ∈ Js.set (key_of x) x (uniqueQualities l) →
            ∃ l1 l2, l ++ [x] = l1 ++ t :: l2
              ∧ (∀ t', t' ∈ l1 → has_resolution t' = true → key_of t' = k →
                       (bandwidth t' < bandwidth t)%Z)
              ∧ (∀ t', t' ∈ l2 → has_resolution t' = true → key_of t' = k →
                       (bandwidth t' <= bandwidth t)%Z)) as Hnew.
  { intros _ Hsmaller Hin'. apply elem_set in Hin'; [|done].
    destruct Hin' as [[-> ->]|[Hne Hin']].
    - exists l, []. split_and!; [done | done |].
      intros t' Ht'. by apply elem_of_nil in Ht'.
    - apply Hold; [done|]. intros _ Hk. congruence. }
  destruct (has_resolution x) eqn:Hres; [|apply Hold; [done | done]].
  destruct (Js.get (key_of x) (uniqueQualities l)) as [t0|] eqn:Hget.
  - assert (Js.has (key_of x) (uniqueQualities l) = true) as Hhas
      by (unfold Js.has; by rewrite Hget).
    rewrite Hhas in Hin. simpl in Hin.
    destruct (Hsound _ _ (get_Some_elem _ _ _ Hget)) as (_ & _ & _ & Hmax0).
    destruct (Z.ltb_spec (bandwidth t0) (bandwidth x)) as [Hlt|Hge].
    + apply (Hnew x); [|done]. intros t' Ht' Hres' Hk'.
      specialize (Hmax0 t' Ht' Hres' Hk'). lia.
    + apply Hold; [done|]. intros _ Hk. subst k.
      apply (elem_get _ _ _ Hnd) in Hin. rewrite Hget in Hin. injection Hin as ->. lia.
  - assert (Js.has (key_of x) (uniqueQualities l) = false) as Hhas
      by (unfold Js.has; by rewrite Hget).
    rewrite Hhas in Hin. simpl in Hin. apply get_None_keys in Hget.
    apply (Hnew x); [|done]. intros t' Ht' Hres' Hk'.
    exfalso. apply Hget. rewrite <- Hk'. by apply Hcomplete.
Qed.
End QualityChoice.

(** X1. Among the variant tracks of one height that have a width, the
    quality is made from the first one (in the order the library lists them)
    that has the greatest bandwidth: every track of that height with a width
    before it has a strictly smaller bandwidth, and none after it has a
    greater one.  Tracks without a width do not compete, whatever their
    bandwidth. *)
Theorem quality_from_first_best_variant {L : Type} `{!Host L}
    (trigger : DOMEvent.t) (e : Env.t) (s : State.t L) (q : VideoQuality.t) :
  q ∈ added_qualities (ShakaController.updateQualityTracks trigger e s).2 →
  let has_width (t : ShakaVariantTrack.t) :=
    ∃ w, ShakaVariantTrack.width t = Some w ∧ w ≠ 0%Z in
  ∃ before t after,
    Env.getVariantTracks e = before ++ t :: after
    ∧ q = ShakaController.quality_of (VideoQuality.index q) t
    ∧ ShakaVariantTrack.height t = Some (VideoQuality.height q)
    ∧ VideoQuality.height q ≠ 0%Z
    ∧ has_width t
    ∧ (∀ t', t' ∈ before → has_width t' →
             ShakaVariantTrack.height t' = ShakaVariantTrack.height t →
             (ShakaVariantTrack.bandwidth t' < ShakaVariantTrack.bandwidth t)%Z)
    ∧ (∀ t', t' ∈ after → has_width t' →
             ShakaVariantTrack.height t' = ShakaVariantTrack.height t →
             (ShakaVariantTrack.bandwidth t' <= ShakaVariantTrack.bandwidth t)%Z).
Proof.
  intros Hq has_width.
  destruct (State.instance s) as [inst|] eqn:Hinst.
  2: { unfold ShakaController.updateQualityTracks in Hq. rewrite Hinst in Hq.
       by apply elem_of_nil in Hq. }
  rewrite added_qualities_update in Hq by (by exists inst).
  apply elem_of_lookup_imap_1 in Hq as (i & t & -> & Hlook).
  apply list_elem_of_lookup_2 in Hlook.
  destruct (sortedQualities_sound _ _ Hlook) as (_ & Hres & _).
  apply sortedQualities_elem in Hlook as (k & Hin).
  destruct (uniqueQualities_grouped (Env.getVariantTracks e)) as (_ & Hsound & _).
  destruct (Hsound _ _ Hin) as (_ & _ & -> & _).
  destruct (uniqueQualities_first _ _ _ Hin) as (l1 & l2 & Hsplit & Hbefore & Hafter).
  destruct (has_resolution_height t Hres) as (h & Hh & Hh0 & Hh' & _).
  assert (∀ t', has_width t' →
                ShakaVariantTrack.height t' = ShakaVariantTrack.height t →
                ShakaController.has_resolution t' = true) as Hres'.
  { intros t' Hw' Heq. apply has_resolution_fields. split; [|done].
    exists h. split; [congruence | done]. }
  exists l1, t, l2.
  cbn [ShakaController.quality_of VideoQuality.height VideoQuality.index].
  rewrite Hh'. split_and!; [done | done | done | done | | |].
  - by apply has_resolution_fields in Hres as [_ Hw].
  - intros t' Ht' Hw' Heq. apply Hbefore; [done | by apply Hres' |].
    apply key_of_height; [by apply Hres' | done | done].
  - intros t' Ht' Hw' Heq. apply Hafter; [done | by apply Hres' |].
    apply key_of_height; [by apply Hres' | done | done].
Qed.

(** In the sample, the quality of height 1080 is made from the variant with
    id 6 and bandwidth 10: the variant with id 4, of the same height and
    with bandwidth 50, comes first but has no width. *)
Lemma quality_from_first_best_variant_witness :
  ∃ before t after,
    Sample.tracks = before ++ t :: after
    ∧ VideoQuality.mk "shaka-quality-6" 1920 1080 10 "avc1.64001f" 0
      = ShakaController.quality_of 0 t
    ∧ ShakaVariantTrack.height t = Some 1080%Z.
Proof.
  assert (VideoQuality.mk "shaka-quality-6" 1920 1080 10 "avc1.64001f" 0
          ∈ added_qualities
              (ShakaController.updateQualityTracks Sample.trigger Sample.env
                 Sample.ready).2) as Hin
    by (apply (list_elem_of_lookup_2 _ 0); reflexivity).
  destruct (quality_from_first_best_variant Sample.trigger Sample.env Sample.ready _ Hin)
    as (before & t & after & Hsplit & Hq & Hh & _).
  exists before, t, after. split_and!; [exact Hsplit | exact Hq | exact Hh].
Defined.

(** ** The quality list does not depend on the order of the variants *)

Section QualityOrder.
Import ShakaController.
Implicit Types (t : ShakaVariantTrack.t) (l : list ShakaVariantTrack.t).

(** Height and bit rate of the quality made from a track. *)
Local Abbreviation rung t :=
  (Js.or_else Js.truthy_num (ShakaVariantTrack.height t) 0%Z,
   Js.or_else Js.truthy_num (Some (ShakaVariantTrack.bandwidth t)) 0%Z).

Lemma bitrate_bandwidth t :
  Js.or_else Js.truthy_num (Some (ShakaVariantTrack.bandwidth t)) 0%Z
  = ShakaVariantTrack.bandwidth t.
Proof.
  unfold Js.or_else, Js.truthy_num.
  by destruct (Z.eqb_spec (ShakaVariantTrack.bandwidth t) 0).
Qed.

Lemma rungs_elem l h b :
  (h, b) ∈ (λ t, rung t) <$> sortedQualities l ↔
  ∃ t, t ∈ l ∧ has_resolution t = true
       ∧ ShakaVariantTrack.height t = Some h ∧ ShakaVariantTrack.bandwidth t = b
       ∧ ∀ t', t' ∈ l → has_resolution t' = true →
               ShakaVariantTrack.height t' = Some h →
               (ShakaVariantTrack.bandwidth t' <= b)%Z.
Proof.
  rewrite list_elem_of_fmap. split.
  - intros (t & Heq & Hin). rewrite bitrate_bandwidth in Heq.
    destruct (sortedQualities_sound _ _ Hin) as (Hl & Hres & Hmax).
    destruct (has_resolution_height _ Hres) as (h' & Hh & _ & Hh' & _).
    rewrite Hh' in Heq. injection Heq as -> ->.
    exists t. split_and!; [done | done | done | done |].
    intros t' Ht' Hres' Hheight. apply Hmax; [done | done | congruence].
  - intros (t & Hin & Hres & Hh & Hb & Hmax).
    destruct (sortedQualities_complete _ _ Hin Hres) as (t' & Hin' & Hh').
    destruct (sortedQualities_sound _ _ Hin') as (Hl' & Hres' & Hmax').
    exists t'. split; [|done]. rewrite bitrate_bandwidth.
    destruct (has_resolution_height _ Hres') as (h' & Hh1 & _ & Hh2 & _).
    rewrite Hh2. f_equal; [congruence|].
    assert (ShakaVariantTrack.bandwidth t' <= b)%Z
      by (apply Hmax; [done | done | congruence]).
    assert (ShakaVariantTrack.bandwidth t <= ShakaVariantTrack.bandwidth t')%Z
      by (apply Hmax'; [done | done | congruence]).
    lia.
Qed.

Lemma rungs_sorted l :
  StronglySorted (λ a b : Z * Z, (b.1 < a.1)%Z) ((λ t, rung t) <$> sortedQualities l).
Proof.
  eapply StronglySorted_fmap; [|apply sortedQualities_sorted]. by intros x y.
Qed.

Lemma rungs_NoDup l : NoDup ((λ t, rung t) <$> sortedQualities l).
Proof.
  eapply (NoDup_fmap_1 fst). rewrite <- list_fmap_compose.
  apply sortedQualities_NoDup.
Qed.

Lemma rungs_Permutation l l' :
  l ≡ₚ l' → (λ t, rung t) <$> sortedQualities l = (λ t, rung t) <$> sortedQualities l'.
Proof.
  intros Hperm. apply (StronglySorted_unique_strong (λ a b : Z * Z, (b.1 < a.1)%Z)).
  - intros x1 x2 _ _ H1 H2. lia.
  - apply rungs_sorted.
  - apply rungs_sorted.
  - apply NoDup_Permutation; [apply rungs_NoDup | apply rungs_NoDup |].
    intros [h b]. rewrite !rungs_elem. by setoid_rewrite Hperm.
Qed.
End QualityOrder.

(** X2. The heights and bit rates of the quality list depend only on
    which variant tracks the library offers, not on the order in which it
    lists them: two listings that are permutations of each other give the
    same sequence of (height, bitrate) pairs. *)
Theorem quality_rungs_order_independent {L : Type} `{!Host L}
    (trigger : DOMEvent.t) (e e' : Env.t) (s : State.t L) :
  Env.getVariantTracks e ≡ₚ Env.getVariantTracks e' →
  (λ q, (VideoQuality.height q, VideoQuality.bitrate q))
    <$> added_qualities (ShakaController.updateQualityTracks trigger e s).2
  = (λ q, (VideoQuality.height q, VideoQuality.bitrate q))
      <$> added_qualities (ShakaController.updateQualityTracks trigger e' s).2.
Proof.
  intros Hperm.
  destruct (State.instance s) as [inst|] eqn:Hinst.
  2: { unfold ShakaController.updateQualityTracks. by rewrite Hinst. }
  rewrite !added_qualities_update by (by exists inst).
  assert (∀ l, (λ q, (VideoQuality.height q, VideoQuality.bitrate q))
                 <$> imap ShakaController.quality_of l
               = (λ t, (Js.or_else Js.truthy_num (ShakaVariantTrack.height t) 0%Z,
                        Js.or_else Js.truthy_num
                          (Some (ShakaVariantTrack.bandwidth t)) 0%Z)) <$> l) as Hrungs.
  { intros l. rewrite fmap_imap, <- imap_const. by apply imap_ext. }
  rewrite !Hrungs. by apply rungs_Permutation.
Qed.

Lemma quality_rungs_order_independent_witness :
  (λ q, (VideoQuality.height q, VideoQuality.bitrate q))
    <$> added_qualities
          (ShakaController.updateQualityTracks Sample.trigger Sample.env Sample.ready).2
  = (λ q, (VideoQuality.height q, VideoQuality.bitrate q))
      <$> added_qualities
            (ShakaController.updateQualityTracks Sample.trigger
               (Sample.env_of (reverse Sample.tracks)) Sample.ready).2.
Proof.
  apply quality_rungs_order_independent. symmetry. apply reverse_Permutation.
Defined.

(** ** What each Shaka event does *)

Section Events.
Import ShakaController.
Context {L : Type} `{!Host L}.
Implicit Types (e : Env.t) (s : State.t L) (t : Trace) (event : ShakaEvent.t).

Lemma filter_none {A} (P : A → Prop) `{!∀ x, Decision (P x)} (l : list A) :
  (∀ x, x ∈ l → ¬ P x) → filter P l = [].
Proof.
  induction l as [|x l IH]; intros Hl; [done|].
  rewrite filter_cons, decide_False by (apply Hl; left).
  apply IH. intros y Hy. apply Hl. by right.
Qed.

(** The handlers that run for an event, once [setup] has attached the
    listeners. *)
Lemma receive_handlers ctor e0 s0 e s event hs :
  State.instance s = State.instance (setup ctor e0 s0).1 →
  (filter (λ p : string * Handler, p.1 = ShakaEvent.type event)
     (((λ name : string, (name, H_dispatchShakaEvent)) <$> events)
        ++ [("error", H_onError)]
        ++ [ ("adaptation", H_onAdaptation); ("trackschanged", H_onTracksChanged);
             ("loaded", H_onLoaded); ("buffering", H_onBuffering) ])).*2 = hs →
  receive event e s = run_handlers hs event e s.
Proof.
  intros Hinst <-. unfold receive, player. by rewrite Hinst, setup_instance.
Qed.

Lemma receive_unsubscribed ctor e0 s0 e s event :
  State.instance s = State.instance (setup ctor e0 s0).1 →
  ShakaEvent.type event ∉ events → ShakaEvent.type event ≠ "error" →
  receive event e s = (s, []).
Proof.
  intros Hinst Hnot Herror.
  transitivity (run_handlers [] event e s); [|done].
  apply (receive_handlers ctor e0 s0); [done|].
  rewrite filter_none; [done|].
  intros [name h] Hin Hname. simpl in Hname. subst name.
  apply elem_of_app in Hin as [Hin|Hin].
  - apply list_elem_of_fmap in Hin as (name & [= Hname _] & Hin). by rewrite Hname in Hnot.
  - repeat (apply elem_of_cons in Hin as [[= Hname _]|Hin]);
      try (by apply elem_of_nil in Hin); try done;
      apply Hnot; rewrite Hname; unfold events;
      repeat (first [by left | right]).
Qed.

Lemma receive_tracked ctor e0 s0 e s event h :
  State.instance s = State.instance (setup ctor e0 s0).1 →
  (ShakaEvent.type event, h)
  ∈ [ ("adaptation", H_onAdaptation); ("trackschanged", H_onTracksChanged);
      ("loaded", H_onLoaded); ("buffering", H_onBuffering) ] →
  receive event e s
  = ((run_handler h event e s).1, dispatchShakaEvent event ++ (run_handler h event e s).2).
Proof.
  intros Hinst Hin.
  transitivity (run_handlers [H_dispatchShakaEvent; h] event e s).
  - apply (receive_handlers ctor e0 s0); [done|].
    repeat (apply elem_of_cons in Hin as [[= Htype ->]|Hin]);
      [..|by apply elem_of_nil in Hin]; rewrite Htype; by vm_compute.
  - rewrite !run_handlers_cons. cbn [run_handlers run_handler fst snd].
    by rewrite app_nil_r.
Qed.

Lemma receive_forwarded ctor e0 s0 e s event :
  State.instance s = State.instance (setup ctor e0 s0).1 →
  ShakaEvent.type event
  ∈ [ "loading"; "unloading"; "variantchanged"; "textchanged"; "texttrackvisibility";
      "streaming"; "manifestparsed" ] →
  receive event e s = (s, dispatchShakaEvent event).
Proof.
  intros Hinst Hin.
  transitivity (run_handlers [H_dispatchShakaEvent] event e s).
  - apply (receive_handlers ctor e0 s0); [done|].
    repeat (apply elem_of_cons in Hin as [Htype|Hin]);
      [..|by apply elem_of_nil in Hin]; rewrite Htype; by vm_compute.
  - rewrite !run_handlers_cons. cbn [run_handlers run_handler fst snd].
    by rewrite app_nil_r.
Qed.

End Events.

Section EventFacts.
Import ShakaController.
Context {L : Type} `{!Host L}.
Implicit Types (e : Env.t) (s : State.t L) (t : Trace) (event : ShakaEvent.t).

Lemma updateQualityTracks_instance trigger e s :
  State.instance (updateQualityTracks trigger e s).1 = State.instance s.
Proof.
  unfold updateQualityTracks. destruct (State.instance s) eqn:Hi; [|done].
  cbv zeta. case_match; [|by cbn].
  match goal with
  | |- context [select_quality ?q ?tr ?e ?s] =>
      pose proof (select_quality_state q tr e s) as Hsel;
      destruct (select_quality q tr e s) as [s' t']
  end.
  cbn [fst] in *. by subst s'.
Qed.

Lemma onTracksChanged_instance event e s :
  State.instance (onTracksChanged event e s).1 = State.instance s.
Proof.
  unfold onTracksChanged. case_decide; [apply updateQualityTracks_instance | done].
Qed.

Lemma updateAudioTracks_no_quality trigger e s :
  added_qualities (updateAudioTracks trigger e s) = [].
Proof.
  unfold updateAudioTracks. case_match; [|done].
  apply omap_None. intros a [->%list_elem_of_singleton|Hin]%elem_of_app; [done|].
  by apply elem_of_lookup_imap_1 in Hin as (i & x & -> & _).
Qed.

Lemma updateTextTracks_no_quality trigger e s :
  added_qualities (updateTextTracks trigger e s) = [].
Proof.
  unfold updateTextTracks. case_match; [|done].
  apply omap_None. intros a [->%list_elem_of_singleton|Hin]%elem_of_app; [done|].
  by apply list_elem_of_fmap in Hin as (x & -> & _).
Qed.

(** What ['loaded'] does when the player cannot play yet. *)
Lemma onLoaded_trace e s :
  is_Some (State.instance s) → Env.canPlay e = false →
  let trigger := createDOMEvent "loaded" NullDetail in
  let s1 := State.with_qualities (list_setAuto true (State.qualities s)) s in
  (onLoaded e s).2
  = [IsLive;
     Notify "stream-type-change"
       (StreamTypePayload (if Env.isLive e then "live" else "on-demand")) (Some trigger)]
      ++ (if Env.isLive e then
            [SeekRange]
              ++ (if (0 <? (Env.seekRange e).2 - (Env.seekRange e).1)%Z
                  then [Notify "duration-change"
                          (DurationPayload ((Env.seekRange e).2 - (Env.seekRange e).1))
                          (Some trigger)]
                  else [])
          else [])
      ++ [QualitiesSetAuto true trigger]
      ++ (updateQualityTracks trigger e s1).2
      ++ updateAudioTracks trigger e s
      ++ updateTextTracks trigger e s
      ++ [VideoDispatch "canplay" trigger].
Proof.
  intros [inst Hinst] HcanPlay trigger s1. unfold onLoaded. rewrite Hinst, HcanPlay.
  fold trigger. fold s1.
  pose proof (updateQualityTracks_instance trigger e s1) as Hsame.
  destruct (updateQualityTracks trigger e s1) as [s2 t3]. cbn [fst snd] in *.
  assert (State.instance s2 = Some inst) as Hs2 by (by rewrite Hsame).
  unfold updateAudioTracks, updateTextTracks. by rewrite Hs2, Hinst.
Qed.
End EventFacts.

(** X3. The two events that fill the quality list do not guard alike.
    ['trackschanged'] fills it only while it is empty; ['loaded'] fills it
    whenever the player cannot play yet, whatever the list holds.  So when
    ['trackschanged'] arrives first, on an empty list, and ['loaded']
    follows, the whole quality list is added a second time. *)
Theorem qualities_added_again_on_loaded {L : Type} `{!Host L}
    (ctor : ShakaConstructor) (e0 e : Env.t) (s0 s : State.t L)
    (changed loaded : ShakaEvent.t) :
  State.instance s = State.instance (ShakaController.setup ctor e0 s0).1 →
  ShakaEvent.type changed = "trackschanged" → ShakaEvent.type loaded = "loaded" →
  Env.canPlay e = false →
  let qualities :=
    imap ShakaController.quality_of
      (ShakaController.sortedQualities (Env.getVariantTracks e)) in
  (length_of (State.qualities s) ≠ 0 →
   added_qualities (ShakaController.receive changed e s).2 = [])
  ∧ (length_of (State.qualities s) = 0 →
     added_qualities (ShakaController.receive changed e s).2 = qualities)
  ∧ added_qualities (ShakaController.receive loaded e s).2 = qualities
  ∧ added_qualities
      (ShakaController.receive loaded e (ShakaController.receive changed e s).1).2
    = qualities.
Proof.
  intros Hinst Hchanged Hloaded HcanPlay qualities.
  assert (is_Some (State.instance s)) as Hsome
    by (rewrite Hinst, setup_instance; by eexists).
  assert (∀ s' : State.t L,
            State.instance s' = State.instance s →
            added_qualities (ShakaController.receive loaded e s').2 = qualities)
    as Hagain.
  { intros s' Hs'.
    assert (is_Some (State.instance s')) as Hsome' by (rewrite Hs'; exact Hsome).
    rewrite (receive_tracked ctor e0 s0 e s' loaded H_onLoaded);
      [|congruence | rewrite Hloaded; do 2 right; left].
    cbn [snd ShakaController.run_handler].
    rewrite onLoaded_trace by done.
    unfold added_qualities. rewrite !omap_app.
    fold (added_qualities
            (ShakaController.updateQualityTracks
               (ShakaController.createDOMEvent "loaded" NullDetail) e
               (State.with_qualities (list_setAuto true (State.qualities s')) s')).2).
    rewrite added_qualities_update by exact Hsome'.
    fold (added_qualities (ShakaController.updateAudioTracks
            (ShakaController.createDOMEvent "loaded" NullDetail) e s')).
    fold (added_qualities (ShakaController.updateTextTracks
            (ShakaController.createDOMEvent "loaded" NullDetail) e s')).
    rewrite updateAudioTracks_no_quality, updateTextTracks_no_quality.
    destruct (Env.isLive e); [destruct (0 <? _)%Z|]; cbn; by rewrite app_nil_r. }
  rewrite (receive_tracked ctor e0 s0 e s changed H_onTracksChanged);
    [|done | rewrite Hchanged; right; left].
  cbn [fst snd ShakaController.run_handler].
  split_and!.
  - intros Hfull. unfold ShakaController.onTracksChanged.
    by rewrite decide_False.
  - intros Hempty. unfold ShakaController.onTracksChanged.
    rewrite decide_True by done.
    unfold added_qualities. rewrite omap_app. cbn [omap list_omap app].
    by apply added_qualities_update.
  - by apply Hagain.
  - apply Hagain. apply onTracksChanged_instance.
Qed.

Lemma qualities_added_again_on_loaded_witness :
  added_qualities
    (ShakaController.receive (ShakaEvent.mk "loaded" None None None) Sample.env
       (ShakaController.receive (ShakaEvent.mk "trackschanged" None None None)
          Sample.env Sample.ready).1).2
  = imap ShakaController.quality_of (ShakaController.sortedQualities Sample.tracks).
Proof.
  exact (proj2 (proj2 (proj2
    (qualities_added_again_on_loaded 3 Sample.env Sample.env Sample.fresh Sample.ready
       (ShakaEvent.mk "trackschanged" None None None)
       (ShakaEvent.mk "loaded" None None None) eq_refl eq_refl eq_refl eq_refl)))).
Defined.

(** X4. A ['loaded'] event is acted upon once only: when the player can
    already play, the event is forwarded and nothing else happens.
    Otherwise the host is told the stream type (['live'] or ['on-demand']
    as the library reports), is told the duration only for a live stream
    whose seek range has a positive length (that length), gets the audio
    and text tracks of the library, and at the very end the video element
    fires ['canplay']. *)
Theorem loaded_event_handled {L : Type} `{!Host L}
    (ctor : ShakaConstructor) (e0 e : Env.t) (s0 s : State.t L) (event : ShakaEvent.t) :
  State.instance s = State.instance (ShakaController.setup ctor e0 s0).1 →
  ShakaEvent.type event = "loaded" →
  let t := (ShakaController.receive event e s).2 in
  let duration := ((Env.seekRange e).2 - (Env.seekRange e).1)%Z in
  (Env.canPlay e = true →
   ShakaController.receive event e s = (s, ShakaController.dispatchShakaEvent event))
  ∧ (Env.canPlay e = false →
     notifications t
     = ("stream-type-change",
        StreamTypePayload (if Env.isLive e then "live" else "on-demand"))
         :: (if Env.isLive e && (0 <? duration)%Z
             then [("duration-change", DurationPayload duration)] else [])
     ∧ added_audio t
       = imap ShakaController.audio_of (Env.getAudioLanguagesAndRoles e)
     ∧ added_text t = ShakaController.text_of <$> Env.getTextTracks e
     ∧ last t = Some (VideoDispatch "canplay"
                        (ShakaController.createDOMEvent "loaded" NullDetail))).
Proof.
  intros Hinst Htype t duration.
  assert (is_Some (State.instance s)) as Hsome
    by (rewrite Hinst, setup_instance; by eexists).
  subst t.
  rewrite (receive_tracked ctor e0 s0 e s event H_onLoaded);
    [|done | rewrite Htype; do 2 right; left].
  cbn [fst snd ShakaController.run_handler]. split.
  - intros HcanPlay. unfold ShakaController.onLoaded. rewrite HcanPlay.
    destruct (State.instance s); cbn [fst snd]; by rewrite app_nil_r.
  - intros HcanPlay. rewrite onLoaded_trace by done.
    set (trigger := ShakaController.createDOMEvent "loaded" NullDetail).
    set (s1 := State.with_qualities _ s).
    pose proof (updateQualityTracks_updates trigger e s1) as Hq.
    pose proof (updateAudioTracks_updates trigger e s) as Ha.
    pose proof (updateTextTracks_updates trigger e s) as Ht.
    split_and!.
    + unfold notifications. rewrite !omap_app.
      fold (notifications (ShakaController.updateQualityTracks trigger e s1).2).
      fold (notifications (ShakaController.updateAudioTracks trigger e s)).
      fold (notifications (ShakaController.updateTextTracks trigger e s)).
      rewrite (notifications_updates _ Hq), (notifications_updates _ Ha),
        (notifications_updates _ Ht).
      fold duration. by destruct (Env.isLive e), (0 <? duration)%Z.
    + unfold added_audio. rewrite !omap_app.
      fold (added_audio (ShakaController.updateAudioTracks trigger e s)).
      rewrite added_audio_update by done.
      assert (omap (λ a, match a with AudioTracksAdd x _ => Some x | _ => None end)
                (ShakaController.updateQualityTracks trigger e s1).2 = []) as ->.
      { apply omap_quality_updates; [by intros []|].
        apply updateQualityTracks_actions. }
      assert (omap (λ a, match a with AudioTracksAdd x _ => Some x | _ => None end)
                (ShakaController.updateTextTracks trigger e s) = []) as ->.
      { unfold ShakaController.updateTextTracks. case_match; [|done].
        rewrite omap_app, (omap_None _ (_ <$> _))
          by (by intros a (x & -> & _)%list_elem_of_fmap). done. }
      destruct (Env.isLive e); [destruct (0 <? _)%Z|]; cbn; by rewrite app_nil_r.
    + unfold added_text. rewrite !omap_app.
      fold (added_text (ShakaController.updateTextTracks trigger e s)).
      rewrite added_text_update by done.
      assert (omap (λ a, match a with TextTracksAdd x _ _ => Some x | _ => None end)
                (ShakaController.updateQualityTracks trigger e s1).2 = []) as ->.
      { apply omap_quality_updates; [by intros []|].
        apply updateQualityTracks_actions. }
      assert (omap (λ a, match a with TextTracksAdd x _ _ => Some x | _ => None end)
                (ShakaController.updateAudioTracks trigger e s) = []) as ->.
      { unfold ShakaController.updateAudioTracks. case_match; [|done].
        rewrite omap_app, (omap_None _ (imap _ _))
          by (by intros a (i & x & -> & _)%elem_of_lookup_imap_1). done. }
      destruct (Env.isLive e); [destruct (0 <? _)%Z|]; cbn; by rewrite app_nil_r.
    + rewrite !app_assoc. apply last_snoc.
Qed.

Lemma loaded_event_handled_witness :
  notifications
    (ShakaController.receive (ShakaEvent.mk "loaded" None None None)
       Sample.env Sample.ready).2
  = [("stream-type-change", StreamTypePayload "on-demand")].
Proof.
  exact (proj1 (proj2
    (loaded_event_handled 3 Sample.env Sample.env Sample.fresh Sample.ready
       (ShakaEvent.mk "loaded" None None None) eq_refl eq_refl) eq_refl)).
Defined.

(** X5. A ['buffering'] event tells the host that the player is waiting
    exactly when the event's [buffering] flag is true; the end of buffering
    (flag false or missing) is only forwarded as an event.  Neither case
    calls the library or changes the adapter's state. *)
Theorem buffering_event_handled {L : Type} `{!Host L}
    (ctor : ShakaConstructor) (e0 e : Env.t) (s0 s : State.t L) (event : ShakaEvent.t) :
  State.instance s = State.instance (ShakaController.setup ctor e0 s0).1 →
  ShakaEvent.type event = "buffering" →
  (ShakaController.receive event e s).1 = s
  ∧ library_calls (ShakaController.receive event e s).2 = []
  ∧ notifications (ShakaController.receive event e s).2
    = (if bool_decide (ShakaEvent.buffering event = Some true)
       then [("waiting", NoPayload)] else []).
Proof.
  intros Hinst Htype.
  rewrite (receive_tracked ctor e0 s0 e s event H_onBuffering);
    [|done | rewrite Htype; do 3 right; left].
  cbn [fst snd ShakaController.run_handler]. unfold ShakaController.onBuffering.
  by destruct (ShakaEvent.buffering event) as [[]|].
Qed.

Lemma buffering_event_handled_witness :
  notifications
    (ShakaController.receive (ShakaEvent.mk "buffering" (Some true) None None)
       Sample.env Sample.ready).2
  = [("waiting", NoPayload)].
Proof.
  exact (proj2 (proj2
    (buffering_event_handled 3 Sample.env Sample.env Sample.fresh Sample.ready
       (ShakaEvent.mk "buffering" (Some true) None None) eq_refl eq_refl))).
Defined.

Section Adaptation.
Import ShakaController.
Context {L : Type} `{!Host L}.
Implicit Types (e : Env.t) (s : State.t L).


(** Delivered from outside or fired from within a selection, a ['change']
    runs the same listeners: [change] and [fire_change] agree on the
    listeners that the adapter attaches. *)
Lemma change_fire_change target e s :
  Forall (λ p : ListTarget * string * Handler,
            p.2 = H_onUserQualityChange ∨ p.2 = H_onUserAudioChange)
    (State.hostListeners s) →
  change target e s = (s, fire_change target e s).
Proof.
  unfold change, fire_change. intros Hhost.
  assert (Forall (λ p : ListTarget * string * Handler,
                    p.2 = H_onUserQualityChange ∨ p.2 = H_onUserAudioChange)
            (filter (λ p : ListTarget * string * Handler,
                       p.1.1 = target ∧ p.1.2 = "change") (State.hostListeners s)))
    as Hfiltered.
  { rewrite Forall_forall in *. intros p [_ Hp]%list_elem_of_filter. by apply Hhost. }
  induction Hfiltered as [|[[tg type] h] l Hh _ IH]; [done|].
  rewrite !fmap_cons, run_handlers_cons. cbn [concat snd] in *.
  destruct Hh as [-> | ->]; cbn [run_handler run_listener fst snd]; by rewrite IH.
Qed.


End Adaptation.



(** X7. The message of an error notification: for an error event it is
    the library's message when that is present and not empty, and otherwise
    ['Shaka error code: '] followed by the error code; for a rejected load
    it is the message of the rejection value when that is an [Error], and
    otherwise ['Failed to load source'].  The code of the notification is 1
    in both cases. *)
Theorem error_notification_message {L : Type} `{!Host L}
    (ctor : ShakaConstructor) (e0 e : Env.t) (s0 s : State.t L) :
  State.instance s = State.instance (ShakaController.setup ctor e0 s0).1 →
  (∀ event error,
     ShakaEvent.type event = "error" → ShakaEvent.detail event = Some error →
     ∃ message,
       notifications (ShakaController.receive event e s).2
       = [("error", ErrorPayload (MediaError.mk message 1 (ShakaCause error)))]
       ∧ (∀ m, ShakaError.message error = Some m → m ≠ "" → message = m)
       ∧ (ShakaError.message error = None ∨ ShakaError.message error = Some "" →
          message = "Shaka error code: " +:+ pretty (ShakaError.code error)))
  ∧ (∀ src uri error,
       Src.src src = SrcString uri → Env.load e = Some error →
       ∃ message,
         notifications (ShakaController.loadSource src e s)
         = [("error", ErrorPayload (MediaError.mk message 1 (ThrownCause error)))]
         ∧ (Thrown.isError error = true → message = Thrown.message error)
         ∧ (Thrown.isError error = false → message = "Failed to load source")).
Proof.
  intros Hinst. split.
  - intros event error Htype Hdetail.
    rewrite (receive_error ctor e0 s0) by done. cbn [snd].
    unfold ShakaController.onError, ShakaController.onFatalError. rewrite Hdetail.
    eexists. split_and!; [reflexivity | |].
    + intros m -> Hm. unfold Js.or_else, Js.truthy_str.
      by destruct (String.eqb_spec m "").
    + by intros [-> | ->].
  - intros src uri error Hsrc Hload. rewrite controller_loadSource_eq.
    rewrite Hsrc, Hinst, setup_instance, Hload.
    eexists. split_and!; [reflexivity | by intros -> | by intros ->].
Qed.

Lemma error_notification_message_witness :
  ∃ message,
    notifications
      (ShakaController.receive
         (ShakaEvent.mk "error" None None (Some (ShakaError.mk 2 1 1001 None)))
         Sample.env Sample.ready).2
    = [("error",
        ErrorPayload (MediaError.mk message 1 (ShakaCause (ShakaError.mk 2 1 1001 None))))]
    ∧ message = "Shaka error code: " +:+ pretty 1001%Z.
Proof.
  destruct (error_notification_message 3 Sample.env Sample.env Sample.fresh Sample.ready
              eq_refl) as [Hevent _].
  destruct (Hevent (ShakaEvent.mk "error" None None (Some (ShakaError.mk 2 1 1001 None)))
              (ShakaError.mk 2 1 1001 None) eq_refl eq_refl)
    as (message & Hnote & _ & Hfallback).
  exists message. split; [exact Hnote|]. exact (Hfallback (or_introl eq_refl)).
Defined.

(** X8. Events for which [setup] attached no forwarding listener never
    reach the host player as events.  This includes ['error']: the library's
    errors are reported through [notify] alone, and an error event without
    a detail is dropped altogether.  An event of any other type that is not
    subscribed does nothing at all. *)
Theorem unsubscribed_events_not_dispatched {L : Type} `{!Host L}
    (ctor : ShakaConstructor) (e0 e : Env.t) (s0 s : State.t L) (event : ShakaEvent.t) :
  State.instance s = State.instance (ShakaController.setup ctor e0 s0).1 →
  ShakaEvent.type event ∉ ShakaController.events →
  player_dispatches (ShakaController.receive event e s).2 = []
  ∧ (ShakaEvent.type event ≠ "error" ∨ ShakaEvent.detail event = None →
     ShakaController.receive event e s = (s, [])).
Proof.
  intros Hinst Hnot.
  destruct (decide (ShakaEvent.type event = "error")) as [Herror|Hother].
  - rewrite (receive_error ctor e0 s0) by done. cbn [snd].
    unfold ShakaController.onError. split.
    + by destruct (ShakaEvent.detail event).
    + intros [Hne | ->]; done.
  - rewrite (receive_unsubscribed ctor e0 s0) by done. done.
Qed.

Lemma unsubscribed_events_not_dispatched_witness :
  ShakaController.receive (ShakaEvent.mk "emsg" None None None) Sample.env Sample.ready
  = (Sample.ready, []).
Proof.
  assert ("emsg" ∉ ShakaController.events) as Hnot.
  { unfold ShakaController.events. rewrite !not_elem_of_cons.
    split_and!; try discriminate. apply not_elem_of_nil. }
  destruct (unsubscribed_events_not_dispatched 3 Sample.env Sample.env Sample.fresh
              Sample.ready (ShakaEvent.mk "emsg" None None None) eq_refl Hnot)
    as [_ Hnothing].
  apply Hnothing. left. discriminate.
Defined.

(** ** Loading a source *)

(** X9. [ShakaProvider.loadSource] calls the library only for a string
    source and only once an instance exists.  A source that is not a string
    is removed and nothing else happens.  A string source given before the
    instance exists is still appended to the media element and recorded as
    the current source, although nothing loads it.  With an instance, the
    library's [load] is called once with the source string, and a load that
    succeeds notifies nothing. *)
Theorem loadSource_cases {L : Type} `{!Host L}
    (src : Src.t) (preload : option string) (e : Env.t) (s : State.t L) :
  (∀ o, Src.src src = SrcObject o →
        ShakaProvider.loadSource src preload e s = (s, [RemoveSource]))
  ∧ (∀ uri, Src.src src = SrcString uri →
       State.currentSrc (ShakaProvider.loadSource src preload e s).1 = Some src
       ∧ (State.instance s = None →
          library_calls (ShakaProvider.loadSource src preload e s).2 = []
          ∧ notifications (ShakaProvider.loadSource src preload e s).2 = [])
       ∧ (is_Some (State.instance s) →
          library_calls (ShakaProvider.loadSource src preload e s).2 = [Await (Load uri)]
          ∧ (Env.load e = None →
             notifications (ShakaProvider.loadSource src preload e s).2 = []))).
Proof.
  rewrite provider_loadSource_eq, controller_loadSource_eq. split.
  - by intros o ->.
  - intros uri ->. split_and!; [done | by intros -> |].
    intros [inst ->]. split; [by destruct (Env.load e)|]. by intros ->.
Qed.

Lemma loadSource_cases_witness :
  State.currentSrc
    (ShakaProvider.loadSource (Src.mk (SrcString "a.mpd") None) None
       Sample.env Sample.fresh).1
  = Some (Src.mk (SrcString "a.mpd") None)
  ∧ library_calls
      (ShakaProvider.loadSource (Src.mk (SrcString "a.mpd") None) None
         Sample.env Sample.fresh).2 = [].
Proof.
  destruct (loadSource_cases (Src.mk (SrcString "a.mpd") None) None
              Sample.env Sample.fresh) as [_ Hstring].
  destruct (Hstring "a.mpd" eq_refl) as (Hcurrent & Hnone & _).
  split; [exact Hcurrent | exact (proj1 (Hnone eq_refl))].
Defined.

(** ** Audio and text tracks chosen by the user *)

(** X10. When the host's audio list fires ['change'] with a track
    selected, the adapter reads the language/role pairs again and, if the
    selected index is within them, asks the library for the language and
    role of the pair at that index, the pair from which
    [#updateAudioTracks] made the audio track with id ['shaka-audio-' +
    index].  An index outside the pairs (negative, or not below their
    number) selects nothing; with no track selected, or no instance, the
    library is not called at all. *)
Theorem user_audio_change_forwarded {L : Type} `{!Host L}
    (ctor : ShakaConstructor) (e0 e : Env.t) (s0 s : State.t L) :
  State.hostListeners s0 = [] →
  State.hostListeners s = State.hostListeners (ShakaController.setup ctor e0 s0).1 →
  let t := (ShakaController.change AudioTracks e s).2 in
  let pairs := Env.getAudioLanguagesAndRoles e in
  (is_Some (State.instance s) → Env.audio_selected e = true →
   (∀ i langRole,
      pairs !! i = Some langRole → Env.audio_selectedIndex e = Z.of_nat i →
      t = [GetAudioLanguagesAndRoles;
           SelectAudioLanguage (ShakaLanguageRole.language langRole)
             (ShakaLanguageRole.role langRole)]
      ∧ ∃ a, added_audio (ShakaController.updateAudioTracks
                            (ShakaController.createDOMEvent "loaded" NullDetail) e s) !! i
             = Some a
          ∧ AudioTrack.id a = "shaka-audio-" +:+ pretty i
          ∧ AudioTrack.language a = ShakaLanguageRole.language langRole)
   ∧ ((Env.audio_selectedIndex e < 0 ∨ Z.of_nat (length pairs) <= Env.audio_selectedIndex e)%Z →
      t = [GetAudioLanguagesAndRoles]))
  ∧ (State.instance s = None ∨ Env.audio_selected e = false → t = []).
Proof.
  intros Hs0 Hs t pairs.
  assert (t = ShakaController.onUserAudioChange e s) as ->.
  { subst t. unfold ShakaController.change.
    rewrite Hs, setup_hostListeners, Hs0.
    match goal with
    | |- context [ (filter ?P ?l).*2 ] =>
        let hs := fresh "hs" in
        set (hs := (filter P l).*2); vm_compute in hs; subst hs
    end.
    rewrite run_handlers_cons. cbn [ShakaController.run_handlers
      ShakaController.run_handler fst snd].
    by rewrite app_nil_r. }
  unfold ShakaController.onUserAudioChange. fold pairs. split.
  - intros [inst Hinst] Hselected. rewrite Hinst, Hselected. split.
    + intros i langRole Hlook Hindex. split.
      * rewrite Hindex, Nat2Z.id, Hlook.
        apply lookup_lt_Some in Hlook.
        destruct (Z.leb_spec 0 (Z.of_nat i)); [|lia].
        destruct (Z.ltb_spec (Z.of_nat i) (Z.of_nat (length pairs))); [|lia]. done.
      * exists (ShakaController.audio_of i langRole).
        rewrite added_audio_update by (by exists inst).
        fold pairs. rewrite list_lookup_imap, Hlook. split_and!; [done | done |].
        unfold ShakaController.audio_of. cbn [AudioTrack.language].
        unfold Js.or_else, Js.truthy_str.
        by destruct (String.eqb_spec (ShakaLanguageRole.language langRole) "").
    + intros [Hneg | Hbig].
      * destruct (Z.leb_spec 0 (Env.audio_selectedIndex e)); [lia | done].
      * destruct (Z.ltb_spec (Env.audio_selectedIndex e) (Z.of_nat (length pairs)));
          [lia|]. by rewrite andb_false_r.
  - intros [-> | Hnone]; [done|]. rewrite Hnone. by destruct (State.instance s).
Qed.

Lemma user_audio_change_forwarded_witness :
  (ShakaController.change AudioTracks
     (Env.mk Sample.tracks Sample.audio Sample.text (Some 7) false (0, 10)%Z None None
        None (inr None) true false false 0 false true None true 1)
     Sample.ready).2
  = [GetAudioLanguagesAndRoles; SelectAudioLanguage "fr" "commentary"].
Proof.
  destruct (user_audio_change_forwarded 3 Sample.env
              (Env.mk Sample.tracks Sample.audio Sample.text (Some 7) false (0, 10)%Z
                 None None None (inr None) true false false 0 false true None true 1)
              Sample.fresh Sample.ready eq_refl eq_refl) as [Hselected _].
  destruct (Hselected (ex_intro _ _ eq_refl) eq_refl) as [Hin _].
  exact (proj1 (Hin 1 (ShakaLanguageRole.mk "fr" "commentary" (Some "Commentaire"))
                  eq_refl eq_refl)).
Defined.

(** X11. The mode of a text track made by [#updateTextTracks] drives the
    library's text display.  Set to ['showing'], the adapter looks the
    Shaka track up again by id: when the library still lists it (and ids
    are distinct) it selects that very track and switches the display on;
    when no track has that id any more it changes nothing.  Any other mode
    switches the display off without selecting.  Without an instance the
    library is not called. *)
Theorem text_mode_change_forwarded {L : Type} `{!Host L}
    (shakaTrack : ShakaTextTrack.t) (e : Env.t) (s : State.t L) :
  (is_Some (State.instance s) →
   (shakaTrack ∈ Env.getTextTracks e →
    NoDup (ShakaTextTrack.id <$> Env.getTextTracks e) →
    ShakaController.onModeChange shakaTrack "showing" e s
    = [GetTextTracks; SelectTextTrack shakaTrack; SetTextTrackVisibility true])
   ∧ (ShakaTextTrack.id shakaTrack ∉ ShakaTextTrack.id <$> Env.getTextTracks e →
      ShakaController.onModeChange shakaTrack "showing" e s = [GetTextTracks])
   ∧ (∀ mode, mode ≠ "showing" →
        ShakaController.onModeChange shakaTrack mode e s = [SetTextTrackVisibility false])
   ∧ (∀ trigger x source trigger',
        TextTracksAdd x source trigger'
        ∈ ShakaController.updateTextTracks trigger e s →
        source ∈ Env.getTextTracks e ∧ x = ShakaController.text_of source))
  ∧ (State.instance s = None → ∀ mode, ShakaController.onModeChange shakaTrack mode e s = []).
Proof.
  unfold ShakaController.onModeChange. split.
  - intros [inst Hinst]. rewrite Hinst. split_and!.
    + intros Hin Hnd. cbn.
      apply list_elem_of_split in Hin as (l1 & l2 & Hsplit). rewrite Hsplit in Hnd |- *.
      rewrite find_first; [done | by apply Z.eqb_eq |].
      intros y Hy. apply Z.eqb_neq. intros Heq.
      rewrite fmap_app, fmap_cons in Hnd. apply NoDup_app in Hnd as (_ & Hdisjoint & _).
      apply (Hdisjoint (ShakaTextTrack.id y)).
      * apply list_elem_of_fmap. by exists y.
      * rewrite Heq. left.
    + intros Hnot. cbn. rewrite find_None; [done|].
      intros y Hy. apply Z.eqb_neq. intros Heq. apply Hnot. rewrite <- Heq.
      apply list_elem_of_fmap. by exists y.
    + intros mode Hmode. by destruct (String.eqb_spec mode "showing").
    + intros trigger x source trigger' Hin. unfold ShakaController.updateTextTracks in Hin.
      rewrite Hinst in Hin.
      apply elem_of_app in Hin as [Hin%list_elem_of_singleton|Hin]; [done|].
      apply list_elem_of_fmap in Hin as (y & [= -> -> ->] & Hy). done.
  - by intros ->.
Qed.

Lemma text_mode_change_forwarded_witness :
  ShakaController.onModeChange
    (ShakaTextTrack.mk 8 false "de" None None None) "showing" Sample.env Sample.ready
  = [GetTextTracks; SelectTextTrack (ShakaTextTrack.mk 8 false "de" None None None);
     SetTextTrackVisibility true].
Proof.
  destruct (text_mode_change_forwarded (ShakaTextTrack.mk 8 false "de" None None None)
              Sample.env Sample.ready) as [Hinst _].
  destruct (Hinst (ex_intro _ _ eq_refl)) as [Hshow _].
  apply Hshow.
  - right. left.
  - apply (bool_decide_unpack _). vm_compute. exact I.
Defined.

(** ** Selection of qualities *)

Lemma find_Some_split {A} (p : A → bool) (l : list A) x :
  Js.find p l = Some x →
  ∃ l1 l2, l = l1 ++ x :: l2 ∧ p x = true ∧ ∀ y, y ∈ l1 → p y = false.
Proof.
  induction l as [|y l IH]; simpl; [done|].
  destruct (p y) eqn:Hp.
  - intros [= ->]. exists [], l. split_and!; [done | done |].
    intros z Hz. by apply elem_of_nil in Hz.
  - intros Hfind. destruct (IH Hfind) as (l1 & l2 & -> & Hx & Hl1).
    exists (y :: l1), l2. split_and!; [done | done |].
    intros z [->|Hz]%elem_of_cons; [done | by apply Hl1].
Qed.

Lemma find_is_Some {A} (p : A → bool) (l : list A) x :
  x ∈ l → p x = true → is_Some (Js.find p l).
Proof.
  induction l as [|y l IH]; intros Hin Hx; [by apply elem_of_nil in Hin|].
  simpl. destruct (p y) eqn:Hp; [by eexists|].
  apply elem_of_cons in Hin as [->|Hin]; [congruence | by apply IH].
Qed.

(** X12. Every quality that [#updateQualityTracks] offers can be chosen:
    when the user selects one of them (with the library's variant tracks
    unchanged), a variant track of the quality's height is always found,
    and the library is asked for the first variant of that height in its
    listing.  That variant is chosen by height alone: it need not be the
    variant the quality's bit rate and id were taken from. *)
Theorem offered_quality_selectable {L : Type} `{!Host L}
    (trigger : DOMEvent.t) (e : Env.t) (s s' : State.t L) (q : VideoQuality.t) :
  q ∈ added_qualities (ShakaController.updateQualityTracks trigger e s).2 →
  is_Some (State.instance s') → auto (State.qualities s') = false →
  selected (State.qualities s') = Some q →
  ∃ before track after,
    Env.getVariantTracks e = before ++ track :: after
    ∧ ShakaVariantTrack.height track = Some (VideoQuality.height q)
    ∧ (∀ t', t' ∈ before →
             ShakaVariantTrack.height t' ≠ Some (VideoQuality.height q))
    ∧ library_calls (ShakaController.onUserQualityChange e s')
      = [Configure (Abr false); GetVariantTracks;
         SelectVariantTrack track
           (bool_decide (switch (State.qualities s') = "current"))].
Proof.
  intros Hq [inst Hinst] Hauto Hselected.
  assert (∀ track,
            ShakaController.same_height (ShakaVariantTrack.height track) q = true
            ↔ ShakaVariantTrack.height track = Some (VideoQuality.height q)) as Hsame.
  { intros track. unfold ShakaController.same_height.
    destruct (ShakaVariantTrack.height track) as [n|]; [|done].
    rewrite Z.eqb_eq. split; [by intros -> | by intros [= ->]]. }
  assert (∃ t0, t0 ∈ Env.getVariantTracks e
                ∧ ShakaVariantTrack.height t0 = Some (VideoQuality.height q))
    as (t0 & Hin0 & Hh0).
  { destruct (State.instance s) as [i|] eqn:Hi.
    2: { unfold ShakaController.updateQualityTracks in Hq. rewrite Hi in Hq.
         by apply elem_of_nil in Hq. }
    rewrite added_qualities_update in Hq by (by exists i).
    apply elem_of_lookup_imap_1 in Hq as (n & t0 & -> & Hlook).
    apply list_elem_of_lookup_2 in Hlook.
    destruct (sortedQualities_sound _ _ Hlook) as (Hin & Hres & _).
    exists t0. split; [done|].
    destruct (has_resolution_height _ Hres) as (h & Hh & _ & Hh' & _).
    cbn [VideoQuality.height ShakaController.quality_of]. by rewrite Hh'. }
  destruct (find_is_Some
              (λ track, ShakaController.same_height (ShakaVariantTrack.height track) q)
              _ t0 Hin0 (proj2 (Hsame t0) Hh0)) as [track Hfind].
  destruct (find_Some_split _ _ _ Hfind) as (before & after & Hsplit & Htrack & Hbefore).
  exists before, track, after. split_and!; [done | by apply Hsame | |].
  - intros t' Ht' Hh. apply Hsame in Hh. by rewrite Hbefore in Hh.
  - unfold ShakaController.onUserQualityChange. rewrite Hinst, Hauto, Hselected, Hfind.
    destruct (String.eqb_spec (switch (State.qualities s')) "current").
    + rewrite bool_decide_eq_true_2 by done. by destruct (Env.IS_CHROME e).
    + rewrite bool_decide_eq_false_2 by done. by destruct (Env.IS_CHROME e).
Qed.

Lemma offered_quality_selectable_witness :
  ∃ before track after,
    Sample.tracks = before ++ track :: after
    ∧ ShakaVariantTrack.height track = Some 1080%Z
    ∧ (∀ t', t' ∈ before → ShakaVariantTrack.height t' ≠ Some 1080%Z)
    ∧ library_calls
        (ShakaController.onUserQualityChange Sample.env
           (State.with_qualities
              (SimpleHost.mk [] false
                 (Some (VideoQuality.mk "shaka-quality-6" 1920 1080 10 "avc1.64001f" 0))
                 "next")
              Sample.ready))
      = [Configure (Abr false); GetVariantTracks; SelectVariantTrack track false].
Proof.
  assert (VideoQuality.mk "shaka-quality-6" 1920 1080 10 "avc1.64001f" 0
          ∈ added_qualities
              (ShakaController.updateQualityTracks Sample.trigger Sample.env
                 Sample.ready).2) as Hin
    by (apply (list_elem_of_lookup_2 _ 0); reflexivity).
  exact (offered_quality_selectable Sample.trigger Sample.env Sample.ready
           (State.with_qualities
              (SimpleHost.mk [] false
                 (Some (VideoQuality.mk "shaka-quality-6" 1920 1080 10 "avc1.64001f" 0))
                 "next")
              Sample.ready)
           _ Hin (ex_intro _ _ eq_refl) eq_refl eq_refl).
Defined.

(** The variant found for the 1080p quality of the sample is the one
    without a width, not the one the quality was made from. *)
Example selected_variant_differs :
  library_calls
    (ShakaController.onUserQualityChange Sample.env
       (State.with_qualities
          (SimpleHost.mk [] false
             (Some (VideoQuality.mk "shaka-quality-6" 1920 1080 10 "avc1.64001f" 0))
             "next")
          Sample.ready))
  = [Configure (Abr false); GetVariantTracks;
     SelectVariantTrack (Sample.variant 4 50 None (Some 1080%Z) false) false].
Proof. reflexivity. Qed.

(** X13. After adding the qualities, [#updateQualityTracks] marks the
    active one: it selects at most one quality, and only if some variant
    track is active; the selected quality is an entry of the host's list
    as it is after the additions, and its height is the height of the
    first active variant track. *)
Theorem active_quality_selected {L : Type} `{!Host L}
    (trigger : DOMEvent.t) (e : Env.t) (s : State.t L) :
  let t := (ShakaController.updateQualityTracks trigger e s).2 in
  length (selected_qualities t) ≤ 1
  ∧ (∀ q, q ∈ selected_qualities t →
       ∃ before activeTrack after,
         Env.getVariantTracks e = before ++ activeTrack :: after
         ∧ ShakaVariantTrack.active activeTrack = true
         ∧ (∀ t', t' ∈ before → ShakaVariantTrack.active t' = false)
         ∧ ShakaVariantTrack.height activeTrack = Some (VideoQuality.height q)
         ∧ q ∈ toArray (foldl (λ l x, list_add x l) (State.qualities s)
                          (added_qualities t)))
  ∧ ((∀ t', t' ∈ Env.getVariantTracks e → ShakaVariantTrack.active t' = false) →
     selected_qualities t = []).
Proof.
  intros t.
  destruct (State.instance s) as [inst|] eqn:Hinst.
  2: { subst t. unfold ShakaController.updateQualityTracks. rewrite Hinst.
       split_and!; [simpl; lia | | done]. intros q Hq. by apply elem_of_nil in Hq. }
  assert (added_qualities t
          = imap ShakaController.quality_of
              (ShakaController.sortedQualities (Env.getVariantTracks e))) as Hadded
    by (apply added_qualities_update; by exists inst).
  rewrite Hadded. subst t. unfold ShakaController.updateQualityTracks. rewrite Hinst.
  set (added := imap _ _).
  set (qualities := foldl _ _ added).
  assert (selected_qualities ((λ q, QualitiesAdd q trigger) <$> added) = []) as Hnone
    by (apply omap_None; by intros a (x & -> & _)%list_elem_of_fmap).
  destruct (Js.find ShakaVariantTrack.active (Env.getVariantTracks e))
    as [activeTrack|] eqn:Hactive.
  2: { cbn [snd]. unfold selected_qualities in *. rewrite omap_app, Hnone.
       split_and!; [simpl; lia | | done]. intros q Hq. by apply elem_of_nil in Hq. }
  destruct (Js.find _ (toArray qualities)) as [q0|] eqn:Hfind.
  2: { cbn [snd]. unfold selected_qualities in *. rewrite omap_app, Hnone.
       split_and!; [simpl; lia | | done]. intros q Hq. by apply elem_of_nil in Hq. }
  destruct (select_quality_trace q0 trigger e (State.with_qualities qualities s))
    as (tchange & Htrace & Huser%selected_qualities_user & _).
  destruct (ShakaController.select_quality _ _ _ _) as [s' tsel].
  cbn [snd] in *. subst tsel.
  unfold selected_qualities in *. rewrite !omap_app, Hnone. cbn. rewrite Huser.
  split_and!; [simpl; lia | |].
  - intros q ->%list_elem_of_singleton.
    destruct (find_Some_split _ _ _ Hactive) as (before & after & Hsplit & Hon & Hoff).
    destruct (find_Some_elem _ _ _ Hfind) as [Hin Hheight].
    exists before, activeTrack, after. split_and!; [done | done | done | | done].
    unfold ShakaController.same_height in Hheight.
    destruct (ShakaVariantTrack.height activeTrack) as [n|]; [|done].
    apply Z.eqb_eq in Hheight. by rewrite Hheight.
  - intros Hoff. rewrite find_None in Hactive; done.
Qed.

Lemma active_quality_selected_witness :
  ∃ before activeTrack after,
    Sample.tracks = before ++ activeTrack :: after
    ∧ ShakaVariantTrack.active activeTrack = true
    ∧ (∀ t', t' ∈ before → ShakaVariantTrack.active t' = false)
    ∧ ShakaVariantTrack.height activeTrack = Some 720%Z.
Proof.
  destruct (active_quality_selected Sample.trigger Sample.env Sample.ready)
    as (_ & Hselected & _).
  destruct (Hselected (VideoQuality.mk "shaka-quality-3" 1280 720 900 "avc1.64001f" 1))
    as (before & activeTrack & after & Hsplit & Hon & Hoff & Hheight & _).
  - apply (list_elem_of_lookup_2 _ 0). reflexivity.
  - exists before, activeTrack, after. split_and!; [exact Hsplit | exact Hon | exact Hoff | exact Hheight].
Defined.

(** X14. Only variants with a picture become qualities: no quality has
    width or height 0, a listing in which no variant has both a height and
    a width (audio only) yields no quality at all, and there are never more
    qualities than variant tracks. *)
Theorem qualities_have_resolution {L : Type} `{!Host L}
    (trigger : DOMEvent.t) (e : Env.t) (s : State.t L) :
  let qs := added_qualities (ShakaController.updateQualityTracks trigger e s).2 in
  (∀ q, q ∈ qs → VideoQuality.width q ≠ 0%Z ∧ VideoQuality.height q ≠ 0%Z)
  ∧ ((∀ t, t ∈ Env.getVariantTracks e → ShakaController.has_resolution t = false) →
     qs = [])
  ∧ length qs ≤ length (Env.getVariantTracks e).
Proof.
  intros qs. subst qs.
  destruct (State.instance s) as [inst|] eqn:Hinst.
  2: { unfold ShakaController.updateQualityTracks. rewrite Hinst.
       split_and!; [|done | simpl; lia]. intros q Hq. by apply elem_of_nil in Hq. }
  rewrite added_qualities_update by (by exists inst). split_and!.
  - intros q (i & t & -> & Hlook)%elem_of_lookup_imap_1.
    apply list_elem_of_lookup_2 in Hlook.
    destruct (sortedQualities_sound _ _ Hlook) as (_ & Hres & _).
    destruct (has_resolution_height _ Hres) as (h & _ & Hh & Hh' & _).
    destruct (has_resolution_width _ Hres) as (w & _ & Hw & Hw').
    cbn [VideoQuality.width VideoQuality.height ShakaController.quality_of].
    by rewrite Hh', Hw'.
  - intros Hnone.
    destruct (ShakaController.sortedQualities (Env.getVariantTracks e)) as [|t l] eqn:Hs;
      [done|].
    assert (t ∈ ShakaController.sortedQualities (Env.getVariantTracks e)) as Hin
      by (rewrite Hs; left).
    destruct (sortedQualities_sound _ _ Hin) as (Hl & Hres & _).
    by rewrite (Hnone t Hl) in Hres.
  - rewrite length_imap. apply submseteq_length, NoDup_submseteq.
    + eapply NoDup_fmap_1. apply sortedQualities_NoDup.
    + intros t Hin. by destruct (sortedQualities_sound _ _ Hin).
Qed.

Lemma qualities_have_resolution_witness :
  added_qualities
    (ShakaController.updateQualityTracks Sample.trigger
       (Sample.env_of [Sample.variant 4 50 None (Some 1080%Z) false]) Sample.ready).2
  = [].
Proof.
  destruct (qualities_have_resolution Sample.trigger
              (Sample.env_of [Sample.variant 4 50 None (Some 1080%Z) false])
              Sample.ready) as (_ & Hnone & _).
  apply Hnone. intros t Ht. apply list_elem_of_singleton in Ht as ->. reflexivity.
Defined.

(** ** Outcomes of loading the library *)


(** X15. When the library cannot be loaded, nothing of the player is
    touched.  If the script fails to load, leaves no valid [shaka.Player]
    on [window], or the dynamic import rejects or resolves to something
    that is not a Shaka namespace, then [setup] leaves the provider's state
    as it was, makes no call into the library, and reports the failure
    once: a ['shaka-lib-load-error'] event and one error notification with
    code 4, both carrying the coerced error.  If no library is given at
    all, [setup] does nothing and reports nothing. *)
Theorem library_load_failure_reported {L : Type} `{!Host L} (e : Env.t) (s : State.t L) :
  resolved_constructor (State.library s) e = None →
  (ShakaProvider.setup e s).1 = s
  ∧ library_calls (ShakaProvider.setup e s).2 = []
  ∧ (State.library s = LibUndefined → (ShakaProvider.setup e s).2 = [SuperSetup])
  ∧ (State.library s ≠ LibUndefined →
     ∃ err,
       player_dispatches (ShakaProvider.setup e s).2
       = [DOMEvent.mk "shaka-lib-load-start" NoDetail;
          DOMEvent.mk "shaka-lib-load-error" (ErrorDetail (coerceToError err))]
       ∧ notifications (ShakaProvider.setup e s).2
         = [("error",
             ErrorPayload
               (MediaError.mk (Thrown.message (coerceToError err)) 4
                  (ThrownCause (coerceToError err))))]).
Proof.
  intros Hnone. unfold ShakaProvider.setup.
  destruct (startLoading_unresolved (State.library s) e s Hnone)
    as [[Hlib Heq]|(attempt & err & Heq & Hasync & Hcall)]; rewrite Heq.
  - split_and!; done.
  - cbn -[app ShakaLibLoader.onLoadStart ShakaLibLoader.onLoadError library_calls
          player_dispatches notifications].
    split_and!; [done | | |].
    + rewrite !library_calls_app.
      assert (library_calls [Await attempt] = []) as ->.
      { unfold library_calls, Trace. rewrite filter_cons_False by (by rewrite Hcall).
        done. }
      reflexivity.
    + intros Hlib. rewrite Hlib in Heq. discriminate Heq.
    + intros _. exists err. unfold player_dispatches, notifications.
      rewrite !omap_app. split; reflexivity.
Qed.

Lemma library_load_failure_reported_witness :
  ∃ err,
    notifications
      (ShakaProvider.setup
         (Env.mk Sample.tracks Sample.audio Sample.text (Some 7) false (0, 10)%Z None
            (Some Sample.failure) None (inr None) true false false 0 false true None
            false 0)
         Sample.fresh).2
    = [("error",
        ErrorPayload
          (MediaError.mk (Thrown.message (coerceToError err)) 4
             (ThrownCause (coerceToError err))))].
Proof.
  destruct (library_load_failure_reported
              (Env.mk Sample.tracks Sample.audio Sample.text (Some 7) false (0, 10)%Z
                 None (Some Sample.failure) None (inr None) true false false 0 false
                 true None false 0)
              Sample.fresh eq_refl) as (_ & _ & _ & Hreport).
  destruct Hreport as (err & _ & Hnote); [discriminate|].
  exists err. exact Hnote.
Defined.

Section SetupOutcome.
Context {L : Type} `{!Host L}.
Implicit Types (e : Env.t) (s : State.t L).

Lemma setup_dispatches ctor e s :
  player_dispatches (ShakaController.setup ctor e s).2
  = [DOMEvent.mk "shaka-instance" (InstanceDetail ctor)].
Proof.
  rewrite setup_trace. unfold player_dispatches. rewrite !omap_app.
  rewrite (omap_None _ (_ <$> State.callbacks s))
    by (by intros a (cb & -> & _)%list_elem_of_fmap).
  destruct (Env.live e), (ShakaProviderConfig.config (State.config s)),
    (Env.getNetworkingEngine e), (ShakaProviderConfig.requestFilter (State.config s)),
    (ShakaProviderConfig.responseFilter (State.config s)); reflexivity.
Qed.

Lemma setup_ctor ctor e s :
  State.ctor (ShakaController.setup ctor e s).1 = State.ctor s.
Proof. unfold ShakaController.setup. by destruct (ShakaController.liveSync e). Qed.

Lemma loadSource_begin_dispatches src preload s :
  player_dispatches (ShakaProvider.loadSource_begin src preload s) = [].
Proof.
  unfold ShakaProvider.loadSource_begin, ShakaController.loadSource_call.
  by destruct (Src.src src), (State.instance s).
Qed.

Lemma loadSource_resume_dispatches src e s :
  player_dispatches (ShakaProvider.loadSource_resume src e s).2 = [].
Proof.
  unfold ShakaProvider.loadSource_resume, ShakaController.loadSource_settled.
  by destruct (Src.src src), (State.instance s), (Env.load e).
Qed.

Lemma loadSource_resume_state src e s :
  State.ctor (ShakaProvider.loadSource_resume src e s).1 = State.ctor s
  ∧ State.instance (ShakaProvider.loadSource_resume src e s).1 = State.instance s.
Proof. unfold ShakaProvider.loadSource_resume. by destruct (Src.src src). Qed.

Lemma onLibrary_dispatches ctor e s :
  player_dispatches (ShakaProvider.onLibrary ctor e s).1.2
  = [DOMEvent.mk "shaka-instance" (InstanceDetail ctor)]
  ∧ player_dispatches (ShakaProvider.onLibrary ctor e s).2 = [].
Proof.
  rewrite onLibrary_trace, onLibrary_later. split.
  - unfold player_dispatches. rewrite !omap_app.
    fold (player_dispatches
            (ShakaController.setup ctor e (State.with_ctor (Some ctor) s)).2).
    rewrite setup_dispatches. destruct (Env.source e) as [src|]; [|done].
    fold (player_dispatches
            (ShakaProvider.loadSource_begin src None
               (ShakaController.setup ctor e (State.with_ctor (Some ctor) s)).1)).
    by rewrite loadSource_begin_dispatches.
  - destruct (Env.source e) as [src|]; [apply loadSource_resume_dispatches | done].
Qed.

Lemma onLibrary_result ctor e s :
  State.ctor (ShakaProvider.onLibrary ctor e s).1.1 = Some ctor
  ∧ (ShakaPlayer.ctor <$> State.instance (ShakaProvider.onLibrary ctor e s).1.1)
    = Some ctor.
Proof.
  rewrite onLibrary_state.
  destruct (Env.source e) as [src|].
  - destruct (loadSource_resume_state src e
                (ShakaController.setup ctor e (State.with_ctor (Some ctor) s)).1)
      as [-> ->].
    by rewrite setup_ctor, setup_instance.
  - by rewrite setup_ctor, setup_instance.
Qed.
End SetupOutcome.

(** X16. The check for [MediaSource] comes after the provider has been
    set up, and before the load that set-up starts has settled.  Whenever
    the library yields a constructor, the player instance is constructed and
    the provider remembers the constructor, even in an environment without
    [MediaSource].  There, ['shaka-unsupported'] is dispatched and an error
    with code 4 is notified after the instance was constructed and after the
    load of a string source was started; the callback does not await
    [loadSource], so the notification of a rejected load and the recording
    of the current source come only after that report.  With [MediaSource]
    present, the host player sees three events and no other:
    ['shaka-lib-load-start'], ['shaka-lib-loaded'] and ['shaka-instance'], in
    this order. *)
Theorem unsupported_reported_after_setup {L : Type} `{!Host L}
    (e : Env.t) (s : State.t L) (ctor : ShakaConstructor) :
  resolved_constructor (State.library s) e = Some ctor →
  let t := (ShakaProvider.setup e s).2 in
  State.ctor (ShakaProvider.setup e s).1 = Some ctor
  ∧ (ShakaPlayer.ctor <$> State.instance (ShakaProvider.setup e s).1) = Some ctor
  ∧ (Env.MediaSource_defined e = false →
     ∃ t0 later,
       t = t0 ++ unsupported ++ later
       ∧ Construct ctor ∈ t0
       ∧ (Env.source e = None → later = [])
       ∧ ∀ uri type,
           Env.source e = Some (Src.mk (SrcString uri) type) →
           Await (Load uri) ∈ t0
           ∧ later
             = match Env.load e with
               | Some error =>
                   [Notify "error"
                      (ErrorPayload
                         (MediaError.mk
                            (if Thrown.isError error then Thrown.message error
                             else "Failed to load source")
                            1 (ThrownCause error)))
                      None]
               | None => []
               end
               ++ [SetCurrentSrc (Src.mk (SrcString uri) type)])
  ∧ (Env.MediaSource_defined e = true →
     player_dispatches t
     = [ DOMEvent.mk "shaka-lib-load-start" NoDetail;
         DOMEvent.mk "shaka-lib-loaded" (CtorDetail ctor);
         DOMEvent.mk "shaka-instance" (InstanceDetail ctor) ]).
Proof.
  intros Hctor t. subst t. unfold ShakaProvider.setup.
  destruct (startLoading_resolved (State.library s) e s ctor Hctor)
    as (pre & -> & Hpre_calls & Hpre_notes & Hpre_dispatches & _).
  cbn [fst snd].
  destruct (onLibrary_result ctor e s) as [Hc Hi].
  destruct (onLibrary_dispatches ctor e s) as [Hsync Hlater].
  split_and!; [done | done | |].
  - intros ->.
    exists ([SuperSetup] ++ pre
              ++ [PlayerDispatch (DOMEvent.mk "shaka-lib-loaded" (CtorDetail ctor))]
              ++ (ShakaProvider.onLibrary ctor e s).1.2),
      (ShakaProvider.onLibrary ctor e s).2.
    split_and!.
    + by rewrite <- !app_assoc.
    + rewrite onLibrary_trace, setup_trace, !elem_of_app. do 3 right. left. left. left.
    + intros Hnone. by rewrite onLibrary_later, Hnone.
    + intros uri type Hsource. split.
      * rewrite onLibrary_trace, Hsource, !elem_of_app. do 3 right. do 2 right.
        unfold ShakaProvider.loadSource_begin, ShakaController.loadSource_call.
        cbn [Src.src]. rewrite setup_instance. apply elem_of_app. right. left.
      * rewrite onLibrary_later, Hsource.
        unfold ShakaProvider.loadSource_resume, ShakaController.loadSource_settled.
        cbn [Src.src snd]. by rewrite setup_instance.
  - intros ->. unfold player_dispatches in *.
    rewrite !omap_app, Hpre_dispatches, Hsync, Hlater. reflexivity.
Qed.

Lemma unsupported_reported_after_setup_witness :
  ∃ t0,
    (ShakaProvider.setup
       (Env.mk Sample.tracks Sample.audio Sample.text (Some 7) false (0, 10)%Z
          (Some Sample.failure) None (Some (ShakaNamespace.mk (Some 3) false)) (inr None)
          false false false 0 false false
          (Some (Src.mk (SrcString "https://files.vidstack.io/dash/manifest.mpd") None))
          false 0)
       Sample.fresh).2
    = t0 ++ unsupported
        ++ [Notify "error"
              (ErrorPayload (MediaError.mk "manifest unavailable" 1
                               (ThrownCause Sample.failure)))
              None;
            SetCurrentSrc
              (Src.mk (SrcString "https://files.vidstack.io/dash/manifest.mpd") None)]
    ∧ Await (Load "https://files.vidstack.io/dash/manifest.mpd") ∈ t0.
Proof.
  destruct (unsupported_reported_after_setup
              (Env.mk Sample.tracks Sample.audio Sample.text (Some 7) false (0, 10)%Z
                 (Some Sample.failure) None (Some (ShakaNamespace.mk (Some 3) false))
                 (inr None) false false false 0 false false
                 (Some (Src.mk (SrcString "https://files.vidstack.io/dash/manifest.mpd")
                          None))
                 false 0)
              Sample.fresh 3 eq_refl) as (_ & _ & Hunsupported & _).
  destruct (Hunsupported eq_refl) as (t0 & later & Heq & _ & _ & Hload).
  destruct (Hload "https://files.vidstack.io/dash/manifest.mpd" None eq_refl)
    as [Hin Hlater].
  exists t0. split; [|exact Hin].
  rewrite Heq, Hlater. reflexivity.
Defined.

Section Callbacks.
Context {L : Type} `{!Host L}.
Implicit Types (s : State.t L) (ops : list CallbackOp).

Lemma elem_of_set_add_iff x y l : x ∈ set_add y l ↔ x = y ∨ x ∈ l.
Proof.
  unfold set_add. case_decide as Hin.
  - split; [by right|]. by intros [->|].
  - rewrite elem_of_app, list_elem_of_singleton. tauto.
Qed.

Lemma NoDup_set_add x l : NoDup l → NoDup (set_add x l).
Proof.
  intros Hl. unfold set_add. case_decide as Hin; [done|].
  apply NoDup_app. split_and!; [done | | apply NoDup_singleton].
  by intros y Hy ->%list_elem_of_singleton.
Qed.

Lemma callbacks_apply_op s op :
  State.callbacks (apply_op s op)
  = match op with
    | Subscribe callback => set_add callback (State.callbacks s)
    | Unsubscribe callback => set_delete callback (State.callbacks s)
    end.
Proof. by destruct op. Qed.

Lemma apply_ops_snoc s ops op : apply_ops s (ops ++ [op]) = apply_op (apply_ops s ops) op.
Proof. unfold apply_ops. by rewrite foldl_app. Qed.

Lemma subscribed_snoc ops op callback :
  subscribed (ops ++ [op]) callback
  = if decide (callback_of op = callback)
    then match op with Subscribe _ => true | Unsubscribe _ => false end
    else subscribed ops callback.
Proof.
  unfold subscribed. rewrite filter_app.
  case_decide as Heq.
  - rewrite filter_cons_True by done. rewrite filter_nil, last_snoc. by destruct op.
  - rewrite filter_cons_False by done. by rewrite filter_nil, app_nil_r.
Qed.

(** The set of callbacks after a history of subscriptions. *)
Lemma callbacks_apply_ops s ops :
  State.callbacks s = [] →
  NoDup (State.callbacks (apply_ops s ops))
  ∧ ∀ callback,
      callback ∈ State.callbacks (apply_ops s ops) ↔ subscribed ops callback = true.
Proof.
  intros Hempty. induction ops as [|op ops [IHdup IHin]] using rev_ind.
  - cbn. rewrite Hempty. split; [constructor|]. intros callback. split; [|done].
    by intros ?%elem_of_nil.
  - rewrite apply_ops_snoc, callbacks_apply_op. split.
    + destruct op; [by apply NoDup_set_add | by apply NoDup_filter].
    + intros callback. rewrite subscribed_snoc.
      destruct op as [cb|cb]; cbn [callback_of].
      * rewrite elem_of_set_add_iff, IHin. case_decide as Heq; [by subst; tauto|].
        split; [intros [->|]; done | by right].
      * unfold set_delete. rewrite list_elem_of_filter, IHin.
        case_decide as Heq; [subst; split; [tauto | done]|].
        split; [tauto|]. intros Hs. split; [congruence | done].
Qed.

(** Subscribing only: the set lists the callbacks by first subscription. *)
Lemma callbacks_subscribe_all s callbacks :
  State.callbacks s = [] →
  State.callbacks (apply_ops s (Subscribe <$> callbacks))
  = reverse (remove_dups (reverse callbacks)).
Proof.
  intros Hempty. induction callbacks as [|cb callbacks IH] using rev_ind; [done|].
  rewrite fmap_app. cbn [fmap list_fmap].
  rewrite apply_ops_snoc, callbacks_apply_op, IH, reverse_snoc. cbn [remove_dups].
  unfold set_add.
  destruct (decide_rel elem_of cb (reverse callbacks)) as [Hin|Hin].
  - rewrite decide_True; [done|]. by rewrite elem_of_reverse, elem_of_remove_dups.
  - rewrite decide_False; [by rewrite reverse_cons|].
    by rewrite elem_of_reverse, elem_of_remove_dups.
Qed.
End Callbacks.

(** X17. However often and in whatever order instance callbacks were
    subscribed and unsubscribed before [setup], [setup] calls each callback at
    most once, always with the constructor of the new instance, and calls
    exactly those whose last subscription was not undone afterwards.  When
    callbacks were only subscribed, they are called in the order of their
    first subscription. *)
Theorem callbacks_invoked_once {L : Type} `{!Host L}
    (ops : list CallbackOp) (ctor : ShakaConstructor) (e : Env.t) (s : State.t L) :
  State.callbacks s = [] →
  let t := (ShakaController.setup ctor e (apply_ops s ops)).2 in
  NoDup (invoked t)
  ∧ (∀ callback ctor',
       (callback, ctor') ∈ invoked t ↔ ctor' = ctor ∧ subscribed ops callback = true)
  ∧ (∀ callbacks, ops = Subscribe <$> callbacks →
       invoked t = (λ callback, (callback, ctor)) <$> reverse (remove_dups (reverse callbacks))).
Proof.
  intros Hempty t. subst t. rewrite invoked_setup.
  destruct (callbacks_apply_ops s ops Hempty) as [Hdup Hin]. split_and!.
  - apply NoDup_fmap_2; [|done]. by intros x y [=].
  - intros callback ctor'. rewrite list_elem_of_fmap. split.
    + intros (cb & [= -> ->] & Hcb). split; [done|]. by apply Hin.
    + intros [-> Hs]. exists callback. split; [done|]. by apply Hin.
  - intros callbacks ->. by rewrite callbacks_subscribe_all.
Qed.

Lemma callbacks_invoked_once_witness :
  invoked
    (ShakaController.setup 3 Sample.env
       (apply_ops (State.with_callbacks [] Sample.fresh)
          [Subscribe 5; Subscribe 8; Subscribe 5; Unsubscribe 8; Subscribe 9])).2
  = [(5, 3); (9, 3)]
  ∧ NoDup
      (invoked
         (ShakaController.setup 3 Sample.env
            (apply_ops (State.with_callbacks [] Sample.fresh)
               [Subscribe 5; Subscribe 8; Subscribe 5; Unsubscribe 8; Subscribe 9])).2).
Proof.
  split; [reflexivity|].
  exact (proj1 (callbacks_invoked_once
                  [Subscribe 5; Subscribe 8; Subscribe 5; Unsubscribe 8; Subscribe 9]
                  3 Sample.env (State.with_callbacks [] Sample.fresh) eq_refl)).
Defined.

Section Destruction.
Import ShakaController.
Context {L : Type} `{!Host L}.
Implicit Types (e : Env.t) (s : State.t L) (event : ShakaEvent.t).

Lemma destroy_instance s : State.instance (destroy s).1 = None.
Proof.
  unfold destroy, destroy_resume. cbn [fst].
  by destruct (State.instance s) eqn:Hinst.
Qed.

Lemma destroy_callbacks s : State.callbacks (destroy s).1 = State.callbacks s.
Proof. unfold destroy, destroy_resume. cbn [fst]. by destruct (State.instance s). Qed.

Lemma destroy_stopLiveSync s : State.stopLiveSync (destroy s).1 = None.
Proof. done. Qed.

(** [destroy] lets go of the player without touching its listeners. *)
Lemma destroy_dropped s inst :
  State.instance s = Some inst → State.dropped (destroy s).1 = Some inst.
Proof. intros Hinst. unfold destroy, destroy_resume. cbn [fst]. by rewrite Hinst. Qed.

Lemma fire_change_no_instance target e s :
  State.instance s = None → fire_change target e s = [].
Proof.
  intros Hinst. unfold fire_change.
  induction (filter _ (State.hostListeners s)) as [|[[tg type] h] l IH]; [done|].
  rewrite fmap_cons. cbn [concat]. rewrite IH, app_nil_r.
  destruct h; try done; cbn [run_listener snd];
    unfold onUserQualityChange, onUserAudioChange; by rewrite Hinst.
Qed.

(** Without an instance, no handler reaches the library. *)
Lemma run_handler_no_instance h event e s :
  State.instance s = None →
  State.instance (run_handler h event e s).1 = None
  ∧ library_calls (run_handler h event e s).2 = [].
Proof.
  intros Hinst. destruct h; cbn [run_handler fst snd].
  - done.
  - split; [done|]. unfold onError. by destruct (ShakaEvent.detail event).
  - unfold onAdaptation. repeat case_match; try done.
    unfold select_quality. cbn [fst snd]. split; [done|].
    rewrite fire_change_no_instance by done. by destruct (select_changes _ _).
  - unfold onTracksChanged, updateQualityTracks. rewrite Hinst. by case_decide.
  - unfold onLoaded. by rewrite Hinst.
  - split; [done|]. unfold onBuffering. by case_match.
  - split; [done|]. unfold onUserQualityChange. by rewrite Hinst.
  - split; [done|]. unfold onUserAudioChange. by rewrite Hinst.
  - unfold liveSync_rerun, liveSync.
    destruct (State.stopLiveSync s) as [[[]]|], (Env.live e); by cbn.
  - split; [done|]. unfold liveSyncPosition. by rewrite Hinst.
Qed.

Lemma run_handlers_no_instance hs event e s :
  State.instance s = None →
  State.instance (run_handlers hs event e s).1 = None
  ∧ library_calls (run_handlers hs event e s).2 = [].
Proof.
  revert s. induction hs as [|h hs IH]; intros s Hinst; [done|].
  rewrite run_handlers_cons. cbn [fst snd].
  destruct (run_handler_no_instance h event e s Hinst) as [Hinst1 Hcalls1].
  destruct (IH _ Hinst1) as [Hinst2 Hcalls2].
  split; [done|]. by rewrite library_calls_app, Hcalls1, Hcalls2.
Qed.

Lemma receive_no_instance event e s :
  State.instance s = None → library_calls (receive event e s).2 = [].
Proof.
  intros Hinst. unfold receive. destruct (player s); [|done].
  by apply run_handlers_no_instance.
Qed.

(** The events of a player that was let go of are still forwarded. *)
Lemma receive_dropped ctor e0 s0 e s event :
  State.instance s = None →
  State.dropped s = State.instance (setup ctor e0 s0).1 →
  ShakaEvent.type event ∈ events →
  player_dispatches (receive event e s).2
  = [DOMEvent.mk ("shaka-" +:+ camelToKebabCase (ShakaEvent.type event))
       (EventDetail event)].
Proof.
  intros Hinst Hdropped Htype. unfold receive, player.
  rewrite Hinst, Hdropped, setup_instance. cbn [ShakaPlayer.listeners].
  unfold events in Htype.
  repeat (apply elem_of_cons in Htype as [Htype|Htype]);
    [..|by apply elem_of_nil in Htype];
    rewrite Htype;
    match goal with
    | |- context [ (filter ?P ?l).*2 ] =>
        let hs := fresh "hs" in
        set (hs := (filter P l).*2); vm_compute in hs; subst hs
    end;
    rewrite ?run_handlers_cons; cbn [run_handlers snd fst];
    rewrite ?player_dispatches_app;
    cbn [run_handler snd fst];
    rewrite ?onLoaded_silent, ?onTracksChanged_silent, ?onAdaptation_silent,
      ?onBuffering_silent;
    unfold dispatchShakaEvent, createDOMEvent, toDOMEventType;
    rewrite Htype; reflexivity.
Qed.
End Destruction.

(** X18. [destroy] leaves an adapter that no longer reaches the library,
    but it removes no listener.  It destroys the player exactly when there
    is one.  Once it has run to its end, [#instance] is cleared: another
    [destroy] does nothing, a change of the selected quality or audio track,
    a request for automatic quality, a live-sync tick and the registration
    of a filter all do nothing, loading a source makes no call into the
    library, and no event of the player, whatever its type, leads to a call
    into the library.  The events of the destroyed player are still
    forwarded to the host player, though.  A second [destroy] that is
    called before the first has resumed from its [await] calls the library's
    [destroy] a second time.  The instance callbacks survive: a later
    [setup] calls the same ones. *)
Theorem destroy_makes_inert {L : Type} `{!Host L} (s : State.t L) :
  let s' := (ShakaProvider.destroy s).1 in
  library_calls (ShakaProvider.destroy s).2
  = match State.instance s with Some _ => [Await Destroy] | None => [] end
  ∧ State.instance s' = None
  ∧ ShakaProvider.destroy s' = (s', [])
  ∧ (is_Some (State.instance s) →
     library_calls (ShakaController.destroy_twice s).2 = [Await Destroy; Await Destroy])
  ∧ (∀ e, ShakaController.onUserQualityChange e s' = []
          ∧ ShakaController.onUserAudioChange e s' = []
          ∧ ShakaController.enableAutoQuality s' = []
          ∧ ShakaController.liveSyncPosition e s' = [])
  ∧ (∀ filter e,
       ShakaProvider.registerRequestFilter filter e s' = (s', [])
       ∧ ShakaProvider.registerResponseFilter filter e s' = (s', []))
  ∧ (∀ src preload e, library_calls (ShakaProvider.loadSource src preload e s').2 = [])
  ∧ (∀ ctor e,
       invoked (ShakaController.setup ctor e s').2
       = invoked (ShakaController.setup ctor e s).2)
  ∧ (∀ event e, library_calls (ShakaController.receive event e s').2 = [])
  ∧ (∀ ctor e0 (s0 : State.t L) e event,
       State.instance s = State.instance (ShakaController.setup ctor e0 s0).1 →
       ShakaEvent.type event ∈ ShakaController.events →
       player_dispatches (ShakaController.receive event e s').2
       = [DOMEvent.mk ("shaka-" +:+ camelToKebabCase (ShakaEvent.type event))
            (EventDetail event)]).
Proof.
  intros s'. subst s'. unfold ShakaProvider.destroy.
  pose proof (destroy_instance s) as Hnone.
  split_and!.
  - unfold ShakaController.destroy, ShakaController.destroy_resume,
      ShakaController.destroy_call. cbn [snd].
    destruct (State.instance s), (State.stopLiveSync s) as [[[]]|]; reflexivity.
  - done.
  - unfold ShakaController.destroy at 1, ShakaController.destroy_resume at 1,
      ShakaController.destroy_call at 1.
    rewrite Hnone, destroy_stopLiveSync. cbn [app]. by f_equal.
  - intros [inst Hinst]. unfold ShakaController.destroy_twice,
      ShakaController.destroy_resume, ShakaController.destroy_call.
    cbn [snd State.instance State.stopLiveSync State.with_stopLiveSync].
    rewrite Hinst. by destruct (State.stopLiveSync s) as [[[]]|].
  - intros e. unfold ShakaController.onUserQualityChange,
      ShakaController.onUserAudioChange, ShakaController.enableAutoQuality,
      ShakaController.liveSyncPosition.
    by rewrite Hnone.
  - intros filter e. unfold ShakaProvider.registerRequestFilter,
      ShakaProvider.registerResponseFilter, ShakaController.registerRequestFilter,
      ShakaController.registerResponseFilter.
    by rewrite Hnone.
  - intros src preload e. rewrite provider_loadSource_eq, controller_loadSource_eq.
    rewrite Hnone. by destruct (Src.src src).
  - intros ctor e. by rewrite !invoked_setup, destroy_callbacks.
  - intros event e. by apply receive_no_instance.
  - intros ctor e0 s0 e event Hinst Htype.
    apply (receive_dropped ctor e0 s0); [done | | done].
    rewrite setup_instance in *. by apply destroy_dropped.
Qed.

Lemma destroy_makes_inert_witness :
  player_dispatches
    (ShakaController.receive (ShakaEvent.mk "unloading" None None None) Sample.env
       (ShakaProvider.destroy Sample.ready).1).2
  = [DOMEvent.mk "shaka-unloading"
       (EventDetail (ShakaEvent.mk "unloading" None None None))]
  ∧ library_calls (ShakaController.destroy_twice Sample.ready).2
    = [Await Destroy; Await Destroy].
Proof.
  assert ("unloading" ∈ ShakaController.events) as Hin
    by (unfold ShakaController.events; do 3 right; left).
  destruct (destroy_makes_inert Sample.ready)
    as (_ & _ & _ & Htwice & _ & _ & _ & _ & _ & Hforwarded).
  split.
  - exact (Hforwarded 3 Sample.env Sample.fresh Sample.env
             (ShakaEvent.mk "unloading" None None None) eq_refl Hin).
  - apply Htwice. by eexists.
Defined.

Section Polyfills.
Context {L : Type} `{!Host L}.
Implicit Types (e : Env.t) (s : State.t L) (t : Trace).

Lemma all_before_split (P Q : Action → bool) (t1 t2 : list Action) :
  Forall (λ a, Q a = false) t1 → Forall (λ a, P a = false) t2 →
  all_before P Q (t1 ++ t2).
Proof.
  rewrite !Forall_forall. intros HQ HP i j a b Hi Hj Ha Hb. unfold Trace in Hi, Hj.
  destruct (decide (j < length t1)) as [Hlt|Hge].
  - rewrite lookup_app_l in Hj by done.
    apply list_elem_of_lookup_2, HQ in Hj. congruence.
  - destruct (decide (i < length t1)) as [|Hge']; [lia|].
    rewrite lookup_app_r in Hi by lia.
    apply list_elem_of_lookup_2, HP in Hi. congruence.
Qed.

Lemma filter_none_install (t : list Action) :
  Forall (λ a, is_install a = false) t → filter (λ a, is_install a = true) t = [].
Proof.
  induction 1 as [|a t Ha _ IH]; [done|].
  rewrite filter_cons_False; [done|]. by rewrite Ha.
Qed.

Lemma setup_no_install ctor e s :
  Forall (λ a, is_install a = false) (ShakaController.setup ctor e s).2.
Proof.
  rewrite setup_trace. rewrite !Forall_app, !Forall_fmap.
  split_and!; try (by apply Forall_true); try (by repeat constructor).
  - by destruct (ShakaProviderConfig.config (State.config s)); repeat constructor.
  - destruct (Env.getNetworkingEngine e); [|constructor].
    by destruct (ShakaProviderConfig.requestFilter (State.config s)),
      (ShakaProviderConfig.responseFilter (State.config s)); repeat constructor.
  - by destruct (Env.live e); repeat constructor.
Qed.

Lemma onLibrary_no_install ctor e s :
  Forall (λ a, is_install a = false) (ShakaProvider.onLibrary ctor e s).1.2
  ∧ Forall (λ a, is_install a = false) (ShakaProvider.onLibrary ctor e s).2.
Proof.
  rewrite onLibrary_trace, onLibrary_later. split.
  - rewrite !Forall_app. split_and!; [apply setup_no_install | by repeat constructor |].
    destruct (Env.source e) as [src|]; [|constructor].
    unfold ShakaProvider.loadSource_begin, ShakaController.loadSource_call.
    destruct (Src.src src); [|by repeat constructor].
    case_match; by repeat constructor.
  - destruct (Env.source e) as [src|]; [|constructor].
    unfold ShakaProvider.loadSource_resume, ShakaController.loadSource_settled.
    destruct (Src.src src); [|by repeat constructor]. cbn [snd].
    case_match; [|by repeat constructor].
    destruct (Env.load e); by repeat constructor.
Qed.
End Polyfills.

(** X19. When the library yields a constructor, its polyfills are
    installed before the player exists: [installAll] runs exactly once if
    the namespace brings polyfills and never otherwise, and it runs before
    ['shaka-lib-loaded'] is dispatched and before the player is
    constructed. *)
Theorem polyfills_installed_first {L : Type} `{!Host L}
    (e : Env.t) (s : State.t L) (ctor : ShakaConstructor) :
  resolved_constructor (State.library s) e = Some ctor →
  let t := (ShakaProvider.setup e s).2 in
  filter (λ a, is_install a = true) t
  = (if resolved_polyfill (State.library s) e then [InstallPolyfills] else [])
  ∧ all_before is_install is_library_loaded t
  ∧ all_before is_install is_construct t.
Proof.
  intros Hctor t. subst t. unfold ShakaProvider.setup.
  destruct (startLoading_resolved (State.library s) e s ctor Hctor)
    as (pre & -> & Hpre_calls & _ & Hpre_dispatches & Hpre_install & _).
  cbn [snd].
  destruct (onLibrary_no_install ctor e s) as [Hsync Hlater].
  assert (Forall (λ a, is_install a = false)
            ([PlayerDispatch (DOMEvent.mk "shaka-lib-loaded" (CtorDetail ctor))]
               ++ (ShakaProvider.onLibrary ctor e s).1.2
               ++ (if Env.MediaSource_defined e then [] else unsupported)
               ++ (ShakaProvider.onLibrary ctor e s).2)) as Hrest.
  { rewrite !Forall_app. split_and!; [by repeat constructor | done | | done].
    by destruct (Env.MediaSource_defined e); repeat constructor. }
  rewrite (app_assoc [SuperSetup] pre). split_and!.
  - unfold Trace in *.
    rewrite filter_app, (filter_none_install _ Hrest), app_nil_r.
    rewrite filter_app, Hpre_install.
    by destruct (resolved_polyfill (State.library s) e).
  - apply all_before_split; [|done]. apply Forall_forall. intros a Ha.
    destruct (is_library_loaded a) eqn:Hloaded; [|done]. exfalso.
    apply elem_of_app in Ha as [->%list_elem_of_singleton|Ha]; [done|].
    destruct a; try done.
    match goal with H : PlayerDispatch ?x ∈ pre |- _ => rename x into ev end.
    assert (ev ∈ player_dispatches pre) as Hev.
    { apply list_elem_of_omap. by exists (PlayerDispatch ev). }
    rewrite Hpre_dispatches in Hev. by apply list_elem_of_singleton in Hev as ->.
  - apply all_before_split; [|done]. apply Forall_forall. intros a Ha.
    destruct (is_construct a) eqn:Hc; [|done]. exfalso.
    apply elem_of_app in Ha as [->%list_elem_of_singleton|Ha]; [done|].
    assert (a ∈ library_calls pre) as Hcall.
    { apply list_elem_of_filter. split; [by destruct a|done]. }
    rewrite Hpre_calls in Hcall. by apply elem_of_nil in Hcall.
Qed.

Lemma polyfills_installed_first_witness :
  filter (λ a, is_install a = true)
    (ShakaProvider.setup
       (Env.mk Sample.tracks Sample.audio Sample.text (Some 7) false (0, 10)%Z None None
          (Some (ShakaNamespace.mk (Some 3) true)) (inr None) true false false 0 false
          false None false 0)
       Sample.fresh).2
  = [InstallPolyfills]
  ∧ all_before is_install is_construct
      (ShakaProvider.setup
         (Env.mk Sample.tracks Sample.audio Sample.text (Some 7) false (0, 10)%Z None None
            (Some (ShakaNamespace.mk (Some 3) true)) (inr None) true false false 0 false
            false None false 0)
         Sample.fresh).2.
Proof.
  destruct (polyfills_installed_first
              (Env.mk Sample.tracks Sample.audio Sample.text (Some 7) false (0, 10)%Z
                 None None (Some (ShakaNamespace.mk (Some 3) true)) (inr None) true
                 false false 0 false false None false 0)
              Sample.fresh 3 eq_refl) as (Hcount & _ & Hbefore).
  split; [exact Hcount | exact Hbefore].
Defined.
